(** * Frog Sound Classifier API: a model of [services/frog-api/main.py]

    The development follows the source file top to bottom: the audio
    preprocessing functions, the persistence sink, the start-up loader and
    the two prediction endpoints.

    Conventions of the embedding.
    - A NumPy float is modelled by the rational it denotes ([Q]); rounding
      is not modelled, and neither are NaN samples.  The NaN of an empty
      scan window is kept, as [RNaN]; the NaN that the mono mix makes of
      an empty channel is not, and what is stated of the mix is stated
      for arrays that are [well_shaped].
    - [np.argsort] is an interface with the two properties NumPy gives
      it: its result is a permutation of the indices, ascending in the
      values.  The order of equal entries is left open, as the default
      sort kind leaves it.
    - A one-dimensional array is a [list Q]; lengths and indices are [Z],
      as Python integers are, with Python's slice rules written out.
    - A Python exception is a value of [exn]; a call that may raise
      returns a [result].
    - Calls that leave the process (librosa, the model, the scaler, the
      object store and the record store) are fields of an interface; the
      endpoints record every such call in a trace. *)

From Stdlib Require Import ZArith QArith Qabs Qround List Bool Lia.
From Stdlib Require Import String Ascii Permutation Sorted.
Import ListNotations.

Close Scope Q_scope.

(** ** Python values used throughout *)

Module Py.

(** [HTTPException] is the only exception class the handlers tell apart
    from the rest ([except HTTPException: raise]). *)
Inductive exn : Type :=
| HTTPException (status_code : Z) (detail : string)
| RuntimeError (msg : string)
| ValueError (msg : string)
| OtherError (msg : string).

(** [str(e)] as the f-strings of the handlers print it.  Starlette's
    [HTTPException.__str__] is "<status>: <detail>". *)
Definition digit_char (d : nat) : ascii :=
  ascii_of_nat (48 + d).

Fixpoint dec_digits (fuel n : nat) (acc : string) : string :=
  match fuel with
  | O => acc
  | S fuel' =>
      let acc' := String (digit_char (n mod 10)) acc in
      match n / 10 with
      | O => acc'
      | q => dec_digits fuel' q acc'
      end
  end.

(** [str(n)] for a non-negative integer. *)
Definition str_nat (n : nat) : string := dec_digits (S n) n EmptyString.

(** [str(z)] for an integer. *)
Definition str_int (z : Z) : string :=
  match z with
  | Z0 => "0"
  | Zpos _ => str_nat (Z.to_nat z)
  | Zneg _ => String "-" (str_nat (Z.to_nat (- z)))
  end%string.

Definition str_exn (e : exn) : string :=
  match e with
  | HTTPException c d => (str_int c ++ ": " ++ d)%string
  | RuntimeError m | ValueError m | OtherError m => m
  end.

Inductive result (A : Type) : Type :=
| Ok (a : A)
| Raise (e : exn).
Arguments Ok {A} a.
Arguments Raise {A} e.

Definition bind {A B} (m : result A) (k : A -> result B) : result B :=
  match m with
  | Ok a => k a
  | Raise e => Raise e
  end.

Definition len {A} (l : list A) : Z := Z.of_nat (List.length l).

(** An index of a slice, brought into [0, len]: a negative index counts
    from the end, and anything out of range is clipped. *)
Definition clip_index (n i : Z) : Z :=
  if (i <? 0)%Z then Z.max 0 (i + n) else Z.min i n.

(** [y[a:b]] *)
Definition slice {A} (y : list A) (a b : Z) : list A :=
  let n := len y in
  let a' := clip_index n a in
  let b' := clip_index n b in
  firstn (Z.to_nat (b' - a')) (skipn (Z.to_nat a') y).

(** [range(0, stop, step)]; a zero step raises [ValueError]. *)
Definition range0 (stop step : Z) : result (list Z) :=
  if (step =? 0)%Z then Raise (ValueError "range() arg 3 must not be zero")
  else
    let count :=
      if (0 <? step)%Z
      then (if (stop <=? 0)%Z then 0 else (stop + step - 1) / step)%Z
      else (if (0 <=? stop)%Z then 0 else (- stop - step - 1) / (- step))%Z in
    Ok (map (fun k => (Z.of_nat k * step)%Z) (seq 0 (Z.to_nat count))).

(** [int(x)] of a float: truncation toward zero. *)
Definition int_of_float (x : Q) : Z := Z.quot (Qnum x) (Zpos (Qden x)).

End Py.
Import Py.

Notation "x <- m ;; k" := (Py.bind m (fun x => k))
  (at level 61, m at next level, right associativity).

(** ** Audio preprocessing (lines 75-171 of main.py) *)

Module Audio.

Local Open Scope Q_scope.

Definition buffer := list Q.

Definition TARGET_SR : Z := 22050.
Definition TARGET_DURATION : Q := 10.
Definition PEAK_LEVEL : Q := 98 # 100.
Definition PRE_EMPHASIS_COEF : Q := 97 # 100.

Definition Qltb (x y : Q) : bool := negb (Qle_bool y x).

Definition Qsum (l : list Q) : Q := fold_right Qplus 0 l.

(** The value [np.sqrt(np.mean(window**2))], or the initial [-1] of
    [best_rms].  Square roots are kept symbolic, as their radicand: the
    root is monotone, so two roots compare as their radicands do, and
    every root is above [-1].  The mean of an empty window is NaN. *)
Inductive rms_value : Type :=
| RMinusOne
| RSqrt (radicand : Q)
| RNaN.

Definition rms (window : buffer) : rms_value :=
  match window with
  | [] => RNaN
  | _ => RSqrt (Qsum (map (fun x => x * x) window) / inject_Z (len window))
  end.

(** [a > b] on such values; a comparison with NaN is false. *)
Definition rms_gt (a b : rms_value) : bool :=
  match a, b with
  | RSqrt x, RSqrt y => Qltb y x
  | RSqrt _, RMinusOne => true
  | _, _ => false
  end.

(** [y[start:start + window_samples]] *)
Definition window_at (y : buffer) (window_samples start : Z) : buffer :=
  slice y start (start + window_samples).

(** One turn of the loop of [find_best_10s_window] on the pair
    [(best_rms, best_start)]. *)
Definition window_step (y : buffer) (window_samples : Z)
    (best : rms_value * Z) (start : Z) : rms_value * Z :=
  let window := window_at y window_samples start in
  let r := rms window in
  if rms_gt r (fst best) then (r, start) else best.

Definition window_samples_of (target_duration : Q) (sr : Z) : Z :=
  int_of_float (target_duration * inject_Z sr).

Definition find_best_10s_window (y : buffer) (sr : Z) (target_duration : Q)
  : result buffer :=
  let window_samples := window_samples_of target_duration sr in
  if (len y <=? window_samples)%Z then Ok y
  else
    let hop := sr in
    starts <- range0 (len y - window_samples + 1) hop ;;
    let best := fold_left (window_step y window_samples) starts
                          (RMinusOne, 0%Z) in
    let best_start := snd best in
    Ok (window_at y window_samples best_start).

(** [np.max(np.abs(y)) if y.size else 0.0] *)
Definition Qmaxb (a b : Q) : Q := if Qle_bool a b then b else a.

Definition max_abs (y : buffer) : Q :=
  match map Qabs y with
  | [] => 0
  | a :: l => fold_left Qmaxb l a
  end.

Definition peak_normalize (y : buffer) (peak : Q) : buffer :=
  let max_val := max_abs y in
  if Qltb 0 max_val then map (fun x => (x / max_val) * peak) y else y.

Definition standardize_duration (y : buffer) (sr : Z) (target_seconds : Q)
  : buffer :=
  let target_len := window_samples_of target_seconds sr in
  if (target_len <? len y)%Z then slice y 0 target_len
  else if (len y <? target_len)%Z then
    let pad := (target_len - len y)%Z in
    y ++ repeat 0 (Z.to_nat pad)
  else y.

(** An array as [librosa.load(..., mono=False)] returns it: one axis, or
    two (a list of rows, all of one length). *)
Inductive ndarray : Type :=
| Arr1 (samples : buffer)
| Arr2 (rows : list buffer).

(** [np.mean] of a row that has samples.  Of an empty row NumPy gives
    NaN, which a rational cannot be; statements on [to_mono] are made for
    arrays that are [well_shaped]. *)
Definition mean (l : buffer) : Q := Qsum l / inject_Z (len l).

Fixpoint add_rows (a b : buffer) : buffer :=
  match a, b with
  | x :: a', z :: b' => (x + z) :: add_rows a' b'
  | _, _ => []
  end.

(** [np.mean(y, axis=0)] of a two-axis array with [width] columns. *)
Definition mean_axis0 (rows : list buffer) (width : nat) : buffer :=
  map (fun c => c / inject_Z (len rows))
      (fold_right add_rows (repeat 0 width) rows).

(** [np.mean(y, axis=-1)] *)
Definition mean_axis_last (rows : list buffer) : buffer := map mean rows.

Definition to_mono (y : ndarray) : buffer :=
  match y with
  | Arr1 v => v
  | Arr2 rows =>
      let shape0 := len rows in
      let shape1 := len (hd [] rows) in
      if ((shape0 <=? 8)%Z && (8 <? shape1)%Z)%bool
      then mean_axis0 rows (Z.to_nat shape1)
      else mean_axis_last rows
  end.

(** The arrays on which [to_mono] takes no mean over an empty axis: one
    axis, or two with at least one row and rows of one length that hold
    at least one sample. *)
Definition well_shaped (y : ndarray) : Prop :=
  match y with
  | Arr1 _ => True
  | Arr2 rows =>
      rows <> []
      /\ Forall (fun r => r <> []
                         /\ List.length r = List.length (hd [] rows)) rows
  end.

Definition silent (y : buffer) : Prop := Forall (fun x => x == 0) y.

(** The three librosa routines the normalizer calls, with what their
    documentation promises and the proofs below rely on: [trim] returns
    a span [y[start:end]] of its input, and resampling and pre-emphasis
    are linear filters, so they send silence to silence. *)
Class Librosa : Type := {
  effects_trim : buffer -> Q -> buffer;
  resample : buffer -> Z -> Z -> buffer;
  effects_preemphasis : buffer -> Q -> buffer;
  trim_span : forall y top_db,
      exists a b, effects_trim y top_db = slice y a b;
  resample_silent : forall y orig_sr target_sr,
      silent y -> silent (resample y orig_sr target_sr);
  preemphasis_silent : forall y coef,
      silent y -> silent (effects_preemphasis y coef);
  preemphasis_length : forall y coef,
      List.length (effects_preemphasis y coef) = List.length y
}.

Section Normalizer.
Context {librosa : Librosa}.

Definition trim_silence (y : buffer) (top_db : Q) : buffer :=
  let yt := effects_trim y top_db in
  if (0 <? len yt)%Z then yt else y.

Definition normalize_audio (y : ndarray) (sr : Z) (apply_preemphasis : bool)
  : result (buffer * Z) :=
  let y := to_mono y in
  let y := trim_silence y 30 in
  y <- find_best_10s_window y sr TARGET_DURATION ;;
  let '(y, sr) :=
    if negb (sr =? TARGET_SR)%Z
    then (resample y sr TARGET_SR, TARGET_SR)
    else (y, sr) in
  let y := standardize_duration y sr TARGET_DURATION in
  let y := if apply_preemphasis
           then effects_preemphasis y PRE_EMPHASIS_COEF else y in
  let y := peak_normalize y PEAK_LEVEL in
  Ok (y, sr).
End Normalizer.

End Audio.

(** ** Top-3 selection: [np.argsort(proba)[::-1][:3]] (lines 460 and 568) *)

Module TopK.
Import Audio.
Local Open Scope Q_scope.

(** [v[i]] for an index that [argsort] produced *)
Definition at_index (v : list Q) (i : nat) : Q := nth i v 0.

(** [np.argsort], called as the code calls it, with the default kind,
    which is not stable.  It returns the indices of the array in an order
    that is ascending in the values; of the order of indices whose values
    are equal NumPy promises nothing, and it differs between the sorts a
    build dispatches to.  The code is therefore read against every
    function with these two properties. *)
Class NumPy : Type := {
  argsort : list Q -> list nat;
  argsort_perm : forall v,
      Permutation (argsort v) (seq 0 (List.length v));
  argsort_ascending : forall v,
      StronglySorted (fun i j => at_index v i <= at_index v j) (argsort v)
}.

Definition top_3_indices {numpy : NumPy} (proba : list Q) : list nat :=
  firstn 3 (rev (argsort proba)).

End TopK.

(** ** Strings and paths *)

Module Path.
Local Open Scope string_scope.

Definition to_lower (c : ascii) : ascii :=
  let n := nat_of_ascii c in
  if ((65 <=? n)%nat && (n <=? 90)%nat)%bool then ascii_of_nat (n + 32) else c.

(** [s.lower()], on the ASCII letters *)
Fixpoint lower (s : string) : string :=
  match s with
  | EmptyString => EmptyString
  | String c s' => String (to_lower c) (lower s')
  end.

Fixpoint rfind_from (c : ascii) (s : string) (i last : Z) : Z :=
  match s with
  | EmptyString => last
  | String a s' => rfind_from c s' (i + 1)%Z (if Ascii.eqb a c then i else last)
  end.

(** [s.rfind(c)]: the last position of [c], or -1 *)
Definition rfind (c : ascii) (s : string) : Z := rfind_from c s 0 (-1).

Definition take (n : nat) (s : string) : string := substring 0 n s.
Definition drop (n : nat) (s : string) : string :=
  substring n (String.length s - n) s.

(** [os.path.splitext] of [posixpath]: the extension starts at the last
    dot, when that dot comes after the last slash and after some
    character of the file name that is not a dot. *)
Definition splitext (p : string) : string * string :=
  let sepIndex := rfind "/" p in
  let dotIndex := rfind "." p in
  if (sepIndex <? dotIndex)%Z
     && existsb (fun i => match get i p with
                          | Some c => negb (Ascii.eqb c ".")
                          | None => false
                          end)
                (seq (Z.to_nat (sepIndex + 1))
                     (Z.to_nat (dotIndex - (sepIndex + 1))))
  then (take (Z.to_nat dotIndex) p, drop (Z.to_nat dotIndex) p)
  else (p, "").

Definition mem (x : string) (l : list string) : bool := existsb (String.eqb x) l.

(** [s.lstrip('.')] *)
Fixpoint lstrip_dots (s : string) : string :=
  match s with
  | String "." s' => lstrip_dots s'
  | _ => s
  end.

Fixpoint lookup {V} (k : string) (d : list (string * V)) : option V :=
  match d with
  | [] => None
  | (k', v) :: d' => if String.eqb k k' then Some v else lookup k d'
  end.

End Path.

(** ** The service: start-up, persistence and the two endpoints *)

Module Service.
Import Audio TopK Path.
Local Open Scope string_scope.

Definition matrix := list (list Q).
Definition bytes := list Byte.byte.

(** A class label as [model.predict] returns it: a Python [str] or
    [int], or a NumPy scalar, of which only [str(...)] is used. *)
Inductive label : Type :=
| LStr (s : string)
| LInt (z : Z)
| LNumpy (shown : string).

Definition str_label (l : label) : string :=
  match l with
  | LStr s => s
  | LInt z => str_int z
  | LNumpy shown => shown
  end.

Record top_entry : Type := { species : string; confidence : Q }.

Record PredictionResponse : Type := {
  prediction : label;
  top_3 : option (list top_entry);
  probabilities : option (list Q);
  filename : option string;
  signed_url : option string;
  signed_url_expires_in : option Z
}.

(** The loaded classifier.  [None] in an attribute means [hasattr] is
    false; calling a missing method raises [AttributeError]. *)
Record Model : Type := {
  n_features_in_ : option Z;
  classes_ : option (list label);
  model_predict : matrix -> result (list label);
  predict_proba : option (matrix -> result matrix)
}.

Record Scaler : Type := { transform : matrix -> result matrix }.

(** The three names read in what [create_signed_url] answers. *)
Record signed_answer : Type := {
  signedURL : option string;
  signed_url_key : option string;
  url_key : option string
}.

(** What [create_signed_url] answers, by its Python type: the code reads
    a dict with [get] and anything else with [getattr], and not in the
    same order. *)
Inductive signed_reply : Type :=
| SignedDict (keys : signed_answer)
| SignedObject (attributes : signed_answer).

Record metadata : Type := {
  md_filename : string;
  md_original_filename : string;
  md_prediction : label;
  md_top_3_predictions : option (list top_entry);
  md_all_probabilities : option (list Q);
  md_timestamp : string
}.

Record Supabase : Type := {
  storage_upload : string -> string -> bytes -> string -> result string;
  table_insert : string -> metadata -> result string;
  create_signed_url : string -> string -> Z -> result signed_reply
}.

(** The module-level globals after start-up. *)
Record Globals : Type := {
  model : Model;
  scaler : option Scaler;
  feature_names : option (list string);
  supabase : option Supabase;
  SAVE_UPLOADS : bool
}.

(** What the process reads from outside while it serves: the clock,
    the environment, the float formatter of the f-strings, the order in
    which a set of strings is iterated (fixed by the hash seed), and the
    librosa calls of the audio endpoint. *)
Record Runtime : Type := {
  utcnow_stamp : string;
  utcnow_iso : string;
  SUPABASE_BUCKET : string;
  format_2f : Q -> string;
  set_iteration : list string -> list string;
  set_iteration_perm : forall l, Permutation (set_iteration l) l;
  librosa_load : bytes -> result (ndarray * Z);
  librosa : Librosa;
  librosa_features : buffer -> Z -> result (list (string * Q))
}.

(** The arguments [predict_from_audio] gives the save it schedules. *)
Record task_args : Type := {
  arg_audio_bytes : bytes;
  arg_filename : string;
  arg_prediction : label;
  arg_top_3 : option (list top_entry);
  arg_probabilities : option (list Q);
  arg_storage_filename : option string
}.

(** Every call that leaves the handler, in order. *)
Inductive event : Type :=
| FileRead
| LibrosaLoad
| NormalizeAudio
| ExtractFeatures
| ScalerTransform (X : matrix)
| ModelPredict (X : matrix)
| ModelPredictProba (X : matrix)
| CreateTask (args : task_args)
| CreateSignedUrl (storage_filename : string)
| StorageUpload (path : string) (content_type : string)
| TableInsert (table : string) (row : metadata)
| Print (msg : string).

(** A computation: the calls it made and how it ended. *)
Definition Eff (A : Type) : Type := list event * result A.

Definition ret {A} (a : A) : Eff A := ([], Ok a).
Definition raise {A} (e : exn) : Eff A := ([], Raise e).
Definition lift {A} (r : result A) : Eff A := ([], r).
Definition call {A} (ev : event) (r : result A) : Eff A := ([ev], r).
Definition print (msg : string) : Eff unit := ([Print msg], Ok tt).

Definition bind {A B} (m : Eff A) (k : A -> Eff B) : Eff B :=
  match m with
  | (t, Ok a) => let '(t', r) := k a in ((t ++ t')%list, r)
  | (t, Raise e) => (t, Raise e)
  end.

(** [try: m  except Exception as e: handler e] *)
Definition try_except {A} (m : Eff A) (handler : exn -> Eff A) : Eff A :=
  match m with
  | (t, Raise e) => let '(t', r) := handler e in ((t ++ t')%list, r)
  | done => done
  end.

Definition trace {A} (m : Eff A) : list event := fst m.
Definition outcome {A} (m : Eff A) : result A := snd m.

Notation "x <~ m ;; k" := (bind m (fun x => k))
  (at level 61, m at next level, right associativity).
Notation "' pat <~ m ;; k" := (bind m (fun x => match x with pat => k end))
  (at level 61, pat pattern, m at next level, right associativity).

(** *** Helpers (lines 203-220) *)

Definition content_type_map : list (string * string) :=
  [("mp3", "audio/mpeg"); ("mpeg", "audio/mpeg"); ("wav", "audio/wav");
   ("flac", "audio/flac"); ("ogg", "audio/ogg"); ("m4a", "audio/mp4");
   ("aac", "audio/aac"); ("wma", "audio/x-ms-wma")].

Definition _guess_content_type_from_ext (filename : string) : string :=
  let ext := lstrip_dots (lower (snd (splitext filename))) in
  match lookup ext content_type_map with
  | Some ct => ct
  | None => if String.eqb ext "" then "application/octet-stream"
            else "audio/" ++ ext
  end.

(** [[features[name] for name in feature_names]]; a missing name raises
    [KeyError]. *)
Fixpoint features_dict_to_array (features : list (string * Q))
    (feature_names : list string) : result (list Q) :=
  match feature_names with
  | [] => Ok []
  | name :: names =>
      match lookup name features with
      | None => Raise (OtherError ("'" ++ name ++ "'"))
      | Some v => rest <- features_dict_to_array features names ;; Ok (v :: rest)
      end
  end.

(** [a or b] on optional strings: the first truthy one, else the last. *)
Definition py_or (a b : option string) : option string :=
  match a with
  | Some s => if String.eqb s "" then b else a
  | None => b
  end.

Definition truthy (a : option string) : bool :=
  match a with
  | Some s => negb (String.eqb s "")
  | None => false
  end.

(** *** The persistence sink (lines 223-288) *)

Definition first_confidence (top_3 : option (list top_entry)) : result Q :=
  match top_3 with
  | None => Raise (OtherError "'NoneType' object is not subscriptable")
  | Some [] => Raise (OtherError "list index out of range")
  | Some (e :: _) => Ok (confidence e)
  end.

Definition name_for_storage (rt : Runtime) (prediction : label)
    (top_3 : option (list top_entry)) (file_ext : string) : result string :=
  c <- first_confidence top_3 ;;
  Ok (utcnow_stamp rt ++ "_" ++ str_label prediction ++ "_"
      ++ format_2f rt c ++ file_ext).

(** The log lines are kept without the emoji that open them, and the
    insert warning without the printed metadata. *)
Definition save_prediction_to_supabase (rt : Runtime) (g : Globals)
    (a : task_args) : Eff unit :=
  match supabase g with
  | None => ret tt
  | Some sb =>
      let bucket_name := SUPABASE_BUCKET rt in
      let timestamp := utcnow_iso rt in
      let file_ext := snd (splitext (arg_filename a)) in
      let content_type := _guess_content_type_from_ext (arg_filename a) in
      storage_filename <~
        (if truthy (arg_storage_filename a)
         then ret (match arg_storage_filename a with Some n => n | None => "" end)
         else lift (name_for_storage rt (arg_prediction a) (arg_top_3 a) file_ext)) ;;
      _ <~ try_except
             (upload_resp <~ call (StorageUpload storage_filename content_type)
                                  (storage_upload sb bucket_name storage_filename
                                                  (arg_audio_bytes a) content_type) ;;
              print ("Supabase storage upload response: " ++ upload_resp))
             (fun e => raise (RuntimeError ("Storage upload failed: " ++ str_exn e))) ;;
      let row := {| md_filename := storage_filename;
                    md_original_filename := arg_filename a;
                    md_prediction := arg_prediction a;
                    md_top_3_predictions := arg_top_3 a;
                    md_all_probabilities := arg_probabilities a;
                    md_timestamp := timestamp |} in
      try_except
        (db_resp <~ call (TableInsert "predictions" row)
                         (table_insert sb "predictions" row) ;;
         print ("Supabase DB insert response: " ++ db_resp))
        (fun e => print ("DB insert failed: " ++ str_exn e
                         ++ ". Ensure 'predictions' table exists and JSONB columns accept the payload."))
  end.

(** The done-callback of the background task, after the task itself. *)
Definition _log_bg_result (task : Eff unit) : Eff unit :=
  try_except
    (_ <~ task ;; print "Background Supabase save completed")
    (fun e => print ("Background Supabase save failed: " ++ str_exn e)).

(** What the event loop does with one scheduled save. *)
Definition background_task (rt : Runtime) (g : Globals) (a : task_args)
  : Eff unit :=
  _log_bg_result (save_prediction_to_supabase rt g a).

(** *** Start-up (lines 339-375) *)

(** What [load_artifacts] finds: the outcome of each [joblib.load],
    whether the feature-order file exists and what [json.load] reads in
    it, the environment, and the outcome of [create_client]. *)
Record Startup : Type := {
  MODEL_PATH : string;
  load_model : result Model;
  load_scaler : result Scaler;
  features_path_exists : bool;
  load_feature_names : result (list string);
  env_SAVE_UPLOADS : bool;
  SUPABASE_URL : option string;
  SUPABASE_KEY : option string;
  create_client : result Supabase
}.

Definition load_artifacts (st : Startup) : Eff Globals :=
  model <~ try_except (lift (load_model st))
             (fun e => raise (RuntimeError ("Failed to load model from "
                                            ++ MODEL_PATH st ++ ": " ++ str_exn e))) ;;
  scaler <~ try_except (sc <~ lift (load_scaler st) ;; ret (Some sc))
              (fun _ => ret None) ;;
  feature_names <~ (if features_path_exists st
                    then names <~ lift (load_feature_names st) ;; ret (Some names)
                    else ret None) ;;
  supabase <~
    (if env_SAVE_UPLOADS st then
       if (truthy (SUPABASE_URL st) && truthy (SUPABASE_KEY st))%bool then
         try_except
           (client <~ lift (create_client st) ;;
            _ <~ print "Supabase client initialized - audio uploads will be saved" ;;
            ret (Some client))
           (fun e =>
              _ <~ print ("Warning: Failed to initialize Supabase: " ++ str_exn e) ;;
              _ <~ print "   Audio uploads will not be saved" ;;
              ret None)
       else
         _ <~ print "Warning: SUPABASE_URL or SUPABASE_KEY not set" ;;
         _ <~ print "   Audio uploads will not be saved" ;;
         ret None
     else ret None) ;;
  ret {| model := model; scaler := scaler; feature_names := feature_names;
         supabase := supabase; SAVE_UPLOADS := env_SAVE_UPLOADS st |}.

(** *** Pieces the two endpoints share *)

(** [X.shape[1]] of the one-row matrix both endpoints build *)
Definition shape1 (X : matrix) : Z := len (hd [] X).

(** [expected_dim and X.shape[1] != expected_dim]: a missing attribute
    gives [None] and a zero is falsy, so neither is compared. *)
Definition dimension_differs (expected_dim : option Z) (X : matrix) : bool :=
  match expected_dim with
  | None => false
  | Some d => (negb (d =? 0)%Z && negb (shape1 X =? d)%Z)%bool
  end.

Definition expected_or_zero (expected_dim : option Z) : Z :=
  match expected_dim with Some d => d | None => 0%Z end.

Definition apply_scaler (g : Globals) (X : matrix) : Eff matrix :=
  match scaler g with
  | Some sc => call (ScalerTransform X) (transform sc X)
  | None => ret X
  end.

Definition call_predict_proba (m : Model) (X : matrix) : Eff matrix :=
  match predict_proba m with
  | None => raise (OtherError "object has no attribute 'predict_proba'")
  | Some f => call (ModelPredictProba X) (f X)
  end.

Definition first_item {A} (l : list A) : result A :=
  match l with
  | [] => Raise (OtherError "index 0 is out of bounds")
  | a :: _ => Ok a
  end.

Fixpoint top_3_entries (classes : list label) (proba : list Q)
    (indices : list nat) : result (list top_entry) :=
  match indices with
  | [] => Ok []
  | idx :: rest =>
      match nth_error classes idx with
      | None => Raise (OtherError "index out of bounds")
      | Some c =>
          let entry := {| species := str_label c;
                          confidence := at_index proba idx |} in
          more <- top_3_entries classes proba rest ;; Ok (entry :: more)
      end
  end.

(** The block under "Calculate top 3 predictions". *)
Definition top_3_of {numpy : NumPy} (m : Model) (proba : list Q)
  : result (option (list top_entry)) :=
  match classes_ m with
  | Some classes =>
      let top_3_indices := top_3_indices proba in
      t <- top_3_entries classes proba top_3_indices ;; Ok (Some t)
  | None => Ok None
  end.

(** [pred[0] if isinstance(pred[0], (str, int)) else str(pred[0])] *)
Definition prediction_value_of (p : label) : label :=
  match p with
  | LNumpy shown => LStr shown
  | other => other
  end.

(** *** Feature-vector prediction (lines 431-482) *)

Definition predict {numpy : NumPy} (g : Globals) (features : list Q)
  : Eff PredictionResponse :=
  let X := [features] in
  let expected_dim := n_features_in_ (model g) in
  if dimension_differs expected_dim X then
    raise (HTTPException 400
             ("Expected " ++ str_int (expected_or_zero expected_dim)
              ++ " features, got " ++ str_int (shape1 X)))
  else
    X <~ apply_scaler g X ;;
    try_except
      (pred <~ call (ModelPredict X) (model_predict (model g) X) ;;
       ' (proba_list, top_3) <~
         try_except
           (probas <~ call_predict_proba (model g) X ;;
            proba <~ lift (first_item probas) ;;
            top_3 <~ lift (top_3_of (model g) proba) ;;
            ret (Some proba, top_3))
           (fun _ => ret (None, None)) ;;
       pred0 <~ lift (first_item pred) ;;
       ret {| prediction := prediction_value_of pred0;
              top_3 := top_3;
              probabilities := proba_list;
              filename := None;
              signed_url := None;
              signed_url_expires_in := None |})
      (fun e => raise (HTTPException 500 ("Prediction failed: " ++ str_exn e))).

(** *** Audio prediction (lines 485-627) *)

Record UploadFile : Type := {
  upload_filename : string;
  upload_read : result bytes
}.

Definition allowed_extensions : list string :=
  [".wav"; ".mp3"; ".flac"; ".ogg"; ".m4a"; ".aac"; ".wma"].

(** Lines 604-607: [signedURL], [signed_url], [url] of a dict;
    [signed_url], [signedURL], [url] of an object. *)
Definition url_of (signed : signed_reply) : option string :=
  match signed with
  | SignedDict d =>
      py_or (py_or (signedURL d) (signed_url_key d)) (url_key d)
  | SignedObject o =>
      py_or (py_or (signed_url_key o) (signedURL o)) (url_key o)
  end.

(** The block under [if SAVE_UPLOADS and supabase]; it yields
    [signed_url]. *)
Definition schedule_save (rt : Runtime) (sb : Supabase) (a : task_args)
    (storage_filename : string) (signed_expires : Z) : Eff (option string) :=
  try_except
    (_ <~ call (CreateTask a) (Ok tt) ;;
     try_except
       (signed <~ call (CreateSignedUrl storage_filename)
                       (create_signed_url sb (SUPABASE_BUCKET rt)
                                          storage_filename signed_expires) ;;
        ret (url_of signed))
       (fun _ => ret None))
    (fun e =>
       _ <~ print ("Warning: Failed to schedule save to Supabase: " ++ str_exn e) ;;
       ret None).

Definition reraise_http {A} (prefix : string) (e : exn) : Eff A :=
  match e with
  | HTTPException _ _ => raise e
  | _ => raise (HTTPException 500 (prefix ++ str_exn e))
  end.

Definition predict_from_audio {numpy : NumPy} (rt : Runtime) (g : Globals)
    (file : UploadFile) : Eff PredictionResponse :=
  let file_ext := lower (snd (splitext (upload_filename file))) in
  if negb (mem file_ext allowed_extensions) then
    raise (HTTPException 400
             ("Unsupported audio format: " ++ file_ext
              ++ ". Supported formats: "
              ++ String.concat ", " (set_iteration rt allowed_extensions)))
  else
    try_except
      (audio_bytes <~ call FileRead (upload_read file) ;;
       ' (y, sr) <~
         try_except (call LibrosaLoad (librosa_load rt audio_bytes))
           (fun e => raise (HTTPException 400
                              ("Failed to load audio file: " ++ str_exn e))) ;;
       ' (y_normalized, sr_normalized) <~
         try_except
           (call NormalizeAudio (@normalize_audio (librosa rt) y sr true))
           (fun e => raise (HTTPException 500
                              ("Audio normalization failed: " ++ str_exn e))) ;;
       features_dict <~
         try_except
           (call ExtractFeatures (librosa_features rt y_normalized sr_normalized))
           (fun e => raise (HTTPException 500
                              ("Feature extraction failed: " ++ str_exn e))) ;;
       match feature_names g with
       | None => raise (HTTPException 500 "Feature names not loaded")
       | Some names =>
           X <~
             try_except
               (feature_array <~ lift (features_dict_to_array features_dict names) ;;
                ret [feature_array])
               (fun e => raise (HTTPException 500
                                  ("Feature ordering failed: " ++ str_exn e))) ;;
           let expected_dim := n_features_in_ (model g) in
           if dimension_differs expected_dim X then
             raise (HTTPException 500
                      ("Feature extraction produced " ++ str_int (shape1 X)
                       ++ " features, expected "
                       ++ str_int (expected_or_zero expected_dim)))
           else
             X <~ apply_scaler g X ;;
             try_except
               (pred <~ call (ModelPredict X) (model_predict (model g) X) ;;
                probas <~ call_predict_proba (model g) X ;;
                proba <~ lift (first_item probas) ;;
                top_3 <~ lift (top_3_of (model g) proba) ;;
                pred0 <~ lift (first_item pred) ;;
                let prediction_value := prediction_value_of pred0 in
                storage_filename <~
                  lift (name_for_storage rt prediction_value top_3 file_ext) ;;
                let signed_expires := 900%Z in
                let saving := match supabase g with
                              | Some sb => if SAVE_UPLOADS g then Some sb else None
                              | None => None
                              end in
                signed_url <~
                  match saving with
                  | Some sb =>
                      schedule_save rt sb
                        {| arg_audio_bytes := audio_bytes;
                           arg_filename := upload_filename file;
                           arg_prediction := prediction_value;
                           arg_top_3 := top_3;
                           arg_probabilities := Some proba;
                           arg_storage_filename := Some storage_filename |}
                        storage_filename signed_expires
                  | None => ret None
                  end ;;
                ret {| prediction := prediction_value;
                       top_3 := top_3;
                       probabilities := Some proba;
                       filename := match saving with
                                   | Some _ => Some storage_filename
                                   | None => None
                                   end;
                       signed_url := signed_url;
                       signed_url_expires_in :=
                         if truthy signed_url then Some signed_expires else None |})
               (fun e => raise (HTTPException 500
                                  ("Prediction failed: " ++ str_exn e)))
       end)
      (reraise_http "Unexpected error: ").

(** The saves the event loop runs for the tasks a handler scheduled. *)
Definition scheduled (t : list event) : list task_args :=
  flat_map (fun ev => match ev with CreateTask a => [a] | _ => [] end) t.

End Service.

(** ** Feature extraction (lines 174-200) *)

Module FeatureExtractor.
Import Audio Path.
Local Open Scope string_scope.

(** A Python dict in insertion order. *)
Definition dict := list (string * Q).

(** [d[k] = v]: a key that is there keeps its place and takes the new
    value, a new key goes to the end. *)
Fixpoint dict_set (k : string) (v : Q) (d : dict) : dict :=
  match d with
  | [] => [(k, v)]
  | (k', v') :: d' =>
      if String.eqb k k' then (k, v) :: d' else (k', v') :: dict_set k v d'
  end.

(** The [librosa.feature] routines, each returning a two-axis array (a
    list of rows) or raising, and NumPy's [std], a square root that the
    rationals do not have. *)
Record FeatureLibrary : Type := {
  spectral_centroid : buffer -> Z -> result (list buffer);
  spectral_bandwidth : buffer -> Z -> result (list buffer);
  spectral_rolloff : buffer -> Z -> result (list buffer);
  mfcc : buffer -> Z -> nat -> result (list buffer);
  zero_crossing_rate : buffer -> result (list buffer);
  feature_rms : buffer -> result (list buffer);
  std : buffer -> Q
}.

(** [a[i]] on the rows of an array *)
Definition row (a : list buffer) (i : nat) : result buffer :=
  match nth_error a i with
  | Some r => Ok r
  | None =>
      Raise (OtherError ("index " ++ str_nat i
                         ++ " is out of bounds for axis 0 with size "
                         ++ str_nat (List.length a)))
  end.

(** [for i in indices: features[f'mfcc{i+1}_<suffix>'] = stat(mfccs[i])] *)
Fixpoint assign_mfcc (suffix : string) (stat : buffer -> Q)
    (mfccs : list buffer) (indices : list nat) (features : dict) : result dict :=
  match indices with
  | [] => Ok features
  | i :: rest =>
      r <- row mfccs i ;;
      assign_mfcc suffix stat mfccs rest
        (dict_set ("mfcc" ++ str_nat (i + 1) ++ suffix) (stat r) features)
  end.

Definition extract_audio_features (lib : FeatureLibrary) (y : buffer) (sr : Z)
  : result dict :=
  let features := [] in
  centroid <- spectral_centroid lib y sr ;;
  c0 <- row centroid 0 ;;
  let features := dict_set "centroid_mean" (mean c0) features in
  bandwidth <- spectral_bandwidth lib y sr ;;
  b0 <- row bandwidth 0 ;;
  let features := dict_set "bandwidth_mean" (mean b0) features in
  rolloff <- spectral_rolloff lib y sr ;;
  r0 <- row rolloff 0 ;;
  let features := dict_set "rolloff_mean" (mean r0) features in
  mfccs <- mfcc lib y sr 13 ;;
  features <- assign_mfcc "_mean" mean mfccs (seq 0 13) features ;;
  features <- assign_mfcc "_std" (std lib) mfccs [0; 2; 3; 4; 6; 7; 11]%nat features ;;
  zcr <- zero_crossing_rate lib y ;;
  z0 <- row zcr 0 ;;
  let features := dict_set "zcr_mean" (mean z0) features in
  rms1 <- feature_rms lib y ;;
  m0 <- row rms1 0 ;;
  let features := dict_set "rms_mean" (mean m0) features in
  rms2 <- feature_rms lib y ;;
  s0 <- row rms2 0 ;;
  let features := dict_set "rms_std" (std lib s0) features in
  Ok features.

(** The order of the 26 features as the docstring of [PredictionRequest]
    gives it (lines 383-387). *)
Definition documented_feature_order : list string :=
  ["centroid_mean"; "bandwidth_mean"; "rolloff_mean";
   "mfcc1_mean"; "mfcc2_mean"; "mfcc3_mean"; "mfcc4_mean"; "mfcc5_mean";
   "mfcc6_mean"; "mfcc7_mean"; "mfcc8_mean"; "mfcc9_mean"; "mfcc10_mean";
   "mfcc11_mean"; "mfcc12_mean"; "mfcc13_mean";
   "mfcc1_std"; "mfcc3_std"; "mfcc4_std"; "mfcc5_std"; "mfcc7_std";
   "mfcc8_std"; "mfcc12_std";
   "zcr_mean"; "rms_mean"; "rms_std"].

End FeatureExtractor.

(** ** The two read endpoints of the store (lines 291-334) *)

Module Endpoints.
Import Path Service.
Local Open Scope string_scope.

(** The store calls of the two endpoints. *)
Record Store : Type := {
  storage_download : string -> string -> result bytes;
  storage_create_signed_url : string -> string -> Z -> result signed_reply
}.

Record Response : Type := { content : bytes; media_type : string }.

Record SignedUrl : Type := {
  su_filename : string;
  su_signed_url : option string;
  su_expires_in : Z
}.

(** [try: call  except Exception as e: raise HTTPException(status, prefix + str(e))] *)
Definition or_http {A} (status : Z) (prefix : string) (r : result A) : result A :=
  match r with
  | Ok a => Ok a
  | Raise e => Raise (HTTPException status (prefix ++ str_exn e))
  end.

(** [GET /audio/{filename}] *)
Definition stream_audio (rt : Runtime) (supabase : option Store)
    (filename : string) : result Response :=
  match supabase with
  | None => Raise (HTTPException 503 "Storage not configured")
  | Some sb =>
      let bucket_name := SUPABASE_BUCKET rt in
      data <- or_http 404 "File not found: "
                (storage_download sb bucket_name filename) ;;
      let content_type := _guess_content_type_from_ext filename in
      Ok {| content := data; media_type := content_type |}
  end.

Definition reply_url (signed : signed_reply) : option string :=
  match signed with
  | SignedDict d =>
      py_or (py_or (signedURL d) (signed_url_key d)) (url_key d)
  | SignedObject o =>
      py_or (py_or (signed_url_key o) (signedURL o)) (url_key o)
  end.

(** [GET /signed-url/{filename}]: everything under the [try], the
    [RuntimeError] for a missing URL included, ends in the 404. *)
Definition get_signed_url (rt : Runtime) (supabase : option Store)
    (filename : string) (expires_in : Z) : result SignedUrl :=
  match supabase with
  | None => Raise (HTTPException 503 "Storage not configured")
  | Some sb =>
      let bucket_name := SUPABASE_BUCKET rt in
      or_http 404 "Could not create signed URL: "
        (signed <- storage_create_signed_url sb bucket_name filename expires_in ;;
         let url := reply_url signed in
         if negb (truthy url) then Raise (RuntimeError "No signed URL returned")
         else Ok {| su_filename := filename;
                    su_signed_url := url;
                    su_expires_in := expires_in |})
  end.

End Endpoints.

(** ** Collaborators small enough to run *)

(** An implementation of the librosa interface, small enough to run: the
    trimmer judges everything silent (so the fallback of [trim_silence] is
    what keeps the signal), the resampler holds the nearest earlier
    sample, and the pre-emphasis filter is [y[n] = x[n] - coef * x[n-1]]
    with the first sample passed through. *)
(** Two sorts [np.argsort] may run: insertion sorts of the index array
    that differ in where they leave equal entries. *)
Module InsertionSort.
Import Audio TopK.
Local Open Scope Q_scope.

(** The inner loop: [before] is the sorted part of the index array read
    from its right end, and the index [vi] moves left past every index
    [k] for which [past v[vi] v[k]] holds. *)
Fixpoint sift (past : Q -> Q -> bool) (v : list Q) (vi : nat)
    (before : list nat) : list nat :=
  match before with
  | [] => [vi]
  | k :: rest =>
      if past (at_index v vi) (at_index v k)
      then k :: sift past v vi rest
      else vi :: k :: rest
  end.

(** The sorted index array, read from its right end. *)
Definition insertion_pass (past : Q -> Q -> bool) (v : list Q) : list nat :=
  fold_left (fun before vi => sift past v vi before) (seq 0 (List.length v)) [].

Definition sort (past : Q -> Q -> bool) (v : list Q) : list nat :=
  rev (insertion_pass past v).

(** An entry moves past the strictly greater ones: equal entries keep
    their index order, which is what [kind='stable'] promises. *)
Definition past_greater (a b : Q) : bool := negb (Qle_bool b a).

(** An entry moves past the greater and the equal ones: equal entries
    end in descending index order. *)
Definition past_greater_or_equal (a b : Q) : bool := Qle_bool a b.

(** [past] decides the order of two values. *)
Definition decides_order (past : Q -> Q -> bool) : Prop :=
  forall a b, if past a b then a <= b else b <= a.

Lemma past_greater_decides : decides_order past_greater.
Proof.
  intros a b. unfold past_greater. destruct (Qle_bool b a) eqn:E; cbn.
  - now apply Qle_bool_iff.
  - apply Qlt_le_weak, Qnot_le_lt. intro H. apply Qle_bool_iff in H. congruence.
Qed.

Lemma past_greater_or_equal_decides : decides_order past_greater_or_equal.
Proof.
  intros a b. unfold past_greater_or_equal. destruct (Qle_bool a b) eqn:E.
  - now apply Qle_bool_iff.
  - apply Qlt_le_weak, Qnot_le_lt. intro H. apply Qle_bool_iff in H. congruence.
Qed.

Lemma sift_In past v vi before x :
  In x (sift past v vi before) <-> x = vi \/ In x before.
Proof.
  induction before as [|k rest IH]; cbn [sift].
  - cbn. intuition.
  - destruct (past _ _); cbn [In]; [rewrite IH|]; intuition.
Qed.

Lemma sift_perm past v vi before :
  Permutation (sift past v vi before) (vi :: before).
Proof.
  induction before as [|k rest IH]; cbn [sift]; [reflexivity|].
  destruct (past _ _); [|reflexivity].
  rewrite IH. apply perm_swap.
Qed.

Lemma pass_perm past v n : forall a before,
  Permutation (fold_left (fun before vi => sift past v vi before) (seq a n) before)
              (seq a n ++ before).
Proof.
  induction n as [|n IH]; intros a before; cbn [seq fold_left app]; [reflexivity|].
  rewrite IH, sift_perm. symmetry. apply Permutation_middle.
Qed.

Lemma sort_perm past v : Permutation (sort past v) (seq 0 (List.length v)).
Proof.
  unfold sort, insertion_pass. rewrite <- Permutation_rev, pass_perm.
  now rewrite app_nil_r.
Qed.

(** Read from its right end, the sorted part descends. *)
Definition descends (v : list Q) (i j : nat) : Prop :=
  at_index v j <= at_index v i.

Lemma sift_descends past v vi before :
  decides_order past ->
  StronglySorted (descends v) before ->
  StronglySorted (descends v) (sift past v vi before).
Proof.
  intro Hpast.
  induction before as [|k rest IH]; intro Hs; cbn [sift].
  - repeat constructor.
  - inversion Hs as [|? ? Hrest Hk]; subst.
    pose proof (Hpast (at_index v vi) (at_index v k)) as Hd.
    destruct (past (at_index v vi) (at_index v k)).
    + constructor; [now apply IH|].
      apply Forall_forall. intros x Hx. apply sift_In in Hx as [->|Hx].
      * exact Hd.
      * rewrite Forall_forall in Hk. now apply Hk.
    + constructor; [assumption|].
      constructor; [exact Hd|].
      apply Forall_forall. intros x Hx.
      rewrite Forall_forall in Hk. specialize (Hk x Hx).
      unfold descends in *. eapply Qle_trans; eassumption.
Qed.

Lemma pass_descends past v n :
  decides_order past ->
  forall a before,
    StronglySorted (descends v) before ->
    StronglySorted (descends v)
      (fold_left (fun before vi => sift past v vi before) (seq a n) before).
Proof.
  intro Hpast.
  induction n as [|n IH]; intros a before Hs; cbn [seq fold_left].
  - assumption.
  - apply IH. now apply sift_descends.
Qed.

Lemma StronglySorted_snoc {A} (R : A -> A -> Prop) l x :
  StronglySorted R l -> Forall (fun z => R z x) l -> StronglySorted R (l ++ [x]).
Proof.
  induction 1 as [|h l Hl IH Hh]; intro Hx; cbn.
  - repeat constructor.
  - inversion Hx; subst. constructor; [now apply IH|].
    apply Forall_app. split; [assumption | now constructor].
Qed.

Lemma StronglySorted_rev {A} (R : A -> A -> Prop) l :
  StronglySorted R l -> StronglySorted (fun x z => R z x) (rev l).
Proof.
  induction 1 as [|h l Hl IH Hh]; cbn; [constructor|].
  apply StronglySorted_snoc; [assumption|].
  apply Forall_rev. exact Hh.
Qed.

Lemma sort_ascending past v :
  decides_order past ->
  StronglySorted (fun i j => at_index v i <= at_index v j) (sort past v).
Proof.
  intro Hpast. unfold sort.
  apply (StronglySorted_rev (descends v)).
  unfold insertion_pass. apply pass_descends; [assumption | constructor].
Qed.

(** The sort concrete runs are made with. *)
#[global] Instance stable : NumPy :=
  {| argsort := sort past_greater;
     argsort_perm := sort_perm past_greater;
     argsort_ascending := fun v => sort_ascending past_greater v past_greater_decides |}.

Definition ties_reversed : NumPy :=
  {| argsort := sort past_greater_or_equal;
     argsort_perm := sort_perm past_greater_or_equal;
     argsort_ascending :=
       fun v => sort_ascending past_greater_or_equal v past_greater_or_equal_decides |}.

(** Equal entries: in index order under the one, against it under the
    other. *)
Example argsort_ties :
  @argsort stable [2 # 5; 2 # 5; 1 # 10; 1 # 10] = [2; 3; 0; 1]%nat
  /\ @argsort ties_reversed [2 # 5; 2 # 5; 1 # 10; 1 # 10] = [3; 2; 1; 0]%nat.
Proof. split; reflexivity. Qed.

End InsertionSort.

Module HoldLibrosa.
Import Audio.
Local Open Scope Q_scope.

Definition trim (y : buffer) (top_db : Q) : buffer := slice y 0 0.

Definition resample (y : buffer) (orig_sr target_sr : Z) : buffer :=
  map (fun i => nth (Z.to_nat (Z.of_nat i * orig_sr / target_sr)) y 0)
      (seq 0 (Z.to_nat ((len y * target_sr + orig_sr - 1) / orig_sr))).

Fixpoint preemphasis_from (coef prev : Q) (x : buffer) : buffer :=
  match x with
  | [] => []
  | a :: x' => (a - coef * prev) :: preemphasis_from coef a x'
  end.

Definition preemphasis (x : buffer) (coef : Q) : buffer :=
  match x with
  | [] => []
  | a :: x' => a :: preemphasis_from coef a x'
  end.

Lemma trim_span y top_db : exists a b, trim y top_db = slice y a b.
Proof. now exists 0%Z, 0%Z. Qed.

Lemma resample_silent y orig_sr target_sr :
  silent y -> silent (resample y orig_sr target_sr).
Proof.
  intro H. apply Forall_map, Forall_forall. intros i _.
  destruct (nth_in_or_default (Z.to_nat (Z.of_nat i * orig_sr / target_sr)) y 0)
    as [Hin| ->]; [|reflexivity].
  unfold silent in H. rewrite Forall_forall in H. now apply H.
Qed.

Lemma preemphasis_from_silent coef x :
  forall prev, prev == 0 -> silent x -> silent (preemphasis_from coef prev x).
Proof.
  induction x as [|a x IH]; intros prev Hp H; [constructor|].
  inversion H as [|? ? Ha Hx]; subst. constructor.
  - rewrite Ha, Hp. ring.
  - now apply IH.
Qed.

Lemma preemphasis_silent x coef : silent x -> silent (preemphasis x coef).
Proof.
  destruct x as [|a x]; intro H; [constructor|].
  inversion H; subst. constructor; [assumption|].
  now apply preemphasis_from_silent.
Qed.

Lemma preemphasis_from_length coef x :
  forall prev, List.length (preemphasis_from coef prev x) = List.length x.
Proof. induction x as [|a x IH]; intro prev; simpl; [|rewrite IH]; reflexivity. Qed.

Lemma preemphasis_length x coef :
  List.length (preemphasis x coef) = List.length x.
Proof.
  destruct x as [|a x]; [reflexivity|]. simpl.
  now rewrite preemphasis_from_length.
Qed.

Definition instance : Librosa :=
  {| effects_trim := trim;
     Audio.resample := resample;
     effects_preemphasis := preemphasis;
     Audio.trim_span := trim_span;
     Audio.resample_silent := resample_silent;
     Audio.preemphasis_silent := preemphasis_silent;
     Audio.preemphasis_length := preemphasis_length |}.

Example preemphasis_run :
  preemphasis [1; 1; 2] (1 # 2) = [1; 1 - (1 # 2) * 1; 2 - (1 # 2) * 1].
Proof. reflexivity. Qed.

Example resample_run :
  resample [1; 2] 2 4 = [1; 1; 2; 2].
Proof. reflexivity. Qed.

End HoldLibrosa.

Module Scenario.
Import Audio Service.
Local Open Scope string_scope.

(** A classifier of 26 features and three classes that always answers
    the same probabilities, two of them equal. *)
Definition frog_model : Model :=
  {| n_features_in_ := Some 26%Z;
     classes_ := Some [LStr "bullfrog"; LStr "green_treefrog"; LStr "spring_peeper"];
     model_predict := fun _ => Ok [LStr "bullfrog"];
     predict_proba := Some (fun _ => Ok [[2 # 5; 2 # 5; 1 # 5]%Q]) |}.

(** The same classifier without [predict_proba]. *)
Definition plain_model : Model :=
  {| n_features_in_ := Some 26%Z;
     classes_ := classes_ frog_model;
     model_predict := model_predict frog_model;
     predict_proba := None |}.

(** A classifier that declares no input width. *)
Definition loose_model : Model :=
  {| n_features_in_ := None;
     classes_ := classes_ frog_model;
     model_predict := model_predict frog_model;
     predict_proba := predict_proba frog_model |}.

Definition globals_of (m : Model) : Globals :=
  {| model := m; scaler := None; feature_names := Some (repeat "f" 26);
     supabase := None; SAVE_UPLOADS := false |}.

Lemma rev_perm (l : list string) : Permutation (rev l) l.
Proof. apply Permutation_sym, Permutation_rev. Qed.

(** Decoding yields one second of silence at 4 Hz, and feature
    extraction the one feature "f", which [globals_of] asks for 26
    times. *)
Definition runtime : Runtime :=
  {| utcnow_stamp := "20250101_000000";
     utcnow_iso := "2025-01-01T00:00:00";
     SUPABASE_BUCKET := "frog-user-recordings";
     format_2f := fun _ => "0.40";
     set_iteration := @rev string;
     set_iteration_perm := rev_perm;
     librosa_load := fun _ => Ok (Arr1 [0%Q; 0%Q; 0%Q; 0%Q], 4%Z);
     librosa := HoldLibrosa.instance;
     librosa_features := fun _ _ => Ok [("f", 0%Q)] |}.

Definition upload (name : string) : UploadFile :=
  {| upload_filename := name; upload_read := Ok [] |}.

(** A start-up that finds the model and neither the scaler nor the
    feature-order file, with persistence switched off. *)
Definition bare_startup : Startup :=
  {| MODEL_PATH := "rf_calibrated_model.joblib";
     load_model := Ok frog_model;
     load_scaler := Raise (OtherError "No such file or directory: 'scaler.joblib'");
     features_path_exists := false;
     load_feature_names := Raise (OtherError "No such file or directory");
     env_SAVE_UPLOADS := false;
     SUPABASE_URL := None;
     SUPABASE_KEY := None;
     create_client := Raise (OtherError "supabase_url is required") |}.

Definition bare_globals : Globals :=
  {| model := frog_model; scaler := None; feature_names := None;
     supabase := None; SAVE_UPLOADS := false |}.

(** A store whose bucket is missing: every upload and every signed-URL
    request raises, while the record store accepts rows. *)
Definition broken_store : Supabase :=
  {| storage_upload := fun _ _ _ _ => Raise (OtherError "Bucket not found");
     table_insert := fun _ _ => Ok "inserted";
     create_signed_url := fun _ _ _ => Raise (OtherError "Object not found") |}.

(** A store that works, over a record store whose table is missing. *)
Definition store_without_table : Supabase :=
  {| storage_upload := fun _ _ _ _ => Ok "uploaded";
     table_insert := fun _ _ => Raise (OtherError "relation does not exist");
     create_signed_url := fun _ _ _ => Raise (OtherError "Object not found") |}.

Definition saving_globals (sb : Supabase) : Globals :=
  {| model := frog_model; scaler := None; feature_names := Some (repeat "f" 26);
     supabase := Some sb; SAVE_UPLOADS := true |}.

End Scenario.

(** ** More collaborators small enough to run *)

Module Fixtures.
Import Audio Path Service FeatureExtractor Endpoints.
Local Open Scope string_scope.

(** A feature library that answers every routine with 13 rows of one
    frame. *)
Definition flat_library : FeatureLibrary :=
  {| spectral_centroid := fun _ _ => Ok (repeat [1%Q] 13);
     spectral_bandwidth := fun _ _ => Ok (repeat [1%Q] 13);
     spectral_rolloff := fun _ _ => Ok (repeat [1%Q] 13);
     mfcc := fun _ _ n => Ok (repeat [1%Q] n);
     zero_crossing_rate := fun _ => Ok (repeat [1%Q] 13);
     feature_rms := fun _ => Ok (repeat [1%Q] 13);
     std := fun _ => 0%Q |}.

Definition flat_features : dict :=
  Eval vm_compute in
    match extract_audio_features flat_library [] 22050 with
    | Ok features => features
    | Raise _ => []
    end.

(** A scaler fitted on another width. *)
Definition narrow_scaler : Scaler :=
  {| transform := fun _ => Raise (ValueError "X has 3 features, but StandardScaler is expecting 26 features as input.") |}.

(** A store that signs with an object carrying both spellings, and one
    that answers with a dict of empty strings. *)
Definition signing_store : Store :=
  {| storage_download := fun _ _ => Ok [];
     storage_create_signed_url := fun _ name _ =>
       Ok (SignedObject {| signedURL := Some ("https://store/" ++ name ++ "?v=1");
                           signed_url_key := Some ("https://store/" ++ name ++ "?v=2");
                           url_key := None |}) |}.

Definition mute_store : Store :=
  {| storage_download := fun _ _ => Ok [];
     storage_create_signed_url := fun _ _ _ =>
       Ok (SignedDict {| signedURL := Some ""; signed_url_key := Some "";
                         url_key := None |}) |}.

(** A runtime whose decoder gives two samples at the target rate and
    whose features come from [extract_audio_features]. *)
Definition extracting_runtime : Runtime :=
  {| utcnow_stamp := utcnow_stamp Scenario.runtime;
     utcnow_iso := utcnow_iso Scenario.runtime;
     SUPABASE_BUCKET := SUPABASE_BUCKET Scenario.runtime;
     format_2f := format_2f Scenario.runtime;
     set_iteration := @rev string;
     set_iteration_perm := Scenario.rev_perm;
     librosa_load := fun _ => Ok (Arr1 [1; -1]%Q, 22050%Z);
     librosa := HoldLibrosa.instance;
     librosa_features := extract_audio_features flat_library |}.

Definition documented_globals : Globals :=
  {| model := Scenario.frog_model; scaler := None;
     feature_names := Some documented_feature_order;
     supabase := None; SAVE_UPLOADS := false |}.

(** A store that works and signs with an object carrying both
    spellings of the URL. *)
Definition object_signing_store : Supabase :=
  {| storage_upload := fun _ _ _ _ => Ok "uploaded";
     table_insert := fun _ _ => Ok "inserted";
     create_signed_url := fun _ name _ =>
       Ok (SignedObject {| signedURL := Some ("https://store/" ++ name ++ "?v=1");
                           signed_url_key := Some ("https://store/" ++ name ++ "?v=2");
                           url_key := None |}) |}.


End Fixtures.

(** * Properties *)

(** ** Peak normalization *)

Section PeakNormalize.
Import Audio.
Local Open Scope Q_scope.

Lemma Qltb_true x y : Qltb x y = true <-> x < y.
Proof.
  unfold Qltb. rewrite negb_true_iff. split; intro H.
  - apply Qnot_le_lt. intro Hle. apply Qle_bool_iff in Hle. congruence.
  - destruct (Qle_bool y x) eqn:E; [|reflexivity].
    apply Qle_bool_iff in E. exfalso. exact (Qlt_not_le _ _ H E).
Qed.

Lemma Qltb_false x y : Qltb x y = false <-> y <= x.
Proof.
  unfold Qltb. rewrite negb_false_iff. apply Qle_bool_iff.
Qed.

Lemma Qmaxb_l a b : a <= Qmaxb a b.
Proof.
  unfold Qmaxb. destruct (Qle_bool a b) eqn:E.
  - now apply Qle_bool_iff. 
  - apply Qle_refl.
Qed.

Lemma Qmaxb_r a b : b <= Qmaxb a b.
Proof.
  unfold Qmaxb. destruct (Qle_bool a b) eqn:E.
  - apply Qle_refl.
  - apply Qlt_le_weak, Qnot_le_lt. intro H. apply Qle_bool_iff in H. congruence.
Qed.

Lemma Qmaxb_lub a b c : a <= c -> b <= c -> Qmaxb a b <= c.
Proof. unfold Qmaxb. now destruct (Qle_bool a b). Qed.

Lemma fold_Qmaxb_init l : forall a, a <= fold_left Qmaxb l a.
Proof.
  induction l as [|x l IH]; intro a; simpl.
  - apply Qle_refl.
  - eapply Qle_trans; [apply Qmaxb_l | apply IH].
Qed.

Lemma fold_Qmaxb_In l : forall a x, In x l -> x <= fold_left Qmaxb l a.
Proof.
  induction l as [|z l IH]; intros a x [].
  - subst z. simpl. eapply Qle_trans; [apply Qmaxb_r | apply fold_Qmaxb_init].
  - simpl. now apply IH.
Qed.

Lemma fold_Qmaxb_lub l c :
  forall a, a <= c -> Forall (fun x => x <= c) l -> fold_left Qmaxb l a <= c.
Proof.
  induction l as [|z l IH]; intros a Ha Hl; simpl; [assumption|].
  inversion Hl; subst. apply IH; [now apply Qmaxb_lub | assumption].
Qed.

(** [max_abs] is an upper bound of the absolute values... *)
Lemma max_abs_In y x : In x y -> Qabs x <= max_abs y.
Proof.
  unfold max_abs. intro H. apply (in_map Qabs) in H.
  destruct (map Qabs y) as [|a l]; [contradiction|].
  destruct H as [<-|H]; [apply fold_Qmaxb_init | now apply fold_Qmaxb_In].
Qed.

(** ... and the least one above zero. *)
Lemma max_abs_lub y c :
  0 <= c -> Forall (fun x => Qabs x <= c) y -> max_abs y <= c.
Proof.
  unfold max_abs. intros Hc H.
  destruct y as [|a y]; simpl; [assumption|].
  inversion H; subst. apply fold_Qmaxb_lub; [assumption|].
  now apply Forall_map.
Qed.

Lemma max_abs_nonneg y : 0 <= max_abs y.
Proof.
  destruct y as [|a y]; [apply Qle_refl|].
  eapply Qle_trans; [apply (Qabs_nonneg a) | apply max_abs_In; now left].
Qed.

Lemma scaled_sample_bounded x m peak :
  0 < m -> Qabs x <= m -> 0 <= peak -> Qabs ((x / m) * peak) <= peak.
Proof.
  intros Hm Hx Hp.
  rewrite Qabs_Qmult, (Qabs_pos peak Hp).
  unfold Qdiv. rewrite Qabs_Qmult, Qabs_Qinv.
  rewrite (Qabs_pos m) by now apply Qlt_le_weak.
  setoid_replace peak with (1 * peak) at 2 by ring.
  apply Qmult_le_compat_r; [|assumption].
  apply Qle_shift_div_r; [assumption|]. now rewrite Qmult_1_l.
Qed.

(** C6. For every buffer and every non-negative peak level, the largest
    absolute amplitude of the peak-normalized buffer is at most the peak
    level; and a buffer whose largest absolute amplitude is zero is
    returned as it is, with no division taking place. *)
Theorem peak_normalize_bounded (y : buffer) (peak : Q) :
  0 <= peak ->
  max_abs (peak_normalize y peak) <= peak
  /\ Forall (fun x => Qabs x <= peak) (peak_normalize y peak)
  /\ (max_abs y == 0 -> peak_normalize y peak = y).
Proof.
  intro Hp. unfold peak_normalize.
  destruct (Qltb 0 (max_abs y)) eqn:E.
  - apply Qltb_true in E.
    assert (Hall : Forall (fun x => Qabs x <= peak)
                          (map (fun x => (x / max_abs y) * peak) y)).
    { apply Forall_map, Forall_forall. intros x Hx.
      apply scaled_sample_bounded; auto using max_abs_In. }
    split; [now apply max_abs_lub | split; [assumption|]].
    intro H0. rewrite H0 in E. discriminate.
  - apply Qltb_false in E.
    assert (Hall : Forall (fun x => Qabs x <= peak) y).
    { apply Forall_forall. intros x Hx.
      eapply Qle_trans; [apply max_abs_In, Hx|]. now apply Qle_trans with 0. }
    split; [now apply max_abs_lub | split; [assumption | reflexivity]].
Qed.

Lemma peak_normalize_bounded_witness :
  0 <= PEAK_LEVEL
  /\ max_abs (peak_normalize [1 # 2; -2; 1] PEAK_LEVEL) <= PEAK_LEVEL
  /\ peak_normalize [0; 0; 0] PEAK_LEVEL = [0; 0; 0].
Proof.
  split; [discriminate|].
  split.
  - apply (peak_normalize_bounded [1 # 2; -2; 1] PEAK_LEVEL). discriminate.
  - apply (peak_normalize_bounded [0; 0; 0] PEAK_LEVEL); [discriminate | reflexivity].
Defined.

End PeakNormalize.

(** ** Window selection *)

Section WindowSelector.
Import Audio.
Local Open Scope Q_scope.

Lemma len_nonneg {A} (l : list A) : (0 <= len l)%Z.
Proof. unfold len. lia. Qed.

(** A slice with both ends inside the array. *)
Lemma slice_inside {A} (y : list A) (a b : Z) :
  (0 <= a <= b)%Z -> (b <= len y)%Z ->
  slice y a b = firstn (Z.to_nat (b - a)) (skipn (Z.to_nat a) y).
Proof.
  intros Ha Hb. unfold slice, clip_index.
  destruct (Z.ltb_spec a 0); [lia|]. destruct (Z.ltb_spec b 0); [lia|].
  rewrite !Z.min_l by lia. reflexivity.
Qed.

Lemma len_slice_inside {A} (y : list A) (a b : Z) :
  (0 <= a <= b)%Z -> (b <= len y)%Z -> len (slice y a b) = (b - a)%Z.
Proof.
  intros Ha Hb. rewrite slice_inside by assumption.
  unfold len in *. rewrite length_firstn, length_skipn. lia.
Qed.





Lemma window_samples_whole td sr n :
  td * inject_Z sr == inject_Z n -> window_samples_of td sr = n.
Proof.
  unfold window_samples_of, int_of_float. intro H.
  unfold Qeq in H. cbn [Qnum Qden inject_Z] in H.
  rewrite Z.mul_1_r in H. rewrite H. apply Z.quot_mul. discriminate.
Qed.

(** With the default duration of 10 seconds the window has [10 * sr]
    samples. *)
Lemma window_samples_default sr :
  window_samples_of TARGET_DURATION sr = (10 * sr)%Z.
Proof.
  apply window_samples_whole. unfold TARGET_DURATION, Qeq. cbn. lia.
Qed.













Example window_short :
  find_best_10s_window [1; 2; 3] 2 (3 # 2) = Ok [1; 2; 3].
Proof. reflexivity. Qed.

(** Six samples at 2 Hz with a one-second window: the starts scanned are
    0, 2 and 4; the windows at 2 and at 4 have the same energy, and the
    one at 2 is kept. *)
Example window_tie :
  find_best_10s_window [0; 1; 3; 0; 0; -3] 2 1 = Ok [3; 0].
Proof. reflexivity. Qed.

Example window_zero_rate :
  find_best_10s_window [1; 2] 0 1
  = Raise (ValueError "range() arg 3 must not be zero").
Proof. reflexivity. Qed.

Example peak_run :
  peak_normalize [1 # 2; -2; 1] PEAK_LEVEL
  = [((1 # 2) / 2) * PEAK_LEVEL; (-2 / 2) * PEAK_LEVEL; (1 / 2) * PEAK_LEVEL].
Proof. reflexivity. Qed.

Example mono_channels_last :
  to_mono (Arr2 [[1; 3]; [2; 4]; [0; 0]]) = [mean [1; 3]; mean [2; 4]; mean [0; 0]].
Proof. reflexivity. Qed.

End WindowSelector.

(** ** The normalizer on a silent recording *)

Section SilentRecording.
Import Audio.
Local Open Scope Q_scope.

Lemma silent_split n y : silent y -> silent (firstn n y) /\ silent (skipn n y).
Proof.
  unfold silent. intro H. apply Forall_app. now rewrite firstn_skipn.
Qed.

Lemma silent_firstn n y : silent y -> silent (firstn n y).
Proof. intro H. now apply silent_split. Qed.

Lemma silent_skipn n y : silent y -> silent (skipn n y).
Proof. intro H. now apply silent_split. Qed.

Lemma silent_slice y a b : silent y -> silent (slice y a b).
Proof. intro H. unfold slice. now apply silent_firstn, silent_skipn. Qed.

Lemma silent_repeat n : silent (repeat 0 n).
Proof.
  apply Forall_forall. intros x Hx. apply repeat_spec in Hx. now subst.
Qed.

Lemma len_slice_le {A} (y : list A) a b : (len (slice y a b) <= len y)%Z.
Proof.
  unfold slice, len. rewrite length_firstn, length_skipn. lia.
Qed.

Lemma max_abs_silent y : silent y -> max_abs y == 0.
Proof.
  intro H. apply Qle_antisym; [|apply max_abs_nonneg].
  apply max_abs_lub; [apply Qle_refl|].
  eapply Forall_impl; [|exact H].
  intros x Hx. cbv beta in Hx. rewrite Hx. apply Qle_refl.
Qed.

Lemma peak_normalize_silent y peak : silent y -> peak_normalize y peak = y.
Proof.
  intro H. unfold peak_normalize.
  destruct (Qltb 0 (max_abs y)) eqn:E; [|reflexivity].
  apply Qltb_true in E. rewrite (max_abs_silent y H) in E. discriminate.
Qed.

(** Duration standardization always lands on the target length. *)
Lemma standardize_duration_len y sr td :
  (0 <= window_samples_of td sr)%Z ->
  len (standardize_duration y sr td) = window_samples_of td sr.
Proof.
  intro H. unfold standardize_duration.
  destruct (Z.ltb_spec (window_samples_of td sr) (len y)).
  - rewrite len_slice_inside; lia.
  - destruct (Z.ltb_spec (len y) (window_samples_of td sr)); [|lia].
    unfold len in *. rewrite length_app, repeat_length. lia.
Qed.

Lemma standardize_duration_silent y sr td :
  silent y -> silent (standardize_duration y sr td).
Proof.
  intro H. unfold standardize_duration.
  destruct (_ <? _)%Z; [now apply silent_slice|].
  destruct (_ <? _)%Z; [|assumption].
  apply Forall_app. split; [assumption | apply silent_repeat].
Qed.

Context {librosa : Librosa}.

Lemma trim_silence_silent y top_db : silent y -> silent (trim_silence y top_db).
Proof.
  intro H. unfold trim_silence.
  destruct (_ <? _)%Z; [|assumption].
  destruct (trim_span y top_db) as (a & b & ->). now apply silent_slice.
Qed.

Lemma trim_silence_len y top_db : (len (trim_silence y top_db) <= len y)%Z.
Proof.
  unfold trim_silence. destruct (_ <? _)%Z; [|lia].
  destruct (trim_span y top_db) as (a & b & ->). apply len_slice_le.
Qed.

(** C5. A silent mono buffer of 3 seconds at 16 kHz (48000 samples)
    goes through the whole normalizer without an error and comes out
    as a silent buffer of exactly 10 * 22050 samples with sample rate
    22050. *)
Theorem normalize_audio_silent_3s (y : buffer) :
  len y = (3 * 16000)%Z -> silent y ->
  exists out : buffer,
    normalize_audio (Arr1 y) 16000 true = Ok (out, 22050%Z)
    /\ len out = (10 * 22050)%Z
    /\ silent out.
Proof.
  intros Hlen Hs. unfold normalize_audio. cbn [to_mono].
  pose proof (trim_silence_len y 30) as Htl.
  pose proof (trim_silence_silent y 30 Hs) as Hts.
  set (yt := trim_silence y 30) in *.
  unfold find_best_10s_window.
  replace (window_samples_of TARGET_DURATION 16000) with 160000%Z by reflexivity.
  destruct (Z.leb_spec (len yt) 160000); [|lia].
  cbn [Py.bind]. 
  replace (negb (16000 =? TARGET_SR)%Z) with true by reflexivity.
  pose proof (resample_silent yt 16000 TARGET_SR Hts) as Hrs.
  set (yr := resample yt 16000 TARGET_SR) in *.
  pose proof (standardize_duration_silent yr TARGET_SR TARGET_DURATION Hrs) as Hds.
  pose proof (standardize_duration_len yr TARGET_SR TARGET_DURATION) as Hdl.
  set (yd := standardize_duration yr TARGET_SR TARGET_DURATION) in *.
  pose proof (preemphasis_silent yd PRE_EMPHASIS_COEF Hds) as Hps.
  pose proof (preemphasis_length yd PRE_EMPHASIS_COEF) as Hpl.
  set (yp := effects_preemphasis yd PRE_EMPHASIS_COEF) in *.
  exists yp. rewrite (peak_normalize_silent yp PEAK_LEVEL Hps).
  split; [reflexivity|]. split; [|assumption].
  unfold len in *. rewrite Hpl, Hdl; [reflexivity | discriminate].
Qed.

End SilentRecording.

Lemma normalize_audio_silent_3s_witness :
  exists out : Audio.buffer,
    @Audio.normalize_audio HoldLibrosa.instance
        (Audio.Arr1 (repeat 0%Q (Z.to_nat 48000))) 16000 true
    = Ok (out, 22050%Z)
    /\ len out = (10 * 22050)%Z
    /\ Audio.silent out.
Proof.
  apply (@normalize_audio_silent_3s HoldLibrosa.instance
           (repeat 0%Q (Z.to_nat 48000))).
  - unfold len. rewrite repeat_length. lia.
  - apply silent_repeat.
Defined.

(** ** Input validation of the two endpoints *)

Section Validation.
Import Audio Path Service.
Local Open Scope string_scope.

Example str_int_26 : str_int 26 = "26".
Proof. reflexivity. Qed.

Example str_int_neg : str_int (-105) = "-105".
Proof. reflexivity. Qed.

Example splitext_plain : splitext "frog.WAV" = ("frog", ".WAV").
Proof. reflexivity. Qed.

Example splitext_hidden : splitext "/tmp/.bashrc" = ("/tmp/.bashrc", "").
Proof. reflexivity. Qed.

Example splitext_dir_dot : splitext "a.b/c" = ("a.b/c", "").
Proof. reflexivity. Qed.

Example splitext_two_dots : splitext "rec.2024.Mp3" = ("rec.2024", ".Mp3").
Proof. reflexivity. Qed.

Lemma append_assoc (a b c : string) : (a ++ b) ++ c = a ++ (b ++ c).
Proof. induction a as [|x a IH]; cbn; [|rewrite IH]; reflexivity. Qed.

Lemma append_empty_r (a : string) : a ++ "" = a.
Proof. induction a as [|x a IH]; cbn; [|rewrite IH]; reflexivity. Qed.

Lemma substring_whole s : substring 0 (String.length s) s = s.
Proof. induction s as [|c s IH]; cbn; [|rewrite IH]; reflexivity. Qed.

Lemma take_drop n : forall s, take n s ++ drop n s = s.
Proof.
  unfold take, drop. induction n as [|n IH]; intros [|c s]; try reflexivity.
  - cbn [substring String.length Nat.sub append]. now rewrite substring_whole.
  - cbn [substring String.length Nat.sub append]. now rewrite IH.
Qed.

(** As the Python documentation has it: [root + ext == path]. *)
Lemma splitext_join p : fst (splitext p) ++ snd (splitext p) = p.
Proof.
  unfold splitext. destruct (_ && _)%bool; cbn [fst snd].
  - apply take_drop.
  - now rewrite append_empty_r.
Qed.

Example content_type_m4a : _guess_content_type_from_ext "call.M4A" = "audio/mp4".
Proof. reflexivity. Qed.

Example content_type_none : _guess_content_type_from_ext "call" = "application/octet-stream".
Proof. reflexivity. Qed.

Lemma bind_ret {A B} (a : A) (k : A -> Eff B) : (x <~ ret a ;; k x) = k a.
Proof. unfold ret. cbn. now destruct (k a). Qed.

Lemma bind_call_ok {A B} ev (a : A) (k : A -> Eff B) :
  (x <~ call ev (Ok a) ;; k x) = (ev :: trace (k a), outcome (k a)).
Proof. unfold call. cbn. now destruct (k a). Qed.

Lemma bind_call_raise {A B} ev e (k : A -> Eff B) :
  (x <~ call ev (Raise e) ;; k x) = ([ev], Raise e).
Proof. reflexivity. Qed.

Lemma bind_lift_ok {A B} (a : A) (k : A -> Eff B) : (x <~ lift (Ok a) ;; k x) = k a.
Proof. apply bind_ret. Qed.

Lemma bind_lift_raise {A B} e (k : A -> Eff B) :
  (x <~ lift (Raise e) ;; k x) = ([], Raise e).
Proof. reflexivity. Qed.

(** A [try] block that opens with a call and turns every exception
    into a 500: the call is the first event, and a raised
    [HTTPException] carries 500. *)
Lemma prediction_block_shape {A B} (ev : event) (r : result A)
    (k : A -> Eff B) (f : exn -> string) :
  exists rest out,
    try_except (x <~ call ev r ;; k x)
               (fun e => raise (HTTPException 500 (f e)))
    = (ev :: rest, out)
    /\ forall c detail, out = Raise (HTTPException c detail) -> c = 500%Z.
Proof.
  unfold call. cbn [bind]. destruct r as [a|e].
  - destruct (k a) as [t [b|e]]; cbn.
    + eexists _, _. split; [reflexivity|]. discriminate.
    + eexists _, _. split; [reflexivity|].
      intros c dt H. now inversion H.
  - cbn. eexists _, _. split; [reflexivity|].
    intros c dt H. now inversion H.
Qed.

Ltac open_prediction_block rest out Hshape Hcode :=
  match goal with
  | |- context [try_except (bind (call ?ev ?r) ?k)
                           (fun e => raise (HTTPException 500 (@?f e)))] =>
      destruct (prediction_block_shape ev r k f) as (rest & out & Hshape & Hcode)
  end.

(** C7. When the model declares an input width [d] (a non-zero
    [n_features_in_]) and the feature list has another length, the
    request ends in [HTTPException 400] whose detail gives [d] and the
    length received, and no call was made: neither the scaler nor the
    model was invoked. *)
Theorem predict_rejects_wrong_length {numpy : TopK.NumPy}
    (g : Globals) (features : list Q) (d : Z) :
  n_features_in_ (model g) = Some d ->
  d <> 0%Z ->
  len features <> d ->
  predict g features
  = ([], Raise (HTTPException 400
                  ("Expected " ++ str_int d ++ " features, got "
                   ++ str_int (len features)))).
Proof.
  intros Hd Hnz Hlen. unfold predict. rewrite Hd.
  unfold dimension_differs, shape1. cbn [hd].
  destruct (Z.eqb_spec d 0); [contradiction|].
  destruct (Z.eqb_spec (len features) d); [contradiction|].
  reflexivity.
Qed.

(** Scenario A: 10 floats against an expected 26. *)
Lemma predict_rejects_wrong_length_witness :
  predict (Scenario.globals_of Scenario.frog_model) (repeat 0%Q 10)
  = ([], Raise (HTTPException 400 "Expected 26 features, got 10")).
Proof.
  apply (predict_rejects_wrong_length
           (Scenario.globals_of Scenario.frog_model) (repeat 0%Q 10) 26).
  - reflexivity.
  - discriminate.
  - discriminate.
Defined.

(** C10. When the model declares no input width (no [n_features_in_],
    or a zero), no length is checked: whatever the feature list, the
    first call made is the scaler's [transform] on it when a scaler is
    configured, followed by [model.predict] on the scaled matrix, and
    otherwise [model.predict] on the list itself.  An [HTTPException]
    can then only be the 500 of a failed prediction, unless the scaler
    raised one. *)
Theorem predict_no_validation {numpy : TopK.NumPy}
    (g : Globals) (features : list Q) :
  n_features_in_ (model g) = None \/ n_features_in_ (model g) = Some 0%Z ->
  match scaler g with
  | None =>
      exists rest, trace (predict g features) = ModelPredict [features] :: rest
  | Some sc =>
      exists rest,
        trace (predict g features) = ScalerTransform [features] :: rest
        /\ (forall X, transform sc [features] = Ok X ->
              exists rest', rest = ModelPredict X :: rest')
  end
  /\ (forall c detail,
        outcome (predict g features) = Raise (HTTPException c detail) ->
        c = 500%Z
        \/ exists sc, scaler g = Some sc
                      /\ transform sc [features] = Raise (HTTPException c detail)).
Proof.
  intro Hdim. unfold predict.
  assert (Hno : dimension_differs (n_features_in_ (model g)) [features] = false)
    by (destruct Hdim as [-> | ->]; reflexivity).
  rewrite Hno. clear Hno Hdim. unfold apply_scaler.
  destruct (scaler g) as [sc|].
  - destruct (transform sc [features]) as [X|e] eqn:Etr.
    + rewrite bind_call_ok.
      open_prediction_block rest' r Hbody Hr.
      rewrite Hbody. cbn [trace outcome fst snd app]. split.
      * eexists. split; [reflexivity|].
        intros X' HX'. injection HX' as <-. eexists. reflexivity.
      * intros c dt H. left. eapply Hr. exact H.
    + rewrite bind_call_raise. cbn [trace outcome fst snd]. split.
      * eexists. split; [reflexivity|]. intros X' HX'. discriminate.
      * intros c dt H. injection H as ->. right.
        exists sc. split; [reflexivity | exact Etr].
  - rewrite bind_ret.
    open_prediction_block rest' r Hbody Hr.
    rewrite Hbody. cbn [trace outcome fst snd app]. split.
    + eexists. reflexivity.
    + intros c dt H. left. eapply Hr. exact H.
Qed.

Lemma predict_no_validation_witness :
  exists rest,
    trace (predict (Scenario.globals_of Scenario.loose_model) (repeat 0%Q 3))
    = ModelPredict [repeat 0%Q 3] :: rest.
Proof.
  destruct (predict_no_validation
              (Scenario.globals_of Scenario.loose_model) (repeat 0%Q 3))
    as [H _]; [left; reflexivity|].
  exact H.
Defined.

(** Three features against a model that declares no width: accepted. *)
Example predict_loose_run :
  predict (Scenario.globals_of Scenario.loose_model) [0%Q; 0%Q; 0%Q]
  = ([ModelPredict [[0%Q; 0%Q; 0%Q]]; ModelPredictProba [[0%Q; 0%Q; 0%Q]]],
     Ok {| prediction := LStr "bullfrog";
           top_3 := Some [ {| species := "green_treefrog"; confidence := (2 # 5)%Q |};
                           {| species := "bullfrog"; confidence := (2 # 5)%Q |};
                           {| species := "spring_peeper"; confidence := (1 # 5)%Q |} ];
           probabilities := Some [2 # 5; 2 # 5; 1 # 5]%Q;
           filename := None; signed_url := None;
           signed_url_expires_in := None |}).
Proof. reflexivity. Qed.

(** [needle] occurs in [hay]. *)
Definition occurs_in (needle hay : string) : Prop :=
  exists before after, hay = before ++ needle ++ after.

Lemma occurs_in_prefixed needle hay before :
  occurs_in needle hay -> occurs_in needle (before ++ hay).
Proof.
  intros (b & a & ->). exists (before ++ b), a. now rewrite append_assoc.
Qed.

Lemma occurs_in_concat sep (l : list string) e :
  In e l -> occurs_in e (String.concat sep l).
Proof.
  induction l as [|x l IH]; intros []; subst.
  - destruct l as [|z l]; cbn [String.concat].
    + exists "", "". cbn. now rewrite append_empty_r.
    + exists "", (sep ++ String.concat sep (z :: l)). reflexivity.
  - destruct l as [|z l]; [contradiction|].
    cbn [String.concat]. apply occurs_in_prefixed, occurs_in_prefixed.
    now apply IH.
Qed.

Lemma mem_In x l : mem x l = true <-> In x l.
Proof.
  unfold mem. rewrite existsb_exists. split.
  - intros (z & Hz & E). apply String.eqb_eq in E. now subst.
  - intro H. exists x. split; [assumption | apply String.eqb_refl].
Qed.

(** C8. When the lower-cased extension of the uploaded file's name is
    not one of the seven allowed, the audio endpoint ends in
    [HTTPException 400]; the detail names every allowed extension, and no
    call was made: the upload was not read and nothing was decoded. *)
Theorem predict_from_audio_rejects_extension {numpy : TopK.NumPy}
    (rt : Runtime) (g : Globals) (file : UploadFile) :
  ~ In (lower (snd (splitext (upload_filename file)))) allowed_extensions ->
  exists detail,
    predict_from_audio rt g file = ([], Raise (HTTPException 400 detail))
    /\ occurs_in (lower (snd (splitext (upload_filename file)))) detail
    /\ forall e, In e allowed_extensions -> occurs_in e detail.
Proof.
  intro Hext. unfold predict_from_audio.
  destruct (mem _ allowed_extensions) eqn:E.
  - apply mem_In in E. contradiction.
  - cbn [negb]. eexists. split; [reflexivity|]. split.
    + apply occurs_in_prefixed. eexists "", _. reflexivity.
    + intros e He. do 3 apply occurs_in_prefixed.
      apply occurs_in_concat.
      eapply Permutation_in; [apply Permutation_sym, set_iteration_perm | exact He].
Qed.

(** Scenario D: an upload named with the extension [.bmp]. *)
Lemma predict_from_audio_rejects_extension_witness :
  exists detail,
    predict_from_audio Scenario.runtime (Scenario.globals_of Scenario.frog_model)
                       (Scenario.upload "pond.bmp")
    = ([], Raise (HTTPException 400 detail))
    /\ occurs_in ".bmp" detail
    /\ forall e, In e allowed_extensions -> occurs_in e detail.
Proof.
  apply (predict_from_audio_rejects_extension
           Scenario.runtime (Scenario.globals_of Scenario.frog_model)
           (Scenario.upload "pond.bmp")).
  vm_compute. intuition discriminate.
Defined.

Example bmp_detail :
  predict_from_audio Scenario.runtime (Scenario.globals_of Scenario.frog_model)
                     (Scenario.upload "pond.bmp")
  = ([], Raise (HTTPException 400
       "Unsupported audio format: .bmp. Supported formats: .wma, .aac, .m4a, .ogg, .flac, .mp3, .wav")).
Proof. reflexivity. Qed.

End Validation.

(** ** Order of the top-3 list *)

Section TopThree.
Import Audio TopK InsertionSort Service.
Local Open Scope Q_scope.

Context {numpy : NumPy}.
Variable v : list Q.

Lemma StronglySorted_firstn {A} (R : A -> A -> Prop) n : forall l,
  StronglySorted R l -> StronglySorted R (firstn n l).
Proof.
  induction n as [|n IH]; intros l Hs; [constructor|].
  destruct Hs as [|x l Hl Hx]; cbn [firstn]; constructor.
  - now apply IH.
  - rewrite <- (firstn_skipn n l) in Hx. now apply Forall_app in Hx.
Qed.

Lemma StronglySorted_nth {A} (R : A -> A -> Prop) l :
  StronglySorted R l ->
  forall a b x z, (a < b)%nat ->
    nth_error l a = Some x -> nth_error l b = Some z -> R x z.
Proof.
  induction 1 as [|h l Hl IH Hh]; intros a b x z Hab Ha Hb.
  - destruct a; discriminate.
  - destruct b as [|b]; [lia|]. cbn in Hb.
    destruct a as [|a]; cbn in Ha.
    + injection Ha as <-. rewrite Forall_forall in Hh.
      apply Hh. eapply nth_error_In. eassumption.
    + apply (IH a b); [lia | assumption | assumption].
Qed.

Lemma StronglySorted_map {A B} (R : B -> B -> Prop) (f : A -> B) l :
  StronglySorted (fun x z => R (f x) (f z)) l -> StronglySorted R (map f l).
Proof.
  induction 1 as [|h l Hl IH Hh]; cbn; constructor; [assumption|].
  now apply Forall_map.
Qed.

Lemma StronglySorted_weaken {A} (R R' : A -> A -> Prop) l :
  (forall x z, R x z -> R' x z) -> StronglySorted R l -> StronglySorted R' l.
Proof.
  intros HR. induction 1 as [|h l Hl IH Hh]; constructor; [assumption|].
  eapply Forall_impl; [|exact Hh]. intros z. apply HR.
Qed.

(** Whatever sort [np.argsort] runs - any index order that is ascending
    in the values - the reversed order, cut to three, is non-increasing. *)
Lemma top_3_of_any_argsort (order : list nat) :
  StronglySorted (fun i j => at_index v i <= at_index v j) order ->
  StronglySorted (fun i j => at_index v j <= at_index v i) (firstn 3 (rev order)).
Proof.
  intro H. apply StronglySorted_firstn.
  exact (StronglySorted_rev _ _ H).
Qed.

Lemma top_3_indices_sorted :
  StronglySorted (fun i j => at_index v j <= at_index v i) (top_3_indices v).
Proof. apply top_3_of_any_argsort, argsort_ascending. Qed.

Lemma top_3_entries_confidence classes indices : forall entries,
  top_3_entries classes v indices = Ok entries ->
  map confidence entries = map (at_index v) indices.
Proof.
  induction indices as [|idx rest IH]; intros entries H; cbn in H.
  - injection H as <-. reflexivity.
  - destruct (nth_error classes idx); [|discriminate].
    destruct (top_3_entries classes v rest) as [more|]; [|discriminate].
    cbn in H. injection H as <-. cbn. now rewrite (IH more).
Qed.

End TopThree.

Section TopThreeClaim.
Import Audio TopK InsertionSort Service.
Local Open Scope Q_scope.

(** The tie rule as the specification words it: of two listed classes
    with equal probability, the lower index stands first. *)
Definition lower_index_first {numpy : NumPy} (proba : list Q) : Prop :=
  forall a b i j, (a < b)%nat ->
    nth_error (top_3_indices proba) a = Some i ->
    nth_error (top_3_indices proba) b = Some j ->
    at_index proba i == at_index proba j -> (i < j)%nat.

(** The same probabilities under the two sorts: the two equal classes
    come out in either order. *)
Example top_3_indices_tie :
  @top_3_indices stable [2 # 5; 2 # 5; 1 # 5] = [1; 0; 2]%nat
  /\ @top_3_indices ties_reversed [2 # 5; 2 # 5; 1 # 5] = [0; 1; 2]%nat.
Proof. split; reflexivity. Qed.

Example top_3_indices_four :
  @top_3_indices stable [2 # 5; 2 # 5; 1 # 10; 1 # 10] = [1; 0; 3]%nat
  /\ @top_3_indices ties_reversed [2 # 5; 2 # 5; 1 # 10; 1 # 10] = [0; 1; 2]%nat.
Proof. split; reflexivity. Qed.

Example top_3_indices_five :
  @top_3_indices stable [1 # 10; 3 # 10; 1 # 10; 3 # 10; 2 # 10] = [3; 1; 4]%nat.
Proof. reflexivity. Qed.

(** C1, as stated, fails: nothing in the code puts the lower index
    first.  With a sort that keeps equal entries in index order, which
    [np.argsort] may run, the probabilities 0.4, 0.4 and 0.2 give a list
    that opens with class 1 and then class 0. *)
Lemma lower_index_first_counterexample :
  ~ (forall (numpy : NumPy) (proba : list Q), lower_index_first proba).
Proof.
  intro H.
  specialize (H stable [2 # 5; 2 # 5; 1 # 5] 0%nat 1%nat 1%nat 0%nat
                (Nat.lt_0_succ 0) eq_refl eq_refl (Qeq_refl _)).
  lia.
Qed.

(** C1, amended. Whatever ascending order [np.argsort] returns, the
    top-3 list of a response is in non-increasing order of confidence,
    entry by entry the probabilities at [np.argsort(proba)[::-1][:3]].
    The order of two listed classes with exactly equal probability is
    the one [np.argsort] left them in: the code adds no rule of its
    own. *)
Theorem top_3_order {numpy : NumPy}
    (m : Model) (proba : list Q) (entries : list top_entry) :
  top_3_of m proba = Ok (Some entries) ->
  StronglySorted (fun c c' => c' <= c) (map confidence entries)
  /\ map confidence entries = map (at_index proba) (top_3_indices proba)
  /\ top_3_indices proba = firstn 3 (rev (argsort proba)).
Proof.
  intro H. unfold top_3_of in H.
  destruct (classes_ m) as [classes|]; [|discriminate].
  destruct (top_3_entries classes proba (top_3_indices proba)) as [t|] eqn:E;
    [|discriminate].
  cbn in H. injection H as <-.
  rewrite (top_3_entries_confidence proba classes _ t E).
  split; [|split; reflexivity].
  apply StronglySorted_map. apply top_3_indices_sorted.
Qed.

Lemma top_3_order_witness :
  StronglySorted (fun c c' => c' <= c) [2 # 5; 2 # 5; 1 # 5]
  /\ StronglySorted (fun c c' => c' <= c)
       (map confidence
          [ {| species := "bullfrog"; confidence := 2 # 5 |};
            {| species := "green_treefrog"; confidence := 2 # 5 |};
            {| species := "spring_peeper"; confidence := 1 # 5 |} ]).
Proof.
  split.
  - apply (@top_3_order stable Scenario.frog_model [2 # 5; 2 # 5; 1 # 5]
             [ {| species := "green_treefrog"; confidence := 2 # 5 |};
               {| species := "bullfrog"; confidence := 2 # 5 |};
               {| species := "spring_peeper"; confidence := 1 # 5 |} ]
             eq_refl).
  - apply (@top_3_order ties_reversed Scenario.frog_model [2 # 5; 2 # 5; 1 # 5]
             [ {| species := "bullfrog"; confidence := 2 # 5 |};
               {| species := "green_treefrog"; confidence := 2 # 5 |};
               {| species := "spring_peeper"; confidence := 1 # 5 |} ]
             eq_refl).
Defined.

End TopThreeClaim.

(** ** Reading a computation: its outcome and its trace *)

Section Reading.
Import Service.

Lemma outcome_bind {A B} (m : Eff A) (k : A -> Eff B) :
  outcome (x <~ m ;; k x)
  = match outcome m with
    | Ok a => outcome (k a)
    | Raise e => Raise e
    end.
Proof. destruct m as [t [a|e]]; cbn; [now destruct (k a) | reflexivity]. Qed.

Lemma outcome_try_except {A} (m : Eff A) (h : exn -> Eff A) :
  outcome (try_except m h)
  = match outcome m with
    | Ok a => Ok a
    | Raise e => outcome (h e)
    end.
Proof. destruct m as [t [a|e]]; cbn; [reflexivity | now destruct (h e)]. Qed.

Lemma trace_bind {A B} (m : Eff A) (k : A -> Eff B) :
  trace (x <~ m ;; k x)
  = (trace m ++ match outcome m with
                | Ok a => trace (k a)
                | Raise _ => []
                end)%list.
Proof.
  destruct m as [t [a|e]]; cbn; [now destruct (k a) | now rewrite app_nil_r].
Qed.

Lemma trace_try_except {A} (m : Eff A) (h : exn -> Eff A) :
  trace (try_except m h)
  = (trace m ++ match outcome m with
                | Ok _ => []
                | Raise e => trace (h e)
                end)%list.
Proof.
  destruct m as [t [a|e]]; cbn; [now rewrite app_nil_r | now destruct (h e)].
Qed.

Lemma outcome_call {A} ev (r : result A) : outcome (call ev r) = r.
Proof. reflexivity. Qed.

Lemma outcome_lift {A} (r : result A) : outcome (lift r) = r.
Proof. reflexivity. Qed.

Lemma trace_call {A} ev (r : result A) : trace (call ev r) = [ev].
Proof. reflexivity. Qed.

Lemma trace_lift {A} (r : result A) : trace (lift r) = [].
Proof. reflexivity. Qed.

(** What a successful run tells about its parts. *)
Lemma ok_bind {A B} (m : Eff A) (k : A -> Eff B) b :
  outcome (x <~ m ;; k x) = Ok b ->
  exists a, outcome m = Ok a /\ outcome (k a) = Ok b.
Proof.
  rewrite outcome_bind. destruct (outcome m) as [a|e]; [|discriminate].
  intro H. now exists a.
Qed.

Lemma ok_try_raising {A} (m : Eff A) (h : exn -> Eff A) b :
  (forall e, outcome (h e) <> Ok b) ->
  outcome (try_except m h) = Ok b -> outcome m = Ok b.
Proof.
  intro Hh. rewrite outcome_try_except.
  destruct (outcome m) as [a|e]; [trivial|]. intro H. now apply Hh in H.
Qed.

Lemma reraise_http_raises {A} prefix e (b : A) :
  outcome (reraise_http prefix e) <> Ok b.
Proof. destruct e; discriminate. Qed.

Lemma ok_call {A} ev (r : result A) a : outcome (call ev r) = Ok a -> r = Ok a.
Proof. trivial. Qed.

Lemma ok_lift {A} (r : result A) a : outcome (lift r) = Ok a -> r = Ok a.
Proof. trivial. Qed.



(** Where an event of a run comes from. *)
Lemma in_trace_bind {A B} (m : Eff A) (k : A -> Eff B) ev :
  In ev (trace (x <~ m ;; k x)) ->
  In ev (trace m) \/ exists a, outcome m = Ok a /\ In ev (trace (k a)).
Proof.
  rewrite trace_bind. intro H. apply in_app_or in H as [H|H]; [now left|].
  destruct (outcome m) as [a|e]; [|contradiction]. right. now exists a.
Qed.

Lemma in_trace_try_except {A} (m : Eff A) (h : exn -> Eff A) ev :
  In ev (trace (try_except m h)) ->
  In ev (trace m) \/ exists e, outcome m = Raise e /\ In ev (trace (h e)).
Proof.
  rewrite trace_try_except. intro H. apply in_app_or in H as [H|H]; [now left|].
  destruct (outcome m) as [a|e]; [contradiction|]. right. now exists e.
Qed.

End Reading.

(** Bring a hypothesis [outcome m = Ok b] down to the calls of [m]. *)
Ltac ok_inside H :=
  repeat first
    [ apply ok_try_raising in H;
      [| solve [ intros ?; cbn; discriminate
               | intros ?; apply reraise_http_raises ] ]
    | let a := fresh "a" in
      let Ha := fresh "Ha" in
      apply ok_bind in H; destruct H as (a & Ha & H); cbv beta in H
    | match type of H with
      | context [let (_, _) := ?x in _] => destruct x
      end ].

(** Bring a hypothesis [In ev (trace m)] down to the call that made
    [ev]; the calls that cannot have made it are closed on the way. *)
Ltac in_trace_step H :=
  match type of H with
  | In _ (Service.trace (Service.try_except _ _)) =>
      apply in_trace_try_except in H;
      destruct H as [H | (? & ? & H)]; cbv beta in H
  | In _ (Service.trace (Service.bind _ _)) =>
      apply in_trace_bind in H;
      destruct H as [H | (? & ? & H)]; cbv beta in H
  | In _ (Service.trace (let (_, _) := ?x in _)) =>
      destruct x; cbv beta iota in H
  | In _ (Service.trace (if ?c then _ else _)) =>
      destruct c; cbv beta iota in H
  | In _ (Service.trace (match ?x with Some _ => _ | None => _ end)) =>
      destruct x; cbv beta iota in H
  | In _ (Service.trace (Service.reraise_http _ ?e)) =>
      destruct e; cbn [Service.reraise_http] in H
  | In _ (Service.trace (Service.schedule_save _ _ _ _ _)) =>
      unfold Service.schedule_save in H
  | In _ (Service.trace (Service.call_predict_proba _ _)) =>
      unfold Service.call_predict_proba in H
  | In _ (Service.trace (Service.call _ _)) =>
      destruct H as [H|[]]; discriminate H
  | In _ (Service.trace (Service.print _)) =>
      destruct H as [H|[]]; discriminate H
  | In _ (Service.trace (Service.ret _)) => destruct H
  | In _ (Service.trace (Service.raise _)) => destruct H
  | In _ (Service.trace (Service.lift _)) => destruct H
  end.

Ltac in_trace H := repeat in_trace_step H.

(** ** A model without the probability capability *)

Section ProbabilityCapability.
Import Audio Path Service.
Local Open Scope string_scope.

(** The feature-vector endpoint answers without top-3 and without
    probabilities. *)
Lemma predict_without_proba {numpy : TopK.NumPy}
    (g : Globals) (features : list Q) X p ps :
  predict_proba (model g) = None ->
  dimension_differs (n_features_in_ (model g)) [features] = false ->
  outcome (apply_scaler g [features]) = Ok X ->
  model_predict (model g) X = Ok (p :: ps) ->
  outcome (predict g features)
  = Ok {| prediction := prediction_value_of p;
          top_3 := None; probabilities := None;
          filename := None; signed_url := None;
          signed_url_expires_in := None |}.
Proof.
  intros Hp Hdim Hsc Hpred. unfold predict, call_predict_proba.
  rewrite Hdim, Hp, outcome_bind, Hsc, outcome_try_except, outcome_bind,
    outcome_call, Hpred.
  reflexivity.
Qed.

Example predict_plain_run :
  predict (Scenario.globals_of Scenario.plain_model) (repeat 0%Q 26)
  = ([ModelPredict [repeat 0%Q 26]],
     Ok {| prediction := LStr "bullfrog";
           top_3 := None; probabilities := None;
           filename := None; signed_url := None;
           signed_url_expires_in := None |}).
Proof. reflexivity. Qed.

(** C3, the audio endpoint. With a model that has no [predict_proba]
    the audio endpoint never answers: every request ends in an error
    (for an upload that decodes, the 500 "Prediction failed"), where the
    feature-vector endpoint leaves top-3 and probabilities out. *)
Theorem predict_from_audio_needs_proba {numpy : TopK.NumPy}
    (rt : Runtime) (g : Globals) (file : UploadFile) :
  predict_proba (model g) = None ->
  exists e, outcome (predict_from_audio rt g file) = Raise e.
Proof.
  intro Hp. destruct (outcome (predict_from_audio rt g file)) as [resp|e] eqn:H;
    [|now exists e].
  exfalso. unfold predict_from_audio in H.
  destruct (negb _); [discriminate|].
  ok_inside H.
  destruct (feature_names g); [|discriminate].
  ok_inside H.
  destruct (dimension_differs _ _); [discriminate|].
  ok_inside H.
  unfold call_predict_proba in *. rewrite Hp in *. discriminate.
Qed.

Lemma predict_from_audio_needs_proba_witness :
  exists e,
    outcome (predict_from_audio Scenario.runtime
               (Scenario.globals_of Scenario.plain_model)
               (Scenario.upload "pond.wav"))
    = Raise e.
Proof.
  apply (predict_from_audio_needs_proba Scenario.runtime
           (Scenario.globals_of Scenario.plain_model)
           (Scenario.upload "pond.wav")).
  reflexivity.
Defined.

Example predict_from_audio_plain_run :
  predict_from_audio Scenario.runtime
    (Scenario.globals_of Scenario.plain_model) (Scenario.upload "pond.wav")
  = ([FileRead; LibrosaLoad; NormalizeAudio; ExtractFeatures;
      ModelPredict [repeat 0%Q 26]],
     Raise (HTTPException 500
              "Prediction failed: object has no attribute 'predict_proba'")).
Proof. reflexivity. Qed.

(** The same upload with the full model is answered. *)
Example predict_from_audio_frog_run :
  outcome (predict_from_audio Scenario.runtime
             (Scenario.globals_of Scenario.frog_model) (Scenario.upload "pond.wav"))
  = Ok {| prediction := LStr "bullfrog";
          top_3 := Some [ {| species := "green_treefrog"; confidence := (2 # 5)%Q |};
                          {| species := "bullfrog"; confidence := (2 # 5)%Q |};
                          {| species := "spring_peeper"; confidence := (1 # 5)%Q |} ];
          probabilities := Some [2 # 5; 2 # 5; 1 # 5]%Q;
          filename := None; signed_url := None;
          signed_url_expires_in := None |}.
Proof. reflexivity. Qed.

End ProbabilityCapability.

(** ** Start-up without the scaler or the feature-order file *)

Section MissingArtifacts.
Import Audio Path Service.
Local Open Scope string_scope.


Definition with_scaler (g : Globals) (sc : option Scaler) : Globals :=
  {| model := model g; scaler := sc; feature_names := feature_names g;
     supabase := supabase g; SAVE_UPLOADS := SAVE_UPLOADS g |}.



Example bare_startup_run :
  load_artifacts Scenario.bare_startup = ([], Ok Scenario.bare_globals).
Proof. reflexivity. Qed.

Example model_missing_run :
  outcome (load_artifacts
             {| MODEL_PATH := "m.joblib";
                load_model := Raise (OtherError "No such file");
                load_scaler := load_scaler Scenario.bare_startup;
                features_path_exists := false;
                load_feature_names := load_feature_names Scenario.bare_startup;
                env_SAVE_UPLOADS := false;
                SUPABASE_URL := None; SUPABASE_KEY := None;
                create_client := create_client Scenario.bare_startup |})
  = Raise (RuntimeError "Failed to load model from m.joblib: No such file").
Proof. reflexivity. Qed.











Example wav_without_feature_names :
  predict_from_audio Scenario.runtime Scenario.bare_globals (Scenario.upload "pond.wav")
  = ([FileRead; LibrosaLoad; NormalizeAudio; ExtractFeatures],
     Raise (HTTPException 500 "Feature names not loaded")).
Proof. reflexivity. Qed.

Example bmp_without_feature_names :
  outcome (predict_from_audio Scenario.runtime Scenario.bare_globals
             (Scenario.upload "pond.bmp"))
  = Raise (HTTPException 400
      "Unsupported audio format: .bmp. Supported formats: .wma, .aac, .m4a, .ogg, .flac, .mp3, .wav").
Proof. reflexivity. Qed.

End MissingArtifacts.

(** ** The persistence sink *)

Section Persistence.
Import Audio Path Service.
Local Open Scope string_scope.

Definition is_upload (ev : event) : bool :=
  match ev with StorageUpload _ _ => true | _ => false end.

Definition is_insert (ev : event) : bool :=
  match ev with TableInsert _ _ => true | _ => false end.

(** The upload attempts and the insert attempts among the events. *)
Definition uploads (t : list event) : list event := filter is_upload t.
Definition inserts (t : list event) : list event := filter is_insert t.

(** The row [save_prediction_to_supabase] inserts. *)
Definition row_of (rt : Runtime) (a : task_args) (storage_filename : string)
  : metadata :=
  {| md_filename := storage_filename;
     md_original_filename := arg_filename a;
     md_prediction := arg_prediction a;
     md_top_3_predictions := arg_top_3 a;
     md_all_probabilities := arg_probabilities a;
     md_timestamp := utcnow_iso rt |}.

(** The whole of a scheduled save, by the answers of the two stores. *)
Lemma background_task_runs rt g sb a name :
  supabase g = Some sb ->
  arg_storage_filename a = Some name ->
  name <> "" ->
  let ct := _guess_content_type_from_ext (arg_filename a) in
  let row := row_of rt a name in
  background_task rt g a
  = match storage_upload sb (SUPABASE_BUCKET rt) name (arg_audio_bytes a) ct with
    | Raise e =>
        ([StorageUpload name ct;
          Print ("Background Supabase save failed: Storage upload failed: "
                 ++ str_exn e)], Ok tt)
    | Ok resp =>
        match table_insert sb "predictions" row with
        | Ok resp' =>
            ([StorageUpload name ct;
              Print ("Supabase storage upload response: " ++ resp);
              TableInsert "predictions" row;
              Print ("Supabase DB insert response: " ++ resp');
              Print "Background Supabase save completed"], Ok tt)
        | Raise e =>
            ([StorageUpload name ct;
              Print ("Supabase storage upload response: " ++ resp);
              TableInsert "predictions" row;
              Print ("DB insert failed: " ++ str_exn e
                     ++ ". Ensure 'predictions' table exists and JSONB columns accept the payload.");
              Print "Background Supabase save completed"], Ok tt)
        end
    end.
Proof.
  intros Hsb Hname Hne ct row.
  unfold background_task, save_prediction_to_supabase, _log_bg_result.
  rewrite Hsb, Hname.
  assert (Ht : truthy (Some name) = true).
  { cbn. destruct (String.eqb_spec name ""); [contradiction | reflexivity]. }
  rewrite Ht. fold ct. rewrite bind_ret. fold (row_of rt a name). fold row.
  destruct (storage_upload sb (SUPABASE_BUCKET rt) name (arg_audio_bytes a) ct)
    as [resp|e]; [|reflexivity].
  destruct (table_insert sb "predictions" row) as [resp'|e]; reflexivity.
Qed.

(** The save itself, before the done-callback: an upload failure leaves it
    as [RuntimeError], an insert failure does not. *)
Lemma save_prediction_runs rt g sb a name :
  supabase g = Some sb ->
  arg_storage_filename a = Some name ->
  name <> "" ->
  let ct := _guess_content_type_from_ext (arg_filename a) in
  let row := row_of rt a name in
  save_prediction_to_supabase rt g a
  = match storage_upload sb (SUPABASE_BUCKET rt) name (arg_audio_bytes a) ct with
    | Raise e =>
        ([StorageUpload name ct],
         Raise (RuntimeError ("Storage upload failed: " ++ str_exn e)))
    | Ok resp =>
        match table_insert sb "predictions" row with
        | Ok resp' =>
            ([StorageUpload name ct;
              Print ("Supabase storage upload response: " ++ resp);
              TableInsert "predictions" row;
              Print ("Supabase DB insert response: " ++ resp')], Ok tt)
        | Raise e =>
            ([StorageUpload name ct;
              Print ("Supabase storage upload response: " ++ resp);
              TableInsert "predictions" row;
              Print ("DB insert failed: " ++ str_exn e
                     ++ ". Ensure 'predictions' table exists and JSONB columns accept the payload.")],
             Ok tt)
        end
    end.
Proof.
  intros Hsb Hname Hne ct row.
  unfold save_prediction_to_supabase.
  rewrite Hsb, Hname.
  assert (Ht : truthy (Some name) = true).
  { cbn. destruct (String.eqb_spec name ""); [contradiction | reflexivity]. }
  rewrite Ht. fold ct. rewrite bind_ret. fold (row_of rt a name). fold row.
  destruct (storage_upload sb (SUPABASE_BUCKET rt) name (arg_audio_bytes a) ct)
    as [resp|e]; [|reflexivity].
  destruct (table_insert sb "predictions" row) as [resp'|e]; reflexivity.
Qed.

Definition with_store (g : Globals) (sb : Supabase) : Globals :=
  {| model := model g; scaler := scaler g; feature_names := feature_names g;
     supabase := Some sb; SAVE_UPLOADS := SAVE_UPLOADS g |}.

Lemma bind_ext {A B} (m : Eff A) (k k' : A -> Eff B) :
  (forall a, k a = k' a) -> (x <~ m ;; k x) = (x <~ m ;; k' x).
Proof. intro H. destruct m as [t [a|e]]; cbn; [now rewrite H | reflexivity]. Qed.

Lemma try_except_ext {A} (m m' : Eff A) (h : exn -> Eff A) :
  m = m' -> try_except m h = try_except m' h.
Proof. now intros ->. Qed.

Lemma schedule_save_same rt sb sb' a name expires :
  (forall bucket n e,
      create_signed_url sb' bucket n e = create_signed_url sb bucket n e) ->
  schedule_save rt sb' a name expires = schedule_save rt sb a name expires.
Proof. intro H. unfold schedule_save. cbn [call bind]. now rewrite H. Qed.

(** The handler asks the store for a signed URL and for nothing else:
    what the store does with uploads and inserts does not reach it. *)
Lemma response_ignores_store {numpy : TopK.NumPy} rt g file sb sb' :
  supabase g = Some sb ->
  (forall bucket n e,
      create_signed_url sb' bucket n e = create_signed_url sb bucket n e) ->
  predict_from_audio rt (with_store g sb') file = predict_from_audio rt g file.
Proof.
  intros Hsb Hsame. unfold predict_from_audio, apply_scaler. rewrite Hsb.
  cbn [with_store model scaler feature_names supabase SAVE_UPLOADS].
  destruct (negb _); [reflexivity|].
  apply try_except_ext.
  apply bind_ext; intro audio_bytes.
  apply bind_ext; intros [y sr].
  apply bind_ext; intros [yn srn].
  apply bind_ext; intro fd.
  destruct (feature_names g); [|reflexivity].
  apply bind_ext; intro X.
  destruct (dimension_differs _ _); [reflexivity|].
  apply bind_ext; intro X'.
  apply try_except_ext.
  do 6 (apply bind_ext; intro).
  destruct (SAVE_UPLOADS g); [|reflexivity].
  now rewrite (schedule_save_same rt sb sb').
Qed.

Lemma name_for_storage_nonempty rt p t ext name :
  name_for_storage rt p t ext = Ok name -> name <> "".
Proof.
  unfold name_for_storage. destruct (first_confidence t) as [c|e]; [|discriminate].
  cbn [Py.bind]. intro H. injection H as <-.
  destruct (utcnow_stamp rt); discriminate.
Qed.

Lemma trace_bind_ok {A B} (m : Eff A) (k : A -> Eff B) a :
  outcome m = Ok a -> trace (x <~ m ;; k x) = (trace m ++ trace (k a))%list.
Proof. intro H. now rewrite trace_bind, H. Qed.

Lemma trace_try_ok {A} (m : Eff A) (h : exn -> Eff A) a :
  outcome m = Ok a -> trace (try_except m h) = trace m.
Proof. intro H. now rewrite trace_try_except, H, app_nil_r. Qed.

Lemma trace_try_raising_ok {A} (m : Eff A) (h : exn -> Eff A) a :
  (forall e, outcome (h e) <> Ok a) ->
  outcome (try_except m h) = Ok a -> trace (try_except m h) = trace m.
Proof.
  intros Hh H. apply (trace_try_ok m h a). now apply (ok_try_raising m h).
Qed.

Lemma scheduled_app t t' :
  scheduled (t ++ t') = (scheduled t ++ scheduled t')%list.
Proof. apply flat_map_app. Qed.

Lemma scheduled_apply_scaler g X : scheduled (trace (apply_scaler g X)) = [].
Proof. unfold apply_scaler. now destruct (scaler g). Qed.

Lemma scheduled_call_predict_proba m X :
  scheduled (trace (call_predict_proba m X)) = [].
Proof. unfold call_predict_proba. now destruct (predict_proba m). Qed.

(** The block under [if SAVE_UPLOADS and supabase] schedules one save,
    whatever becomes of the signed URL. *)
Lemma scheduled_schedule_save rt sb a name expires :
  scheduled (trace (schedule_save rt sb a name expires)) = [a].
Proof.
  unfold schedule_save, call. cbn [bind].
  now destruct (create_signed_url sb (SUPABASE_BUCKET rt) name expires).
Qed.

(** Rewrite the trace of a run along the steps known to have succeeded. *)
Ltac trace_forward :=
  repeat match goal with
    | Hx : outcome ?m = Ok ?a |- context [trace (bind ?m ?k)] =>
        rewrite (trace_bind_ok m k a Hx); cbv beta iota
    | Hx : outcome (try_except ?m ?h) = Ok ?a
      |- context [trace (try_except ?m ?h)] =>
        rewrite (trace_try_raising_ok m h a);
        [ | first [ intros ?; cbn; discriminate
                  | intros ?; apply reraise_http_raises ]
          | exact Hx ]
    | Hx : ?c = false |- context [if ?c then _ else _] => rewrite Hx
    end.

(** A successful audio prediction with persistence enabled schedules
    exactly one save, under a non-empty storage name that the response
    carries. *)
Lemma audio_success_schedules_one {numpy : TopK.NumPy} rt g file resp sb :
  outcome (predict_from_audio rt g file) = Ok resp ->
  SAVE_UPLOADS g = true ->
  supabase g = Some sb ->
  exists a name,
    scheduled (trace (predict_from_audio rt g file)) = [a]
    /\ arg_storage_filename a = Some name
    /\ name <> ""
    /\ arg_filename a = upload_filename file
    /\ upload_read file = Ok (arg_audio_bytes a)
    /\ filename resp = Some name.
Proof.
  intros H Hsave Hsb.
  unfold predict_from_audio in *. cbv zeta in *. rewrite Hsb, Hsave in *.
  destruct (negb _) eqn:Eext; [discriminate|].
  assert (Hbody := H). apply ok_try_raising in Hbody;
    [| intros ?; apply reraise_http_raises ].
  ok_inside Hbody.
  destruct (feature_names g) as [names|] eqn:En; [|discriminate].
  ok_inside Hbody.
  destruct (dimension_differs _ _) eqn:Ed; [discriminate|].
  assert (Hblock := Hbody). apply ok_bind in Hblock.
  destruct Hblock as (X & HX & Hblock). cbv beta in Hblock.
  assert (Hpred := Hblock).
  apply ok_try_raising in Hpred; [| intros ?; cbn; discriminate].
  ok_inside Hpred. injection Hpred as <-.
  trace_forward.
  match goal with
  | Hn : outcome (lift (name_for_storage _ _ _ _)) = Ok ?n
    |- context [schedule_save _ _ ?args ?n _] =>
      apply ok_lift, name_for_storage_nonempty in Hn;
      exists args, n; split; [|repeat split; solve [reflexivity | eassumption]]
  end.
  rewrite !scheduled_app, scheduled_apply_scaler, scheduled_call_predict_proba,
    scheduled_schedule_save.
  destruct (features_dict_to_array _ _); reflexivity.
Qed.

(** C2 in the words of the specification: for a successful audio
    prediction with persistence enabled, each save that was scheduled
    attempts the upload once and the insert once. *)
Definition each_attempted_once {numpy : TopK.NumPy}
    (rt : Runtime) (g : Globals) (file : UploadFile)
  : Prop :=
  forall resp, outcome (predict_from_audio rt g file) = Ok resp ->
  SAVE_UPLOADS g = true ->
  supabase g <> None ->
  forall a, In a (scheduled (trace (predict_from_audio rt g file))) ->
    List.length (uploads (trace (background_task rt g a))) = 1%nat
    /\ List.length (inserts (trace (background_task rt g a))) = 1%nat.

Definition pond_response : PredictionResponse :=
  {| prediction := LStr "bullfrog";
     top_3 := Some [ {| species := "green_treefrog"; confidence := (2 # 5)%Q |};
                     {| species := "bullfrog"; confidence := (2 # 5)%Q |};
                     {| species := "spring_peeper"; confidence := (1 # 5)%Q |} ];
     probabilities := Some [2 # 5; 2 # 5; 1 # 5]%Q;
     filename := Some "20250101_000000_bullfrog_0.40.wav";
     signed_url := None;
     signed_url_expires_in := None |}.

Definition pond_save : task_args :=
  {| arg_audio_bytes := [];
     arg_filename := "pond.wav";
     arg_prediction := LStr "bullfrog";
     arg_top_3 := top_3 pond_response;
     arg_probabilities := probabilities pond_response;
     arg_storage_filename := filename pond_response |}.

(** Scenario E: the object store refuses the upload; the request is still
    answered, with the storage name and without a URL. *)
Example broken_store_run :
  predict_from_audio Scenario.runtime
    (Scenario.saving_globals Scenario.broken_store) (Scenario.upload "pond.wav")
  = ([FileRead; LibrosaLoad; NormalizeAudio; ExtractFeatures;
      ModelPredict [repeat 0%Q 26]; ModelPredictProba [repeat 0%Q 26];
      CreateTask pond_save;
      CreateSignedUrl "20250101_000000_bullfrog_0.40.wav"],
     Ok pond_response).
Proof. reflexivity. Qed.

(** The save it scheduled: the upload fails, the failure is logged by the
    done-callback, and no insert is attempted. *)
Example broken_store_background :
  background_task Scenario.runtime
    (Scenario.saving_globals Scenario.broken_store) pond_save
  = ([StorageUpload "20250101_000000_bullfrog_0.40.wav" "audio/wav";
      Print "Background Supabase save failed: Storage upload failed: Bucket not found"],
     Ok tt).
Proof. reflexivity. Qed.

Example missing_table_background :
  background_task Scenario.runtime
    (Scenario.saving_globals Scenario.store_without_table) pond_save
  = ([StorageUpload "20250101_000000_bullfrog_0.40.wav" "audio/wav";
      Print "Supabase storage upload response: uploaded";
      TableInsert "predictions" (row_of Scenario.runtime pond_save
                                   "20250101_000000_bullfrog_0.40.wav");
      Print "DB insert failed: relation does not exist. Ensure 'predictions' table exists and JSONB columns accept the payload.";
      Print "Background Supabase save completed"],
     Ok tt).
Proof. reflexivity. Qed.

(** C2, as stated, fails: when the upload raises, the insert is not
    attempted. *)
Lemma each_attempted_once_counterexample :
  ~ each_attempted_once Scenario.runtime
      (Scenario.saving_globals Scenario.broken_store) (Scenario.upload "pond.wav").
Proof.
  intro H.
  destruct (H pond_response eq_refl eq_refl ltac:(discriminate) pond_save)
    as [_ Hinsert].
  - rewrite broken_store_run. cbn. now left.
  - rewrite broken_store_background in Hinsert. discriminate Hinsert.
Qed.

(** C2, amended. A successful audio prediction with persistence enabled
    schedules exactly one save.  That save attempts the upload exactly
    once.  When the upload succeeds, the insert is attempted exactly once;
    its failure is logged and ends the save normally, with nothing done to
    the upload.  When the upload fails, the save ends in [RuntimeError]
    before any insert, and the done-callback logs it.  The response is
    the same whatever the store does with uploads and inserts. *)
Theorem persistence_attempts {numpy : TopK.NumPy}
    (rt : Runtime) (g : Globals) (file : UploadFile)
    (resp : PredictionResponse) (sb : Supabase) :
  outcome (predict_from_audio rt g file) = Ok resp ->
  SAVE_UPLOADS g = true ->
  supabase g = Some sb ->
  exists a path ct,
    scheduled (trace (predict_from_audio rt g file)) = [a]
    /\ filename resp = Some path
    /\ uploads (trace (background_task rt g a)) = [StorageUpload path ct]
    /\ outcome (background_task rt g a) = Ok tt
    /\ (forall r,
          storage_upload sb (SUPABASE_BUCKET rt) path (arg_audio_bytes a) ct = Ok r ->
          inserts (trace (background_task rt g a))
          = [TableInsert "predictions" (row_of rt a path)]
          /\ outcome (save_prediction_to_supabase rt g a) = Ok tt
          /\ forall e,
               table_insert sb "predictions" (row_of rt a path) = Raise e ->
               save_prediction_to_supabase rt g a
               = ([StorageUpload path ct;
                   Print ("Supabase storage upload response: " ++ r);
                   TableInsert "predictions" (row_of rt a path);
                   Print ("DB insert failed: " ++ str_exn e
                          ++ ". Ensure 'predictions' table exists and JSONB columns accept the payload.")],
                  Ok tt))
    /\ (forall e,
          storage_upload sb (SUPABASE_BUCKET rt) path (arg_audio_bytes a) ct = Raise e ->
          save_prediction_to_supabase rt g a
          = ([StorageUpload path ct],
             Raise (RuntimeError ("Storage upload failed: " ++ str_exn e)))
          /\ inserts (trace (background_task rt g a)) = []
          /\ In (Print ("Background Supabase save failed: Storage upload failed: "
                        ++ str_exn e))
                (trace (background_task rt g a)))
    /\ (forall sb',
          (forall bucket n e,
              create_signed_url sb' bucket n e = create_signed_url sb bucket n e) ->
          predict_from_audio rt (with_store g sb') file
          = predict_from_audio rt g file).
Proof.
  intros H Hsave Hsb.
  destruct (audio_success_schedules_one rt g file resp sb H Hsave Hsb)
    as (a & name & Hone & Hname & Hne & _ & _ & Hresp).
  exists a, name, (_guess_content_type_from_ext (arg_filename a)).
  rewrite (background_task_runs rt g sb a name Hsb Hname Hne).
  rewrite (save_prediction_runs rt g sb a name Hsb Hname Hne).
  split; [assumption|]. split; [assumption|].
  assert (Hstore := response_ignores_store rt g file sb).
  destruct (storage_upload sb (SUPABASE_BUCKET rt) name (arg_audio_bytes a) _)
    as [r|e].
  - destruct (table_insert sb "predictions" (row_of rt a name)) as [r'|e'].
    + split; [reflexivity|]. split; [reflexivity|]. split; [|split].
      * intros r0 _. split; [reflexivity|]. split; [reflexivity|].
        intros e He. discriminate He.
      * intros e He. discriminate He.
      * intros sb'. now apply Hstore.
    + split; [reflexivity|]. split; [reflexivity|]. split; [|split].
      * intros r0 Hr. injection Hr as <-. split; [reflexivity|].
        split; [reflexivity|].
        intros e He. injection He as <-. reflexivity.
      * intros e He. discriminate He.
      * intros sb'. now apply Hstore.
  - split; [reflexivity|]. split; [reflexivity|]. split; [|split].
    + intros r0 Hr. discriminate Hr.
    + intros e0 He. injection He as <-. split; [reflexivity|].
      split; [reflexivity|]. cbn. tauto.
    + intros sb'. now apply Hstore.
Qed.

Lemma persistence_attempts_witness :
  exists a path ct,
    scheduled (trace (predict_from_audio Scenario.runtime
                        (Scenario.saving_globals Scenario.store_without_table)
                        (Scenario.upload "pond.wav")))
    = [a]
    /\ uploads (trace (background_task Scenario.runtime
                         (Scenario.saving_globals Scenario.store_without_table) a))
       = [StorageUpload path ct]
    /\ outcome (save_prediction_to_supabase Scenario.runtime
                  (Scenario.saving_globals Scenario.store_without_table) a)
       = Ok tt.
Proof.
  destruct (persistence_attempts (numpy := InsertionSort.stable) Scenario.runtime
              (Scenario.saving_globals Scenario.store_without_table)
              (Scenario.upload "pond.wav") pond_response
              Scenario.store_without_table eq_refl eq_refl eq_refl)
    as (a & path & ct & Hone & _ & Hup & _ & Hok & _).
  exists a, path, ct. split; [assumption|]. split; [assumption|].
  exact (proj1 (proj2 (Hok "uploaded" eq_refl))).
Defined.

(** An object answer is read as [signed_url] first: the response carries
    the second of the two URLs. *)
Example audio_signed_url_from_object :
  outcome (predict_from_audio Scenario.runtime
             (Scenario.saving_globals Fixtures.object_signing_store)
             (Scenario.upload "pond.wav"))
  = Ok {| prediction := LStr "bullfrog";
          top_3 := top_3 pond_response;
          probabilities := probabilities pond_response;
          filename := Some "20250101_000000_bullfrog_0.40.wav";
          signed_url :=
            Some "https://store/20250101_000000_bullfrog_0.40.wav?v=2";
          signed_url_expires_in := Some 900%Z |}.
Proof. reflexivity. Qed.

End Persistence.

(** ** More on the audio functions *)

Section AudioFunctions.
Import Audio.
Local Open Scope Q_scope.

Lemma slice_whole {A} (y : list A) : slice y 0 (len y) = y.
Proof.
  rewrite slice_inside by (unfold len; lia).
  rewrite Z.sub_0_r. unfold len. rewrite Nat2Z.id. cbn [Z.to_nat skipn].
  apply firstn_all.
Qed.

Lemma slice_prefix {A} (y : list A) (n : Z) :
  (0 <= n <= len y)%Z -> slice y 0 n = firstn (Z.to_nat n) y.
Proof.
  intro H. rewrite slice_inside by lia. now rewrite Z.sub_0_r.
Qed.

(** The three branches of [standardize_duration] as one expression. *)
Lemma standardize_duration_shape y sr td :
  (0 <= window_samples_of td sr)%Z ->
  standardize_duration y sr td
  = firstn (Z.to_nat (window_samples_of td sr)) y
    ++ repeat 0 (Z.to_nat (window_samples_of td sr - len y)).
Proof.
  intro H. unfold standardize_duration.
  set (n := window_samples_of td sr) in *.
  destruct (Z.ltb_spec n (len y)).
  - rewrite slice_prefix by lia.
    replace (Z.to_nat (n - len y)) with 0%nat by lia.
    cbn [repeat]. now rewrite app_nil_r.
  - rewrite firstn_all2 by (unfold len in *; lia).
    destruct (Z.ltb_spec (len y) n); [reflexivity|].
    replace (Z.to_nat (n - len y)) with 0%nat by lia.
    cbn [repeat]. now rewrite app_nil_r.
Qed.

(** X1. Duration standardization returns the first [target_len] samples
    of the buffer followed by the zeros that fill it up to [target_len];
    the result has exactly [target_len] samples, a buffer of that length
    comes back unchanged, and standardizing twice is standardizing once. *)
Theorem standardize_duration_exact (y : buffer) (sr : Z) (td : Q) :
  (0 <= window_samples_of td sr)%Z ->
  standardize_duration y sr td
  = firstn (Z.to_nat (window_samples_of td sr)) y
    ++ repeat 0 (Z.to_nat (window_samples_of td sr - len y))
  /\ len (standardize_duration y sr td) = window_samples_of td sr
  /\ (len y = window_samples_of td sr -> standardize_duration y sr td = y)
  /\ standardize_duration (standardize_duration y sr td) sr td
     = standardize_duration y sr td.
Proof.
  intro H.
  assert (Hsame : forall z, len z = window_samples_of td sr ->
                            standardize_duration z sr td = z).
  { intros z Hz. unfold standardize_duration. rewrite Hz, Z.ltb_irrefl.
    reflexivity. }
  split; [now apply standardize_duration_shape|].
  split; [now apply standardize_duration_len|].
  split; [apply Hsame|].
  apply Hsame. now apply standardize_duration_len.
Qed.

Lemma standardize_duration_exact_witness :
  standardize_duration [1; 2; 3] 2 1 = [1; 2]
  /\ standardize_duration [1] 2 1 = [1; 0].
Proof.
  split.
  - apply (standardize_duration_exact [1; 2; 3] 2 1). vm_compute. discriminate.
  - apply (standardize_duration_exact [1] 2 1). vm_compute. discriminate.
Defined.

(** The column sums of a two-channel array. *)
Lemma add_rows_length a : forall b,
  List.length a = List.length b -> List.length (add_rows a b) = List.length a.
Proof.
  induction a as [|x a IH]; intros [|z b] H; try discriminate; cbn; [reflexivity|].
  f_equal. apply IH. now injection H.
Qed.

Lemma stereo_average l : forall r,
  List.length l = List.length r ->
  Forall2 Qeq
    (map (fun c => c / inject_Z 2)
         (add_rows l (add_rows r (repeat 0 (List.length l)))))
    (map (fun p => (fst p + snd p) / inject_Z 2) (combine l r)).
Proof.
  induction l as [|a l IH]; intros [|b r] H; try discriminate; cbn; constructor.
  - cbn. field.
  - apply IH. now injection H.
Qed.

(** X2. A two-channel array with the channels as rows is averaged
    channel against channel when it has more than 8 samples; with 8
    samples or fewer the same array is read as channels-last, and what
    comes back is the two means of the channels. *)
Theorem to_mono_stereo (l r : buffer) :
  List.length l = List.length r ->
  ((8 < List.length l)%nat ->
     Forall2 Qeq (to_mono (Arr2 [l; r]))
                 (map (fun p => (fst p + snd p) / inject_Z 2) (combine l r)))
  /\ ((List.length l <= 8)%nat -> to_mono (Arr2 [l; r]) = [mean l; mean r]).
Proof.
  intro H.
  assert (Hmono : to_mono (Arr2 [l; r])
                  = if (8 <? len l)%Z
                    then map (fun c => c / inject_Z 2)
                             (add_rows l (add_rows r (repeat 0 (List.length l))))
                    else [mean l; mean r]).
  { unfold to_mono, mean_axis0, mean_axis_last. cbn [hd].
    replace (len [l; r]) with 2%Z by reflexivity. cbn [Z.leb Z.compare Pos.compare
      Pos.compare_cont andb fold_right map].
    unfold len at 2. now rewrite Nat2Z.id. }
  rewrite Hmono. split; intro Hn.
  - destruct (Z.ltb_spec 8 (len l)); [|unfold len in *; lia].
    now apply stereo_average.
  - destruct (Z.ltb_spec 8 (len l)); [unfold len in *; lia|]. reflexivity.
Qed.

Lemma to_mono_stereo_witness :
  to_mono (Arr2 [[1; 2; 3]; [3; 2; 1]]) = [mean [1; 2; 3]; mean [3; 2; 1]]
  /\ Forall2 Qeq
       (to_mono (Arr2 [[1; 2; 3; 4; 5; 6; 7; 8; 9]; [9; 8; 7; 6; 5; 4; 3; 2; 1]]))
       (map (fun p => (fst p + snd p) / inject_Z 2)
            (combine [1; 2; 3; 4; 5; 6; 7; 8; 9] [9; 8; 7; 6; 5; 4; 3; 2; 1])).
Proof.
  split.
  - apply (to_mono_stereo [1; 2; 3] [3; 2; 1]); [reflexivity | cbn; lia].
  - apply (to_mono_stereo [1; 2; 3; 4; 5; 6; 7; 8; 9] [9; 8; 7; 6; 5; 4; 3; 2; 1]);
      [reflexivity | cbn; lia].
Defined.


(** The maximum is one of the absolute values. *)
Lemma fold_Qmaxb_pick l : forall a,
  fold_left Qmaxb l a = a \/ In (fold_left Qmaxb l a) l.
Proof.
  induction l as [|x l IH]; intro a; cbn [fold_left]; [now left|].
  destruct (IH (Qmaxb a x)) as [H|H].
  - rewrite H. unfold Qmaxb. destruct (Qle_bool a x); [right; now left | now left].
  - right. now right.
Qed.

Lemma max_abs_attained y :
  y <> [] -> exists x, In x y /\ max_abs y = Qabs x.
Proof.
  destruct y as [|a y]; [contradiction|]. intros _. unfold max_abs.
  cbn [map]. destruct (fold_Qmaxb_pick (map Qabs y) (Qabs a)) as [H|H].
  - exists a. split; [now left | exact H].
  - apply in_map_iff in H as (x & Hx & Hin). exists x. split; [now right | now symmetry].
Qed.

(** The peak of a peak-normalized buffer: the target level when the
    input had a peak, and zero otherwise. *)
Lemma max_abs_peak_normalize y peak :
  0 <= peak ->
  max_abs (peak_normalize y peak)
  == if Qltb 0 (max_abs y) then peak else 0.
Proof.
  intro Hp. unfold peak_normalize.
  destruct (Qltb 0 (max_abs y)) eqn:E.
  - apply Qltb_true in E. apply Qle_antisym.
    + apply max_abs_lub; [assumption|].
      apply Forall_map, Forall_forall. intros x Hx.
      apply scaled_sample_bounded; auto using max_abs_In.
    + destruct (max_abs_attained y) as (x & Hx & Hmax).
      { intros ->. discriminate E. }
      eapply Qle_trans;
        [| apply max_abs_In, (in_map (fun x => x / max_abs y * peak)), Hx].
      rewrite Qabs_Qmult, (Qabs_pos peak Hp).
      unfold Qdiv. rewrite Qabs_Qmult, Qabs_Qinv, <- Hmax.
      rewrite (Qabs_pos (max_abs y)) by now apply Qlt_le_weak.
      rewrite Qmult_inv_r, Qmult_1_l by (intro H0; rewrite H0 in E; discriminate).
      apply Qle_refl.
  - apply Qltb_false in E. apply Qle_antisym; [assumption | apply max_abs_nonneg].
Qed.

Lemma peak_normalize_length y peak :
  List.length (peak_normalize y peak) = List.length y.
Proof.
  unfold peak_normalize. destruct (Qltb 0 (max_abs y)); [apply length_map | reflexivity].
Qed.

(** X3. A buffer that is not all zeros comes out of peak normalization
    with the same number of samples and with its largest absolute
    amplitude equal to the peak level. *)
Theorem peak_normalize_reaches_peak (y : buffer) (peak : Q) :
  0 <= peak -> 0 < max_abs y ->
  max_abs (peak_normalize y peak) == peak
  /\ List.length (peak_normalize y peak) = List.length y.
Proof.
  intros Hp Hy. split; [|apply peak_normalize_length].
  rewrite max_abs_peak_normalize by assumption.
  apply Qltb_true in Hy. now rewrite Hy.
Qed.

Lemma peak_normalize_reaches_peak_witness :
  max_abs (peak_normalize [1 # 2; -2; 1] PEAK_LEVEL) == PEAK_LEVEL.
Proof.
  apply (peak_normalize_reaches_peak [1 # 2; -2; 1] PEAK_LEVEL);
    [discriminate | reflexivity].
Defined.

Section WithLibrosa.
Context {librosa : Librosa}.

(** X4. Silence trimming never empties a buffer: of a non-empty buffer
    it returns a non-empty span [y[a:b]], which is what librosa's trim
    left when that has samples and the whole buffer when it has none. *)
Theorem trim_silence_keeps_signal (y : buffer) (top_db : Q) :
  y <> [] ->
  trim_silence y top_db <> []
  /\ (exists a b, trim_silence y top_db = slice y a b)
  /\ (effects_trim y top_db = [] -> trim_silence y top_db = y)
  /\ (effects_trim y top_db <> [] ->
      trim_silence y top_db = effects_trim y top_db).
Proof.
  intro Hy. unfold trim_silence.
  destruct (Z.ltb_spec 0 (len (effects_trim y top_db))) as [Hlt|Hge].
  - split; [|split; [apply trim_span|split]].
    + intro H0. rewrite H0 in Hlt. discriminate Hlt.
    + intro H0. rewrite H0 in Hlt. discriminate Hlt.
    + reflexivity.
  - split; [assumption|].
    split; [exists 0%Z, (len y); symmetry; apply slice_whole|].
    split; [reflexivity|].
    intro Hne. destruct (effects_trim y top_db); [contradiction|].
    unfold len in Hge. cbn in Hge. lia.
Qed.

End WithLibrosa.

Lemma trim_silence_keeps_signal_witness :
  @trim_silence HoldLibrosa.instance [1%Q; 2%Q] 30 <> []
  /\ @trim_silence HoldLibrosa.instance [1%Q; 2%Q] 30 = [1%Q; 2%Q].
Proof.
  destruct (@trim_silence_keeps_signal HoldLibrosa.instance [1%Q; 2%Q] 30)
    as (Hne & _ & Hback & _).
  - discriminate.
  - split; [exact Hne | apply Hback; reflexivity].
Defined.

Lemma window_samples_zero_rate td : window_samples_of td 0 = 0%Z.
Proof.
  unfold window_samples_of, int_of_float. destruct td as [n d]. cbn.
  now rewrite Z.mul_0_r.
Qed.

Lemma find_best_10s_window_returns (y : buffer) (sr : Z) (td : Q) :
  sr <> 0%Z ->
  exists out, find_best_10s_window y sr td = Ok out /\ (len out <= len y)%Z.
Proof.
  intro Hsr. unfold find_best_10s_window.
  destruct (_ <=? _)%Z; [exists y; split; [reflexivity | lia]|].
  unfold range0. destruct (Z.eqb_spec sr 0); [contradiction|].
  cbn [Py.bind]. eexists. split; [reflexivity|]. apply len_slice_le.
Qed.

(** X5. The window selector raises only at a sample rate of zero, where
    the hop of the scan is zero: there every non-empty buffer ends in
    [ValueError]; at any other rate it returns a buffer, never longer
    than its input. *)
Theorem find_best_10s_window_total (y : buffer) (sr : Z) (td : Q) :
  (sr <> 0%Z ->
     exists out, find_best_10s_window y sr td = Ok out /\ (len out <= len y)%Z)
  /\ (sr = 0%Z -> y <> [] ->
        find_best_10s_window y sr td
        = Raise (ValueError "range() arg 3 must not be zero")).
Proof.
  split; [apply find_best_10s_window_returns|].
  intros -> Hy. unfold find_best_10s_window.
  rewrite window_samples_zero_rate.
  destruct (Z.leb_spec (len y) 0) as [Hle|_]; [|reflexivity].
  destruct y; [contradiction | unfold len in Hle; cbn in Hle; lia].
Qed.

Lemma find_best_10s_window_total_witness :
  find_best_10s_window [1; 2] 0 10
  = Raise (ValueError "range() arg 3 must not be zero")
  /\ exists out,
       find_best_10s_window [1; 2; 3] 1 2 = Ok out /\ (len out <= 3)%Z.
Proof.
  split.
  - apply (find_best_10s_window_total [1; 2] 0 10); [reflexivity | discriminate].
  - apply (find_best_10s_window_total [1; 2; 3] 1 2). discriminate.
Defined.

Section NormalizerOutput.
Context {librosa : Librosa}.

(** X6. At any sample rate but zero, and for an array on which the mono
    mix takes no mean over an empty axis, the normalizer returns a buffer
    of exactly 10 * 22050 samples at 22050 Hz whose largest absolute
    amplitude is at most the peak level 0.98, with or without
    pre-emphasis.  The three librosa routines are total here: a run in
    which one of them raises is outside the statement. *)
Theorem normalize_audio_output (y : ndarray) (sr : Z) (apply_preemphasis : bool) :
  well_shaped y ->
  sr <> 0%Z ->
  exists out,
    normalize_audio y sr apply_preemphasis = Ok (out, TARGET_SR)
    /\ len out = (10 * 22050)%Z
    /\ max_abs out <= 98 # 100.
Proof.
  intros _ Hsr. unfold normalize_audio.
  destruct (find_best_10s_window_returns (trim_silence (to_mono y) 30) sr
              TARGET_DURATION Hsr) as (w & -> & _).
  cbn [Py.bind].
  set (resampled := if negb (sr =? TARGET_SR)%Z then _ else _).
  assert (Hrate : snd resampled = TARGET_SR).
  { unfold resampled. destruct (Z.eqb_spec sr TARGET_SR); cbn; congruence. }
  destruct resampled as [yr sr']. cbn [snd] in Hrate. subst sr'.
  eexists. split; [reflexivity|]. split.
  - unfold len. rewrite peak_normalize_length.
    assert (Hlen : len (standardize_duration yr TARGET_SR TARGET_DURATION)
                   = (10 * 22050)%Z)
      by (rewrite standardize_duration_len; [reflexivity | discriminate]).
    destruct apply_preemphasis; [rewrite preemphasis_length|]; exact Hlen.
  - change (98 # 100) with PEAK_LEVEL.
    rewrite max_abs_peak_normalize by discriminate.
    destruct (Qltb 0 _); [apply Qle_refl | discriminate].
Qed.

End NormalizerOutput.

Lemma normalize_audio_output_witness :
  exists out,
    @normalize_audio HoldLibrosa.instance (Arr2 [[1; -2]; [0; 1]]%Q) 4 true
    = Ok (out, TARGET_SR)
    /\ len out = (10 * 22050)%Z
    /\ (max_abs out <= 98 # 100)%Q.
Proof.
  apply (@normalize_audio_output HoldLibrosa.instance
           (Arr2 [[1; -2]; [0; 1]]%Q) 4 true).
  - split; [discriminate|]. repeat constructor; discriminate.
  - discriminate.
Defined.

End AudioFunctions.

(** ** More on the top-3 selection *)

Section TopThreeIndices.
Import Audio TopK InsertionSort Service.
Local Open Scope Q_scope.

Lemma rev_argsort_perm {numpy : NumPy} v :
  Permutation (rev (argsort v)) (seq 0 (List.length v)).
Proof. rewrite <- Permutation_rev. apply argsort_perm. Qed.

Lemma NoDup_firstn {A} n (l : list A) : NoDup l -> NoDup (firstn n l).
Proof.
  intro H. rewrite <- (firstn_skipn n l) in H. now apply NoDup_app_remove_r in H.
Qed.

Lemma In_firstn {A} n (l : list A) x : In x (firstn n l) -> In x l.
Proof.
  intro H. rewrite <- (firstn_skipn n l). apply in_or_app. now left.
Qed.

Lemma top_3_indices_lengths {numpy : NumPy} proba :
  List.length (top_3_indices proba) = Nat.min 3 (List.length proba)
  /\ forall i, In i (top_3_indices proba) -> (i < List.length proba)%nat.
Proof.
  pose proof (rev_argsort_perm proba) as Hp.
  unfold top_3_indices. split.
  - rewrite length_firstn. now rewrite (Permutation_length Hp), length_seq.
  - intros i Hi. apply In_firstn in Hi.
    apply (Permutation_in _ Hp), in_seq in Hi. lia.
Qed.

(** X7. [np.argsort] leaves a permutation of the indices, so the top-3
    indices number three (or as many as there are classes, if fewer), are
    pairwise distinct, and each is the index of a class. *)
Theorem top_3_indices_valid {numpy : NumPy} (proba : list Q) :
  Permutation (argsort proba) (seq 0 (List.length proba))
  /\ List.length (top_3_indices proba) = Nat.min 3 (List.length proba)
  /\ NoDup (top_3_indices proba)
  /\ forall i, In i (top_3_indices proba) -> (i < List.length proba)%nat.
Proof.
  pose proof (rev_argsort_perm proba) as Hp.
  split; [|split; [|split]].
  - apply argsort_perm.
  - unfold top_3_indices. rewrite length_firstn.
    now rewrite (Permutation_length Hp), length_seq.
  - unfold top_3_indices. apply NoDup_firstn.
    eapply Permutation_NoDup; [symmetry; exact Hp | apply seq_NoDup].
  - intros i Hi. unfold top_3_indices in Hi. apply In_firstn in Hi.
    apply (Permutation_in _ Hp), in_seq in Hi. lia.
Qed.

(** X8. The first of the top-3 is a class of greatest probability. *)
Theorem top_3_head_is_argmax {numpy : NumPy} (proba : list Q) :
  proba <> [] ->
  exists i rest,
    top_3_indices proba = i :: rest
    /\ forall j, (j < List.length proba)%nat ->
         at_index proba j <= at_index proba i.
Proof.
  intro Hne.
  pose proof (rev_argsort_perm proba) as Hp.
  pose proof (StronglySorted_rev _ _ (argsort_ascending proba)) as Hs.
  unfold top_3_indices.
  destruct (rev (argsort proba)) as [|i rest] eqn:E.
  - apply Permutation_length in Hp. rewrite length_seq in Hp.
    destruct proba; [contradiction | discriminate].
  - exists i, (firstn 2 rest). split; [reflexivity|].
    intros j Hj.
    assert (Hin : In j (i :: rest)).
    { apply (Permutation_in _ (Permutation_sym Hp)), in_seq. lia. }
    destruct Hin as [<-|Hin]; [apply Qle_refl|].
    inversion Hs as [|? ? _ Hall]; subst.
    rewrite Forall_forall in Hall. exact (Hall j Hin).
Qed.

Lemma top_3_head_is_argmax_witness :
  exists i rest,
    top_3_indices [1 # 10; 3 # 10; 1 # 10; 3 # 10; 2 # 10] = i :: rest
    /\ forall j, (j < 5)%nat ->
         at_index [1 # 10; 3 # 10; 1 # 10; 3 # 10; 2 # 10] j
         <= at_index [1 # 10; 3 # 10; 1 # 10; 3 # 10; 2 # 10] i.
Proof.
  apply (top_3_head_is_argmax [1 # 10; 3 # 10; 1 # 10; 3 # 10; 2 # 10]).
  discriminate.
Defined.

Lemma top_3_entries_ok classes proba : forall indices,
  (forall i, In i indices -> (i < List.length classes)%nat) ->
  exists entries,
    top_3_entries classes proba indices = Ok entries
    /\ map species entries
       = map (fun i => str_label (nth i classes (LStr ""))) indices
    /\ map confidence entries = map (at_index proba) indices.
Proof.
  induction indices as [|idx rest IH]; intro Hin; cbn [top_3_entries].
  - exists []. repeat split.
  - destruct (nth_error classes idx) as [c|] eqn:E.
    + destruct IH as (more & -> & Hsp & Hcf).
      { intros i Hi. apply Hin. now right. }
      cbn [Py.bind]. eexists. split; [reflexivity|].
      cbn [map species confidence]. rewrite Hsp, Hcf.
      now rewrite (nth_error_nth _ _ _ E).
    + apply nth_error_None in E. specialize (Hin idx (or_introl eq_refl)). lia.
Qed.

(** X9. When the model names at least as many classes as it gives
    probabilities, the top-3 list is there, with three entries (or as many
    as there are probabilities, if fewer), each the label and the
    probability of one of the top-3 indices, in their order. *)
Theorem top_3_of_covers {numpy : NumPy}
    (m : Model) (classes : list label) (proba : list Q) :
  classes_ m = Some classes ->
  (List.length proba <= List.length classes)%nat ->
  exists entries,
    top_3_of m proba = Ok (Some entries)
    /\ List.length entries = Nat.min 3 (List.length proba)
    /\ map species entries
       = map (fun i => str_label (nth i classes (LStr ""))) (top_3_indices proba)
    /\ map confidence entries = map (at_index proba) (top_3_indices proba).
Proof.
  intros Hc Hlen. unfold top_3_of. rewrite Hc.
  pose proof (top_3_indices_lengths proba) as (Hn & Hin).
  destruct (top_3_entries_ok classes proba (top_3_indices proba))
    as (entries & -> & Hsp & Hcf).
  { intros i Hi. specialize (Hin i Hi). lia. }
  cbn [Py.bind]. exists entries. split; [reflexivity|].
  split; [|split; assumption].
  rewrite <- Hn, <- (length_map confidence), Hcf. apply length_map.
Qed.

Lemma top_3_of_covers_witness :
  exists entries,
    top_3_of Scenario.frog_model [2 # 5; 2 # 5; 1 # 5]%Q = Ok (Some entries)
    /\ List.length entries = 3%nat.
Proof.
  destruct (top_3_of_covers Scenario.frog_model
              [LStr "bullfrog"; LStr "green_treefrog"; LStr "spring_peeper"]
              [2 # 5; 2 # 5; 1 # 5]%Q eq_refl (le_n 3))
    as (entries & H & Hlen & _).
  exists entries. split; assumption.
Defined.

End TopThreeIndices.

(** ** Feature maps and their canonical order *)

Section FeatureOrder.
Import Audio Path Service FeatureExtractor.
Local Open Scope string_scope.

(** X10. Ordering a feature map by a list of names succeeds exactly when
    every name is a key of the map, and then gives the values under the
    names, one for one and in the order of the names; otherwise it raises
    [KeyError] on a name of the list that is missing. *)
Theorem features_dict_to_array_spec
    (features : list (string * Q)) (names : list string) :
  (forall arr,
     features_dict_to_array features names = Ok arr
     <-> Forall2 (fun name v => lookup name features = Some v) names arr)
  /\ (forall e,
        features_dict_to_array features names = Raise e ->
        exists name, In name names /\ lookup name features = None
                     /\ e = OtherError ("'" ++ name ++ "'")).
Proof.
  induction names as [|name names [IHok IHerr]]; cbn [features_dict_to_array].
  - split.
    + intro arr. split; intro H.
      * injection H as <-. constructor.
      * inversion H. reflexivity.
    + intros e H. discriminate H.
  - destruct (lookup name features) as [v|] eqn:E.
    + destruct (features_dict_to_array features names) as [rest|e'] eqn:Er.
      * split.
        -- intro arr. cbn [Py.bind]. split; intro H.
           ++ injection H as <-. constructor; [assumption | now apply IHok].
           ++ inversion H as [|? v' ? rest' Hv Hrest]; subst.
              apply IHok in Hrest. injection Hrest as <-.
              rewrite E in Hv. now injection Hv as <-.
        -- intros e H. discriminate H.
      * split.
        -- intro arr. cbn [Py.bind]. split; intro H; [discriminate H|].
           inversion H as [|? v' ? rest' Hv Hrest]; subst.
           apply IHok in Hrest. discriminate Hrest.
        -- intros e H. cbn [Py.bind] in H. injection H as <-.
           destruct (IHerr e' eq_refl) as (n & Hin & Hn & He).
           exists n. split; [now right | now split].
    + split.
      * intro arr. split; intro H; [discriminate H|].
        inversion H as [|? v' ? rest' Hv Hrest]; subst.
        rewrite E in Hv. discriminate Hv.
      * intros e H. injection H as <-. exists name.
        split; [now left | now split].
Qed.

Lemma features_dict_to_array_spec_witness :
  features_dict_to_array [("a", 1%Q); ("b", 2%Q)] ["b"; "a"; "b"]
  = Ok [2%Q; 1%Q; 2%Q]
  /\ exists name,
       In name ["b"; "c"; "d"]
       /\ lookup name [("a", 1%Q); ("b", 2%Q)] = None
       /\ OtherError "'c'" = OtherError ("'" ++ name ++ "'").
Proof.
  destruct (features_dict_to_array_spec [("a", 1%Q); ("b", 2%Q)] ["b"; "a"; "b"])
    as [Hok _].
  destruct (features_dict_to_array_spec [("a", 1%Q); ("b", 2%Q)] ["b"; "c"; "d"])
    as [_ Herr].
  split.
  - apply Hok. repeat constructor.
  - apply Herr. reflexivity.
Defined.

Example features_dict_to_array_run :
  features_dict_to_array [("a", 1%Q); ("b", 2%Q)] ["b"; "a"; "b"]
  = Ok [2%Q; 1%Q; 2%Q]
  /\ features_dict_to_array [("a", 1%Q); ("b", 2%Q)] ["b"; "c"; "d"]
     = Raise (OtherError "'c'").
Proof. split; reflexivity. Qed.

(** The keys of a dict, in insertion order. *)
Definition keys (d : dict) : list string := map fst d.

Definition add_key (ks : list string) (k : string) : list string :=
  if mem k ks then ks else (ks ++ [k])%list.

Lemma keys_dict_set k v d : keys (dict_set k v d) = add_key (keys d) k.
Proof.
  unfold add_key, keys, mem.
  induction d as [|[k' v'] d IH]; cbn [dict_set map fst existsb]; [reflexivity|].
  destruct (String.eqb k k') eqn:E; cbn [orb map fst].
  - apply String.eqb_eq in E. now subst.
  - rewrite IH. now destruct (existsb _ _).
Qed.

Lemma keys_assign_mfcc suffix stat mfccs : forall indices d d',
  assign_mfcc suffix stat mfccs indices d = Ok d' ->
  keys d'
  = fold_left add_key
      (map (fun i => "mfcc" ++ str_nat (i + 1) ++ suffix) indices) (keys d).
Proof.
  induction indices as [|i rest IH]; intros d d' H; cbn [assign_mfcc] in H.
  - now injection H as <-.
  - destruct (row mfccs i) as [r|e]; [|discriminate H]. cbn [Py.bind] in H.
    apply IH in H. rewrite H, keys_dict_set. reflexivity.
Qed.

Lemma lookup_key {V} (d : list (string * V)) name :
  In name (map fst d) -> exists v, lookup name d = Some v.
Proof.
  induction d as [|[k v] d IH]; intros []; cbn [lookup].
  - cbn in H. subst. rewrite String.eqb_refl. now exists v.
  - destruct (String.eqb name k); [now exists v | now apply IH].
Qed.

Lemma features_dict_to_array_total features names :
  (forall name, In name names -> In name (map fst features)) ->
  exists arr, features_dict_to_array features names = Ok arr
              /\ List.length arr = List.length names.
Proof.
  induction names as [|name names IH]; intro H; cbn [features_dict_to_array].
  - now exists [].
  - destruct (lookup_key features name) as [v ->]; [apply H; now left|].
    destruct IH as (arr & -> & Hlen); [intros n Hn; apply H; now right|].
    exists (v :: arr). split; [reflexivity | cbn; now rewrite Hlen].
Qed.

(** Every step of the extraction that has to have succeeded. *)
Ltac bind_ok H :=
  match type of H with
  | Py.bind ?m _ = Ok _ =>
      let E := fresh "E" in
      destruct m eqn:E; cbn [Py.bind] in H; [|discriminate H]
  end.

Lemma extract_audio_features_keys
    (lib : FeatureLibrary) (y : buffer) (sr : Z) (features : dict) :
  extract_audio_features lib y sr = Ok features ->
  keys features = documented_feature_order.
Proof.
  intro H. unfold extract_audio_features in H.
  repeat bind_ok H.
  injection H as <-.
  rewrite !keys_dict_set.
  repeat match goal with
    | Ha : assign_mfcc _ _ _ _ _ = Ok ?d |- context [keys ?d] =>
        rewrite (keys_assign_mfcc _ _ _ _ _ _ Ha)
    end.
  rewrite !keys_dict_set. reflexivity.
Qed.

(** X11. Whenever feature extraction returns, its map has exactly the 26
    keys of the documented feature order, in that order; so ordering it by
    that list succeeds and gives 26 values. *)
Theorem extract_audio_features_names
    (lib : FeatureLibrary) (y : buffer) (sr : Z) (features : dict) :
  extract_audio_features lib y sr = Ok features ->
  keys features = documented_feature_order
  /\ List.length features = 26%nat
  /\ exists arr,
       features_dict_to_array features documented_feature_order = Ok arr
       /\ List.length arr = 26%nat.
Proof.
  intro H. apply extract_audio_features_keys in H.
  split; [exact H|]. split.
  - rewrite <- (length_map fst). fold (keys features). now rewrite H.
  - apply features_dict_to_array_total. intros name Hin.
    fold (keys features). now rewrite H.
Qed.

Lemma extract_audio_features_names_witness :
  keys Fixtures.flat_features = documented_feature_order
  /\ List.length Fixtures.flat_features = 26%nat.
Proof.
  destruct (extract_audio_features_names Fixtures.flat_library [] 22050 Fixtures.flat_features
              eq_refl) as (Hk & Hl & _).
  split; assumption.
Defined.

(** X12. Feature extraction returns whenever the six librosa routines
    return, each with a row to read and the MFCC array with its 13 rows;
    ordered by the documented feature order its map is then the three
    spectral means, the 13 MFCC means, the standard deviations of MFCC 1,
    3, 4, 5, 7, 8 and 12, and the zero-crossing and RMS statistics. *)
Theorem extract_audio_features_returns
    (lib : FeatureLibrary) (y : buffer) (sr : Z)
    (c0 b0 r0 z0 e0 : buffer) (c b r z e m : list buffer) :
  spectral_centroid lib y sr = Ok (c0 :: c) ->
  spectral_bandwidth lib y sr = Ok (b0 :: b) ->
  spectral_rolloff lib y sr = Ok (r0 :: r) ->
  mfcc lib y sr 13 = Ok m ->
  (13 <= List.length m)%nat ->
  zero_crossing_rate lib y = Ok (z0 :: z) ->
  feature_rms lib y = Ok (e0 :: e) ->
  exists features,
    extract_audio_features lib y sr = Ok features
    /\ features_dict_to_array features documented_feature_order
       = Ok ([mean c0; mean b0; mean r0]
             ++ map (fun i => mean (nth i m [])) (seq 0 13)
             ++ map (fun i => std lib (nth i m [])) [0; 2; 3; 4; 6; 7; 11]%nat
             ++ [mean z0; mean e0; std lib e0])%list.
Proof.
  intros Hc Hb Hr Hm Hlen Hz He.
  do 13 (destruct m as [|? m]; [cbn in Hlen; lia|]).
  unfold extract_audio_features. rewrite Hc, Hb, Hr, Hm, Hz, He.
  eexists. split; reflexivity.
Qed.

Lemma extract_audio_features_returns_witness :
  exists features,
    extract_audio_features Fixtures.flat_library [] 22050 = Ok features
    /\ features_dict_to_array features documented_feature_order
       = Ok (repeat (mean [1%Q]) 16 ++ repeat 0%Q 7
             ++ [mean [1%Q]; mean [1%Q]; 0%Q])%list.
Proof.
  apply (extract_audio_features_returns Fixtures.flat_library [] 22050
           [1%Q] [1%Q] [1%Q] [1%Q] [1%Q]
           (repeat [1%Q] 12) (repeat [1%Q] 12) (repeat [1%Q] 12)
           (repeat [1%Q] 12) (repeat [1%Q] 12) (repeat [1%Q] 13));
    reflexivity.
Defined.

(** With twelve MFCC rows the thirteenth mean cannot be taken. *)
Example extract_audio_features_short_mfcc :
  extract_audio_features
    {| spectral_centroid := spectral_centroid Fixtures.flat_library;
       spectral_bandwidth := spectral_bandwidth Fixtures.flat_library;
       spectral_rolloff := spectral_rolloff Fixtures.flat_library;
       mfcc := fun _ _ _ => Ok (repeat [1%Q] 12);
       zero_crossing_rate := zero_crossing_rate Fixtures.flat_library;
       feature_rms := feature_rms Fixtures.flat_library;
       std := std Fixtures.flat_library |} [] 22050
  = Raise (OtherError "index 12 is out of bounds for axis 0 with size 12").
Proof. reflexivity. Qed.

End FeatureOrder.

(** ** Upload names and content types *)

Section UploadNames.
Import Audio Path Service Endpoints.
Local Open Scope string_scope.

(** X13. Every upload name that passes the extension check of the audio
    endpoint has its content type in the table: the fallbacks
    [audio/<ext>] and [application/octet-stream] are never what a stored
    upload gets. *)
Theorem allowed_extension_has_content_type (filename : string) :
  mem (lower (snd (splitext filename))) allowed_extensions = true ->
  lookup (lstrip_dots (lower (snd (splitext filename)))) content_type_map
  = Some (_guess_content_type_from_ext filename)
  /\ In (_guess_content_type_from_ext filename)
        ["audio/wav"; "audio/mpeg"; "audio/flac"; "audio/ogg"; "audio/mp4";
         "audio/aac"; "audio/x-ms-wma"].
Proof.
  intro H. apply mem_In in H. unfold _guess_content_type_from_ext.
  cbn [allowed_extensions In] in H.
  repeat (destruct H as [H|H]; [rewrite <- H; cbn; tauto|]).
  contradiction.
Qed.

Lemma allowed_extension_has_content_type_witness :
  lookup "wav" content_type_map = Some (_guess_content_type_from_ext "Pond.WAV").
Proof.
  apply (allowed_extension_has_content_type "Pond.WAV"). reflexivity.
Defined.

(** No dot in a name: [rfind] answers its default. *)
Lemma rfind_from_absent c s : forall i last,
  (forall k a, get k s = Some a -> a <> c) -> rfind_from c s i last = last.
Proof.
  induction s as [|a s IH]; intros i last H; cbn [rfind_from]; [reflexivity|].
  destruct (Ascii.eqb_spec a c) as [->|Hne].
  - exfalso. exact (H 0%nat c eq_refl eq_refl).
  - apply IH. intros k b Hk. exact (H (S k) b Hk).
Qed.

Lemma rfind_from_lower_bound c s : forall i last,
  (-1 <= last)%Z -> (0 <= i)%Z -> (-1 <= rfind_from c s i last)%Z.
Proof.
  induction s as [|a s IH]; intros i last Hl Hi; cbn [rfind_from]; [assumption|].
  apply IH; [destruct (Ascii.eqb a c); lia | lia].
Qed.

Lemma splitext_without_dot p :
  (forall k a, get k p = Some a -> a <> "."%char) -> splitext p = (p, "").
Proof.
  intro H. unfold splitext, rfind.
  rewrite (rfind_from_absent "." p 0 (-1) H).
  pose proof (rfind_from_lower_bound "/" p 0 (-1) ltac:(lia) ltac:(lia)).
  destruct (Z.ltb_spec (rfind_from "/" p 0 (-1)) (-1)); [lia | reflexivity].
Qed.

(** X14. An upload whose name holds no dot has no extension and is
    refused with the 400 of the extension check, its content unread. *)
Theorem upload_without_dot_refused {numpy : TopK.NumPy}
    (rt : Runtime) (g : Globals) (file : UploadFile) :
  (forall k a, get k (upload_filename file) = Some a -> a <> "."%char) ->
  predict_from_audio rt g file
  = ([], Raise (HTTPException 400
                  ("Unsupported audio format: . Supported formats: "
                   ++ String.concat ", " (set_iteration rt allowed_extensions)))).
Proof.
  intro H. unfold predict_from_audio.
  rewrite (splitext_without_dot _ H). reflexivity.
Qed.

Lemma upload_without_dot_refused_witness :
  predict_from_audio Scenario.runtime (Scenario.globals_of Scenario.frog_model)
                     (Scenario.upload "blob")
  = ([], Raise (HTTPException 400
       "Unsupported audio format: . Supported formats: .wma, .aac, .m4a, .ogg, .flac, .mp3, .wav")).
Proof.
  apply (upload_without_dot_refused Scenario.runtime
           (Scenario.globals_of Scenario.frog_model) (Scenario.upload "blob")).
  intros k a Hk. 
  do 4 (destruct k as [|k]; [injection Hk as <-; discriminate|]).
  discriminate Hk.
Defined.

End UploadNames.

(** ** How requests end *)

Section Endings.
Import Audio Path Service.
Local Open Scope string_scope.

Lemma outcome_reraise_http {A} (m : Eff A) prefix e :
  outcome (try_except m (reraise_http prefix)) = Raise e ->
  exists c detail, e = HTTPException c detail.
Proof.
  rewrite outcome_try_except. destruct (outcome m) as [a|e']; [discriminate|].
  destruct e'; cbn; intro H; injection H as <-; eauto.
Qed.

(** X15. The audio endpoint raises nothing but [HTTPException]: whatever
    the upload, the model, the scaler or librosa raise. *)
Theorem predict_from_audio_raises_http {numpy : TopK.NumPy}
    (rt : Runtime) (g : Globals) (file : UploadFile) (e : exn) :
  outcome (predict_from_audio rt g file) = Raise e ->
  exists c detail, e = HTTPException c detail.
Proof.
  unfold predict_from_audio. destruct (negb _).
  - cbn. intro H. injection H as <-. eauto.
  - apply outcome_reraise_http.
Qed.

Lemma predict_from_audio_raises_http_witness :
  exists c detail,
    HTTPException 500 "Feature names not loaded" = HTTPException c detail.
Proof.
  apply (predict_from_audio_raises_http Scenario.runtime Scenario.bare_globals
           (Scenario.upload "pond.wav")).
  reflexivity.
Defined.

(** X16. The feature-vector endpoint ends in the 400 of the length
    check, in the 500 of a failed prediction, or - the one call outside
    its [try] - in whatever the scaler raised, as it raised it. *)
Theorem predict_failures {numpy : TopK.NumPy}
    (g : Globals) (features : list Q) (e : exn) :
  outcome (predict g features) = Raise e ->
  (exists detail, e = HTTPException 400 detail
                  /\ trace (predict g features) = [])
  \/ (exists detail, e = HTTPException 500 detail)
  \/ (exists sc, scaler g = Some sc /\ transform sc [features] = Raise e).
Proof.
  unfold predict. destruct (dimension_differs _ _).
  - cbn. intro H. injection H as <-. left. eauto.
  - unfold apply_scaler. destruct (scaler g) as [sc|].
    + destruct (transform sc [features]) as [X|e'] eqn:Etr.
      * rewrite bind_call_ok. cbn [outcome snd].
        rewrite outcome_try_except.
        destruct (outcome _); [discriminate|].
        cbn. intro H. injection H as <-. right. left. eauto.
      * rewrite bind_call_raise. cbn. intro H. injection H as <-.
        right. right. eauto.
    + rewrite bind_ret, outcome_try_except.
      destruct (outcome _); [discriminate|].
      cbn. intro H. injection H as <-. right. left. eauto.
Qed.

Lemma predict_failures_witness :
  (exists detail,
      ValueError "X has 3 features, but StandardScaler is expecting 26 features as input."
      = HTTPException 400 detail
      /\ trace (predict (with_scaler (Scenario.globals_of Scenario.loose_model)
                           (Some Fixtures.narrow_scaler)) [0%Q; 0%Q; 0%Q]) = [])
  \/ (exists detail,
        ValueError "X has 3 features, but StandardScaler is expecting 26 features as input."
        = HTTPException 500 detail)
  \/ (exists sc,
        scaler (with_scaler (Scenario.globals_of Scenario.loose_model)
                  (Some Fixtures.narrow_scaler)) = Some sc
        /\ transform sc [[0%Q; 0%Q; 0%Q]]
           = Raise (ValueError "X has 3 features, but StandardScaler is expecting 26 features as input.")).
Proof.
  apply (predict_failures
           (with_scaler (Scenario.globals_of Scenario.loose_model)
              (Some Fixtures.narrow_scaler)) [0%Q; 0%Q; 0%Q]).
  reflexivity.
Defined.

End Endings.

(** ** When a save is scheduled, and what a response carries *)

Section Scheduling.
Import Audio Path Service.
Local Open Scope string_scope.

Lemma scheduled_In t a : In a (scheduled t) <-> In (CreateTask a) t.
Proof.
  unfold scheduled. rewrite in_flat_map. split.
  - intros (ev & Hev & Ha). destruct ev; try contradiction.
    destruct Ha as [->|[]]. exact Hev.
  - intro H. exists (CreateTask a). split; [assumption | now left].
Qed.

Lemma schedule_save_returns rt sb a name expires :
  exists url, outcome (schedule_save rt sb a name expires) = Ok url.
Proof.
  unfold schedule_save, call. cbn [bind].
  destruct (create_signed_url sb (SUPABASE_BUCKET rt) name expires);
    cbn; eauto.
Qed.

(** A computation that returns. *)
Definition succeeds {A} (m : Eff A) : Prop := exists r, outcome m = Ok r.

Lemma succeeds_try {A} (m : Eff A) (h : exn -> Eff A) ev :
  In ev (trace (try_except m h)) ->
  (forall e, trace (h e) = []) ->
  (In ev (trace m) -> succeeds m) ->
  succeeds (try_except m h).
Proof.
  intros H Hh Hm. apply in_trace_try_except in H as [H|(e & _ & H)].
  - destruct (Hm H) as [r Hr]. exists r. now rewrite outcome_try_except, Hr.
  - rewrite Hh in H. destruct H.
Qed.

Lemma succeeds_bind {A B} (m : Eff A) (k : A -> Eff B) ev :
  In ev (trace (x <~ m ;; k x)) ->
  ~ In ev (trace m) ->
  (forall a, outcome m = Ok a -> In ev (trace (k a)) -> succeeds (k a)) ->
  succeeds (x <~ m ;; k x).
Proof.
  intros H Hm Hk. apply in_trace_bind in H as [H|(a & Ha & H)]; [contradiction|].
  destruct (Hk a Ha H) as [r Hr]. exists r. now rewrite outcome_bind, Ha.
Qed.

Lemma trace_reraise_http {A} prefix e : trace (@reraise_http A prefix e) = [].
Proof. now destruct e. Qed.

(** One step into a run that made the event of [H]. *)
Ltac walk H :=
  first
    [ apply (succeeds_try _ _ _ H);
      [ first [ intros ?; reflexivity | intros ?; apply trace_reraise_http ]
      | clear H; intro H ]
    | apply (succeeds_bind _ _ _ H);
      [ let Hc := fresh "Hc" in
        intro Hc; unfold apply_scaler in Hc; in_trace Hc
      | let a := fresh "a" in
        let Ha := fresh "Ha" in
        clear H; intros a Ha H;
        try (match type of a with
             | (_ * _)%type => destruct a; cbv beta iota in H |- *
             end) ] ].

(** X17. The audio endpoint schedules a save only for a request it
    answers, and only with persistence switched on and a store client
    at hand. *)
Theorem save_only_on_success {numpy : TopK.NumPy}
    (rt : Runtime) (g : Globals) (file : UploadFile) (a : task_args) :
  In a (scheduled (trace (predict_from_audio rt g file))) ->
  succeeds (predict_from_audio rt g file)
  /\ SAVE_UPLOADS g = true
  /\ supabase g <> None.
Proof.
  intro H. apply scheduled_In in H.
  unfold predict_from_audio in *. cbv zeta in *.
  destruct (supabase g) as [sb|] eqn:Esb;
    [destruct (SAVE_UPLOADS g) eqn:Esave|];
    [| exfalso; unfold apply_scaler in H; in_trace H ..].
  split; [|split; [reflexivity | discriminate]].
  destruct (negb _); [destruct H|].
  do 5 walk H.
  destruct (feature_names g); [|destruct H].
  walk H.
  destruct (dimension_differs _ _); [destruct H|].
  do 8 walk H.
  match goal with
  | |- succeeds (bind (schedule_save ?r ?s ?args ?n ?x) _) =>
      destruct (schedule_save_returns r s args n x) as [url Hurl]
  end.
  eexists. rewrite outcome_bind, Hurl. reflexivity.
Qed.

Lemma save_only_on_success_witness :
  succeeds (predict_from_audio Scenario.runtime
              (Scenario.saving_globals Scenario.broken_store)
              (Scenario.upload "pond.wav")).
Proof.
  apply (save_only_on_success Scenario.runtime
           (Scenario.saving_globals Scenario.broken_store)
           (Scenario.upload "pond.wav") pond_save).
  vm_compute. now left.
Defined.

(** A label as Python has it: a [str] or an [int]. *)
Definition python_label (l : label) : Prop :=
  match l with
  | LNumpy _ => False
  | _ => True
  end.

Lemma prediction_value_of_python l : python_label (prediction_value_of l).
Proof. now destruct l. Qed.

Lemma first_confidence_ok t c :
  first_confidence t = Ok c -> exists e es, t = Some (e :: es).
Proof.
  destruct t as [[|e es]|]; try discriminate. intros _. eauto.
Qed.

(** X18. What an answered audio request carries: a label that is a
    Python [str] or [int], the probabilities, a top-3 list that is not
    empty and is the one computed from them, a storage name exactly when
    persistence is on, no URL without one, and the validity window of 900
    seconds exactly when the URL is a non-empty string. *)
Theorem audio_response_shape {numpy : TopK.NumPy}
    (rt : Runtime) (g : Globals) (file : UploadFile) (resp : PredictionResponse) :
  outcome (predict_from_audio rt g file) = Ok resp ->
  python_label (prediction resp)
  /\ (exists proba e es,
        probabilities resp = Some proba
        /\ top_3 resp = Some (e :: es)
        /\ top_3_of (model g) proba = Ok (Some (e :: es)))
  /\ (filename resp <> None <-> SAVE_UPLOADS g = true /\ supabase g <> None)
  /\ (filename resp = None -> signed_url resp = None)
  /\ signed_url_expires_in resp
     = (if truthy (signed_url resp) then Some 900%Z else None).
Proof.
  intro H. unfold predict_from_audio in H. cbv zeta in H.
  destruct (negb _); [discriminate|].
  apply ok_try_raising in H; [| intros ?; apply reraise_http_raises ].
  ok_inside H.
  destruct (feature_names g); [|discriminate].
  ok_inside H.
  destruct (dimension_differs _ _); [discriminate|].
  ok_inside H. injection H as <-.
  cbn [prediction top_3 probabilities filename signed_url signed_url_expires_in].
  split; [apply prediction_value_of_python|].
  split.
  { match goal with
    | Hn : outcome (lift (name_for_storage _ _ ?t _)) = Ok _,
      Ht : outcome (lift (top_3_of _ ?p)) = Ok ?t |- _ =>
        apply ok_lift in Hn, Ht; unfold name_for_storage in Hn;
        destruct (first_confidence t) as [c|] eqn:Ec; [|discriminate Hn];
        destruct (first_confidence_ok t c Ec) as (e & es & ->);
        exists p, e, es; repeat split; assumption
    end. }
  destruct (supabase g) as [sb|]; [destruct (SAVE_UPLOADS g)|].
  - split; [split; [intros _; split; [reflexivity | discriminate] | discriminate]|].
    split; [discriminate | reflexivity].
  - match goal with Hs : outcome (ret None) = Ok _ |- _ => injection Hs as <- end.
    split; [split; [intro Hc; now contradiction Hc | intros [Hc _]; discriminate Hc]|].
    split; reflexivity.
  - match goal with Hs : outcome (ret None) = Ok _ |- _ => injection Hs as <- end.
    split; [split; [intro Hc; now contradiction Hc | intros [_ Hc]; now contradiction Hc]|].
    split; reflexivity.
Qed.

Lemma audio_response_shape_witness :
  python_label (prediction pond_response)
  /\ exists proba e es,
       probabilities pond_response = Some proba
       /\ top_3 pond_response = Some (e :: es)
       /\ top_3_of Scenario.frog_model proba = Ok (Some (e :: es)).
Proof.
  destruct (audio_response_shape (numpy := InsertionSort.stable) Scenario.runtime
              (Scenario.saving_globals Scenario.broken_store)
              (Scenario.upload "pond.wav") pond_response eq_refl)
    as (Hl & Ht & _).
  split; assumption.
Defined.

Lemma log_bg_result_outcome (task : Eff unit) :
  outcome (_log_bg_result task) = Ok tt
  /\ trace (_log_bg_result task)
     = (trace task
        ++ [Print match outcome task with
                  | Ok _ => "Background Supabase save completed"
                  | Raise e => "Background Supabase save failed: " ++ str_exn e
                  end])%list.
Proof.
  destruct task as [t [[]|e]]; split; reflexivity.
Qed.

(** X19. A scheduled save never raises: the done-callback swallows
    whatever it raised and logs it.  Without a store client the save
    touches nothing; and a save given neither a storage name nor a top-3
    list fails on building the name, before any upload. *)
Theorem background_task_never_raises (rt : Runtime) (g : Globals) (a : task_args) :
  outcome (background_task rt g a) = Ok tt
  /\ (supabase g = None ->
        trace (background_task rt g a)
        = [Print "Background Supabase save completed"])
  /\ (forall e,
        supabase g <> None ->
        truthy (arg_storage_filename a) = false ->
        first_confidence (arg_top_3 a) = Raise e ->
        trace (background_task rt g a)
        = [Print ("Background Supabase save failed: " ++ str_exn e)]).
Proof.
  unfold background_task.
  destruct (log_bg_result_outcome (save_prediction_to_supabase rt g a))
    as [Hout Htr].
  split; [exact Hout|]. rewrite Htr. unfold save_prediction_to_supabase.
  split.
  - intros ->. reflexivity.
  - intros e Hsb Hname Hconf. destruct (supabase g); [|contradiction].
    rewrite Hname. unfold name_for_storage. rewrite Hconf. reflexivity.
Qed.

Lemma background_task_never_raises_witness :
  outcome (background_task Scenario.runtime Scenario.bare_globals pond_save) = Ok tt
  /\ trace (background_task Scenario.runtime Scenario.bare_globals pond_save)
     = [Print "Background Supabase save completed"].
Proof.
  destruct (background_task_never_raises Scenario.runtime Scenario.bare_globals
              pond_save) as (Hout & Hnone & _).
  split; [exact Hout | apply Hnone; reflexivity].
Defined.

End Scheduling.

(** ** Start-up, case by case *)

Section StartupCases.
Import Audio Path Service.
Local Open Scope string_scope.

(** The store client start-up ends with. *)
Definition client_of (st : Startup) : option Supabase :=
  if (env_SAVE_UPLOADS st && truthy (SUPABASE_URL st) && truthy (SUPABASE_KEY st))%bool
  then match create_client st with
       | Ok client => Some client
       | Raise _ => None
       end
  else None.

Lemma load_supabase_returns st :
  exists t,
    (if env_SAVE_UPLOADS st then
       if (truthy (SUPABASE_URL st) && truthy (SUPABASE_KEY st))%bool then
         try_except
           (client <~ lift (create_client st) ;;
            _ <~ print "Supabase client initialized - audio uploads will be saved" ;;
            ret (Some client))
           (fun e =>
              _ <~ print ("Warning: Failed to initialize Supabase: " ++ str_exn e) ;;
              _ <~ print "   Audio uploads will not be saved" ;;
              ret None)
       else
         _ <~ print "Warning: SUPABASE_URL or SUPABASE_KEY not set" ;;
         _ <~ print "   Audio uploads will not be saved" ;;
         ret None
     else ret None)
    = (t, Ok (client_of st))
    /\ (env_SAVE_UPLOADS st = true -> client_of st = None ->
        In (Print "   Audio uploads will not be saved") t).
Proof.
  unfold client_of.
  destruct (env_SAVE_UPLOADS st); cbn [andb].
  - destruct (truthy (SUPABASE_URL st) && truthy (SUPABASE_KEY st))%bool.
    + destruct (create_client st); cbn; eexists; (split; [reflexivity|]);
        intros _ H; [discriminate H | cbn; tauto].
    + cbn. eexists. split; [reflexivity|]. intros _ _. cbn. tauto.
  - eexists. split; [reflexivity|]. discriminate.
Qed.

(** X20. Start-up fails in two cases only: the model does not load
    ([RuntimeError] naming the path), or the feature-order file exists
    and cannot be read.  Otherwise it returns: with the scaler or without
    it, with the feature order exactly when the file exists, and with a
    store client exactly when persistence is switched on, both
    credentials are set and the client could be made; a missing store is
    logged and never stops start-up. *)
Theorem load_artifacts_cases (st : Startup) :
  (forall e, load_model st = Raise e ->
     load_artifacts st
     = ([], Raise (RuntimeError ("Failed to load model from " ++ MODEL_PATH st
                                 ++ ": " ++ str_exn e))))
  /\ (forall m e, load_model st = Ok m -> features_path_exists st = true ->
        load_feature_names st = Raise e ->
        load_artifacts st = ([], Raise e))
  /\ (forall m, load_model st = Ok m ->
        (features_path_exists st = true ->
         exists names, load_feature_names st = Ok names) ->
        outcome (load_artifacts st)
        = Ok {| model := m;
                scaler := match load_scaler st with
                          | Ok sc => Some sc
                          | Raise _ => None
                          end;
                feature_names := if features_path_exists st
                                 then match load_feature_names st with
                                      | Ok names => Some names
                                      | Raise _ => None
                                      end
                                 else None;
                supabase := client_of st;
                SAVE_UPLOADS := env_SAVE_UPLOADS st |}
        /\ (env_SAVE_UPLOADS st = true -> client_of st = None ->
            In (Print "   Audio uploads will not be saved")
               (trace (load_artifacts st)))).
Proof.
  unfold load_artifacts.
  destruct (load_supabase_returns st) as (t & Hsb & Hlog). rewrite Hsb.
  split; [|split].
  - intros e ->. reflexivity.
  - intros m e -> -> ->. now destruct (load_scaler st).
  - intros m -> Hnames.
    destruct (features_path_exists st).
    + destruct (Hnames eq_refl) as [names ->].
      destruct (load_scaler st); cbn; rewrite app_nil_r;
        (split; [reflexivity | exact Hlog]).
    + destruct (load_scaler st); cbn; rewrite app_nil_r;
        (split; [reflexivity | exact Hlog]).
Qed.

Lemma load_artifacts_cases_witness :
  outcome (load_artifacts Scenario.bare_startup) = Ok Scenario.bare_globals.
Proof.
  destruct (load_artifacts_cases Scenario.bare_startup) as (_ & _ & Hok).
  destruct (Hok Scenario.frog_model eq_refl) as [H _].
  - discriminate.
  - exact H.
Defined.

End StartupCases.

(** ** The signed-URL endpoint *)

Section SignedUrls.
Import Audio Path Service Endpoints.
Local Open Scope string_scope.

Lemma truthy_nonempty u : truthy u = true -> exists s, u = Some s /\ s <> "".
Proof.
  destruct u as [s|]; [|discriminate]. cbn.
  destruct (String.eqb_spec s ""); [discriminate|]. eauto.
Qed.

Lemma py_or_truthy a b :
  py_or a b = if truthy a then a else b.
Proof. destruct a as [s|]; cbn; [now destruct (String.eqb s "") | reflexivity]. Qed.

(** X21. The signed-URL endpoint answers only with a URL that is a
    non-empty string: the first non-empty of [signedURL], [signed_url],
    [url] for a dict, and of [signed_url], [signedURL], [url] for an
    object.  Without a store client it ends in 503; every other failure,
    an answer without a URL included, ends in 404. *)
Theorem get_signed_url_cases
    (rt : Runtime) (supabase : option Store) (filename : string) (expires_in : Z) :
  (supabase = None ->
     get_signed_url rt supabase filename expires_in
     = Raise (HTTPException 503 "Storage not configured"))
  /\ (forall r, get_signed_url rt supabase filename expires_in = Ok r ->
        su_filename r = filename /\ su_expires_in r = expires_in
        /\ exists u, su_signed_url r = Some u /\ u <> ""
           /\ exists sb reply,
                supabase = Some sb
                /\ storage_create_signed_url sb (SUPABASE_BUCKET rt) filename expires_in
                   = Ok reply
                /\ Some u = reply_url reply)
  /\ (forall sb reply, supabase = Some sb ->
        storage_create_signed_url sb (SUPABASE_BUCKET rt) filename expires_in
        = Ok reply ->
        truthy (reply_url reply) = false ->
        get_signed_url rt supabase filename expires_in
        = Raise (HTTPException 404
                   "Could not create signed URL: No signed URL returned"))
  /\ (forall sb e, supabase = Some sb ->
        get_signed_url rt supabase filename expires_in = Raise e ->
        exists detail, e = HTTPException 404 detail).
Proof.
  unfold get_signed_url. split; [intros ->; reflexivity|].
  split; [|split].
  - intros r H. destruct supabase as [sb|]; [|discriminate H].
    destruct (storage_create_signed_url sb _ _ _) as [reply|e] eqn:E;
      [|discriminate H].
    cbn [Py.bind or_http] in H.
    destruct (truthy (reply_url reply)) eqn:Et; cbn [negb] in H;
      [|discriminate H].
    injection H as <-. cbn. split; [reflexivity|]. split; [reflexivity|].
    destruct (truthy_nonempty _ Et) as (u & Hu & Hne).
    exists u. split; [assumption|]. split; [assumption|].
    exists sb, reply. repeat split; [assumption | now symmetry].
  - intros sb reply -> -> Ht. cbn [Py.bind]. rewrite Ht. reflexivity.
  - intros sb e -> H.
    destruct (storage_create_signed_url sb _ _ _) as [reply|e'];
      cbn [Py.bind or_http] in H.
    + destruct (negb _); cbn in H; [|discriminate H]. injection H as <-. eauto.
    + injection H as <-. eauto.
Qed.

Lemma get_signed_url_cases_witness :
  (exists u, Some "https://store/pond.wav?v=2" = Some u /\ u <> "")
  /\ get_signed_url Scenario.runtime (Some Fixtures.mute_store) "pond.wav" 900
     = Raise (HTTPException 404
                "Could not create signed URL: No signed URL returned").
Proof.
  destruct (get_signed_url_cases Scenario.runtime (Some Fixtures.signing_store)
              "pond.wav" 900) as (_ & Hok & _).
  destruct (get_signed_url_cases Scenario.runtime (Some Fixtures.mute_store)
              "pond.wav" 900) as (_ & _ & Hmute & _).
  split.
  - destruct (Hok {| su_filename := "pond.wav";
                     su_signed_url := Some "https://store/pond.wav?v=2";
                     su_expires_in := 900 |} eq_refl)
      as (_ & _ & u & Hu & Hne & _).
    exists u. split; assumption.
  - apply (Hmute Fixtures.mute_store _ eq_refl eq_refl). reflexivity.
Defined.

(** The two orders of reading the answer. *)
Example reply_url_orders :
  let answer := {| signedURL := Some "https://a"; signed_url_key := Some "https://b";
                   url_key := None |} in
  reply_url (SignedDict answer) = Some "https://a"
  /\ reply_url (SignedObject answer) = Some "https://b".
Proof. split; reflexivity. Qed.

Example reply_url_skips_empty :
  reply_url (SignedDict {| signedURL := Some ""; signed_url_key := None;
                           url_key := Some "https://c" |})
  = Some "https://c".
Proof. reflexivity. Qed.

End SignedUrls.

(** ** What the endpoints call *)

Section Calls.
Import Audio Path Service.
Local Open Scope string_scope.

Definition model_or_scaler_call (ev : event) : Prop :=
  match ev with
  | ScalerTransform _ | ModelPredict _ | ModelPredictProba _ => True
  | _ => False
  end.

(** As [in_trace_step], for an event that is not known: at a call, the
    event is that call. *)
Ltac trace_cases_step H :=
  match type of H with
  | In _ (Service.trace (Service.try_except _ _)) =>
      apply in_trace_try_except in H;
      destruct H as [H | (? & ? & H)]; cbv beta in H
  | In _ (Service.trace (Service.bind _ _)) =>
      apply in_trace_bind in H;
      destruct H as [H | (? & ? & H)]; cbv beta in H
  | In _ (Service.trace (let (_, _) := ?x in _)) =>
      destruct x; cbv beta iota in H
  | In _ (Service.trace (if ?c then _ else _)) =>
      destruct c; cbv beta iota in H
  | In _ (Service.trace (match ?x with Some _ => _ | None => _ end)) =>
      destruct x; cbv beta iota in H
  | In _ (Service.trace (Service.reraise_http _ ?e)) =>
      destruct e; cbn [Service.reraise_http] in H
  | In _ (Service.trace (Service.call_predict_proba _ _)) =>
      unfold Service.call_predict_proba in H
  | In _ (Service.trace (Service.apply_scaler _ _)) =>
      unfold Service.apply_scaler in H
  | In _ (Service.trace (Service.call _ _)) =>
      destruct H as [<-|[]]
  | In _ (Service.trace (Service.ret _)) => destruct H
  | In _ (Service.trace (Service.raise _)) => destruct H
  | In _ (Service.trace (Service.lift _)) => destruct H
  end.

(** X22. The feature-vector endpoint calls the scaler and the model and
    nothing else: it reads no file, decodes nothing, and neither
    schedules a save nor asks the store for anything. *)
Theorem predict_calls {numpy : TopK.NumPy}
    (g : Globals) (features : list Q) (ev : event) :
  In ev (trace (predict g features)) -> model_or_scaler_call ev.
Proof.
  intro H. unfold predict in H.
  repeat trace_cases_step H; exact I.
Qed.

Lemma predict_calls_witness :
  model_or_scaler_call (ModelPredict [repeat 0%Q 26]).
Proof.
  apply (predict_calls (Scenario.globals_of Scenario.frog_model) (repeat 0%Q 26)).
  vm_compute. now left.
Defined.

Lemma features_dict_to_array_length features : forall names arr,
  features_dict_to_array features names = Ok arr ->
  List.length arr = List.length names.
Proof.
  induction names as [|name names IH]; intros arr H; cbn in H.
  - now injection H as <-.
  - destruct (lookup name features); [|discriminate H].
    destruct (features_dict_to_array features names) as [rest|]; [|discriminate H].
    cbn in H. injection H as <-. cbn. now rewrite (IH rest).
Qed.

Lemma ordered_width features names X :
  outcome
    (try_except
       (feature_array <~ lift (features_dict_to_array features names) ;;
        ret [feature_array])
       (fun e => raise (HTTPException 500 ("Feature ordering failed: " ++ str_exn e))))
  = Ok X ->
  shape1 X = Z.of_nat (List.length names).
Proof.
  rewrite outcome_try_except, outcome_bind, outcome_lift.
  destruct (features_dict_to_array features names) as [arr|] eqn:E;
    [|discriminate].
  cbn. intro H. injection H as <-. unfold shape1, len. cbn [hd].
  now rewrite (features_dict_to_array_length _ _ _ E).
Qed.

(** X23. When the canonical feature order does not have as many names
    as the model declares inputs, no audio request reaches the scaler or
    the model, and none is answered. *)
Theorem audio_width_guard {numpy : TopK.NumPy}
    (rt : Runtime) (g : Globals) (file : UploadFile) (names : list string) (d : Z) :
  feature_names g = Some names ->
  n_features_in_ (model g) = Some d ->
  d <> 0%Z ->
  Z.of_nat (List.length names) <> d ->
  (forall ev, In ev (trace (predict_from_audio rt g file)) ->
              ~ model_or_scaler_call ev)
  /\ exists e, outcome (predict_from_audio rt g file) = Raise e.
Proof.
  intros Hn Hd Hnz Hlen.
  assert (Hdiffers : forall features X,
             outcome
               (try_except
                  (feature_array <~ lift (features_dict_to_array features names) ;;
                   ret [feature_array])
                  (fun e => raise (HTTPException 500
                                     ("Feature ordering failed: " ++ str_exn e))))
             = Ok X ->
             dimension_differs (Some d) X = true).
  { intros features X HX. apply ordered_width in HX. unfold dimension_differs.
    rewrite HX. destruct (Z.eqb_spec d 0); [contradiction|].
    now destruct (Z.eqb_spec (Z.of_nat (List.length names)) d). }
  split.
  - intros ev H. unfold predict_from_audio in H. rewrite Hn, Hd in H.
    destruct (negb _); [destruct H|].
    repeat first
      [ match goal with
        | Hx : outcome _ = Ok ?X,
          H : In _ (trace (if dimension_differs (Some d) ?X then _ else _)) |- _ =>
            rewrite (Hdiffers _ _ Hx) in H
        end
      | trace_cases_step H ];
      intros [].
  - destruct (outcome (predict_from_audio rt g file)) as [resp|e] eqn:H;
      [|now exists e].
    exfalso. unfold predict_from_audio in H. rewrite Hn, Hd in H.
    destruct (negb _); [discriminate|].
    ok_inside H.
    match goal with
    | Hx : outcome _ = Ok ?X,
      H : outcome (if dimension_differs (Some d) ?X then _ else _) = _ |- _ =>
        rewrite (Hdiffers _ _ Hx) in H
    end.
    discriminate H.
Qed.

Lemma audio_width_guard_witness :
  exists e,
    outcome (predict_from_audio Scenario.runtime
               {| model := Scenario.frog_model; scaler := None;
                  feature_names := Some ["f"];
                  supabase := None; SAVE_UPLOADS := false |}
               (Scenario.upload "pond.wav"))
    = Raise e.
Proof.
  apply (audio_width_guard Scenario.runtime
           {| model := Scenario.frog_model; scaler := None;
              feature_names := Some ["f"];
              supabase := None; SAVE_UPLOADS := false |}
           (Scenario.upload "pond.wav") ["f"] 26);
    [reflexivity | reflexivity | discriminate | discriminate].
Defined.

End Calls.

(** ** The name a recording is stored under *)

Section StoredNames.
Import Audio Path Service Endpoints.
Local Open Scope string_scope.

Fixpoint occurs (c : ascii) (s : string) : bool :=
  match s with
  | EmptyString => false
  | String a s' => (Ascii.eqb a c || occurs c s')%bool
  end.

Lemma rfind_from_app c s1 : forall s2 i last,
  rfind_from c (s1 ++ s2) i last
  = rfind_from c s2 (i + Z.of_nat (String.length s1))
               (rfind_from c s1 i last).
Proof.
  induction s1 as [|a s1 IH]; intros s2 i last; cbn [append rfind_from String.length].
  - now rewrite Z.add_0_r.
  - rewrite IH. f_equal. lia.
Qed.

Lemma rfind_from_none c s : forall i last,
  occurs c s = false -> rfind_from c s i last = last.
Proof.
  induction s as [|a s IH]; intros i last H; cbn [rfind_from]; [reflexivity|].
  cbn [occurs] in H. apply orb_false_iff in H as [-> H]. now apply IH.
Qed.

Lemma rfind_from_below c s : forall i last,
  (last < i)%Z -> (rfind_from c s i last < i + Z.of_nat (String.length s))%Z.
Proof.
  induction s as [|a s IH]; intros i last H; cbn [rfind_from String.length].
  - lia.
  - specialize (IH (i + 1)%Z (if Ascii.eqb a c then i else last)).
    destruct (Ascii.eqb a c); lia.
Qed.

Lemma length_append a b :
  String.length (a ++ b) = (String.length a + String.length b)%nat.
Proof. induction a as [|x a IH]; cbn; [|rewrite IH]; reflexivity. Qed.

Lemma get_append_at pre c post :
  get (String.length pre) (pre ++ String c post) = Some c.
Proof. induction pre as [|x pre IH]; cbn; [reflexivity | exact IH]. Qed.

Lemma get_append_left a b i c :
  get i a = Some c -> get i (a ++ b) = Some c.
Proof.
  revert i. induction a as [|x a IH]; intros i H; [destruct i; discriminate|].
  destruct i as [|i]; cbn in *; [assumption | now apply IH].
Qed.

Lemma take_append a b : take (String.length a) (a ++ b) = a.
Proof.
  unfold take. induction a as [|x a IH]; cbn [String.length append substring].
  - now destruct b.
  - now rewrite IH.
Qed.

Lemma drop_append a b : drop (String.length a) (a ++ b) = b.
Proof.
  unfold drop. induction a as [|x a IH]; cbn [String.length append substring].
  - rewrite Nat.sub_0_r. apply substring_whole.
  - exact IH.
Qed.

(** An extension put after a name that ends in a component with a
    character other than a dot is what [splitext] finds. *)
Lemma splitext_append pre c post e :
  c <> "."%char -> c <> "/"%char ->
  occurs "/" post = false -> occurs "." e = false -> occurs "/" e = false ->
  splitext ((pre ++ String c post) ++ String "." e)
  = (pre ++ String c post, String "." e).
Proof.
  intros Hdot Hsep Hpost He Hes.
  set (a := pre ++ String c post).
  assert (Hlen : String.length a = (String.length pre + S (String.length post))%nat)
    by (unfold a; now rewrite length_append).
  unfold splitext, rfind.
  assert (Hsepi : rfind_from "/" (a ++ String "." e) 0 (-1)
                  = rfind_from "/" pre 0 (-1)).
  { rewrite rfind_from_app.
    rewrite (rfind_from_none "/" (String "." e)) by exact Hes.
    unfold a. rewrite rfind_from_app. apply rfind_from_none.
    cbn [occurs]. apply orb_false_iff. split; [|assumption].
    now apply Ascii.eqb_neq. }
  assert (Hdoti : rfind_from "." (a ++ String "." e) 0 (-1)
                  = Z.of_nat (String.length a)).
  { rewrite rfind_from_app. cbn [rfind_from Ascii.eqb Bool.eqb].
    now rewrite rfind_from_none. }
  rewrite Hsepi, Hdoti.
  pose proof (rfind_from_below "/" pre 0 (-1) ltac:(lia)) as Hb.
  pose proof (rfind_from_lower_bound "/" pre 0 (-1) ltac:(lia) ltac:(lia)) as Hl.
  destruct (Z.ltb_spec (rfind_from "/" pre 0 (-1)) (Z.of_nat (String.length a)));
    [|lia].
  cbn [andb].
  assert (Hex : existsb
                  (fun i => match get i (a ++ String "." e) with
                            | Some c0 => negb (Ascii.eqb c0 ".")
                            | None => false
                            end)
                  (seq (Z.to_nat (rfind_from "/" pre 0 (-1) + 1))
                       (Z.to_nat (Z.of_nat (String.length a)
                                  - (rfind_from "/" pre 0 (-1) + 1))))
                = true).
  { apply existsb_exists. exists (String.length pre). split.
    - apply in_seq. lia.
    - rewrite (get_append_left a _ _ c) by apply get_append_at.
      apply negb_true_iff. now apply Ascii.eqb_neq. }
  rewrite Hex, Nat2Z.id, take_append, drop_append. reflexivity.
Qed.

Example splitext_stored :
  splitext "20250101_000000_bullfrog_0.40.wav"
  = ("20250101_000000_bullfrog_0.40", ".wav").
Proof. reflexivity. Qed.

Lemma stored_name_shape stamp label conf ext :
  stamp ++ String "_" (label ++ String "_" (conf ++ ext))
  = ((stamp ++ String "_" label) ++ String "_" conf) ++ ext.
Proof.
  change (String "_" (label ++ String "_" (conf ++ ext)))
    with ("_" ++ label ++ String "_" (conf ++ ext)).
  change (String "_" (conf ++ ext)) with ((String "_" conf) ++ ext).
  change (String "_" label) with ("_" ++ label).
  now rewrite !append_assoc.
Qed.

(** The name of a stored recording keeps the extension, and with it the
    content type, of the upload. *)
Lemma stored_name_content_type rt p t original name :
  (forall q, occurs "/" (format_2f rt q) = false) ->
  mem (lower (snd (splitext original))) allowed_extensions = true ->
  name_for_storage rt p t (lower (snd (splitext original))) = Ok name ->
  _guess_content_type_from_ext name = _guess_content_type_from_ext original.
Proof.
  intros Hfmt Hext Hname. unfold name_for_storage in Hname.
  destruct (first_confidence t) as [q|]; [|discriminate Hname].
  cbn [Py.bind] in Hname. injection Hname as <-.
  rewrite (stored_name_shape (utcnow_stamp rt) (str_label p) (format_2f rt q)).
  unfold _guess_content_type_from_ext.
  apply mem_In in Hext. cbn [allowed_extensions In] in Hext.
  repeat (destruct Hext as [Hext|Hext];
          [rewrite <- Hext;
           rewrite splitext_append
             by (first [discriminate | apply Hfmt | reflexivity]);
           reflexivity|]).
  contradiction.
Qed.

Lemma audio_success_storage_name {numpy : TopK.NumPy} rt g file resp :
  outcome (predict_from_audio rt g file) = Ok resp ->
  mem (lower (snd (splitext (upload_filename file)))) allowed_extensions = true
  /\ exists p t name,
       name_for_storage rt p t (lower (snd (splitext (upload_filename file))))
       = Ok name
       /\ (filename resp <> None -> filename resp = Some name).
Proof.
  intro H. unfold predict_from_audio in H. cbv zeta in H.
  destruct (mem _ allowed_extensions); [|discriminate]. cbn [negb] in H.
  split; [reflexivity|].
  apply ok_try_raising in H; [| intros ?; apply reraise_http_raises ].
  ok_inside H.
  destruct (feature_names g); [|discriminate].
  ok_inside H.
  destruct (dimension_differs _ _); [discriminate|].
  ok_inside H. injection H as <-. cbn [filename].
  match goal with
  | Hn : outcome (lift (name_for_storage _ ?p ?t _)) = Ok ?n |- _ =>
      exists p, t, n; split; [exact Hn|]
  end.
  destruct (supabase g); [destruct (SAVE_UPLOADS g)|];
    intro Hc; [reflexivity | now contradiction Hc ..].
Qed.

(** X24. A recording streams back under the content type it was
    uploaded with: for an answered audio request with persistence on, the
    one upload goes to the storage name of the response with the content
    type of the original name, and [GET /audio/<that name>] serves
    whatever the store returns under the same type.  (The float format of
    the name is taken to print no slash.) *)
Theorem stream_matches_upload {numpy : TopK.NumPy}
    (rt : Runtime) (g : Globals) (file : UploadFile)
    (resp : PredictionResponse) (sb : Supabase) :
  (forall q, occurs "/" (format_2f rt q) = false) ->
  outcome (predict_from_audio rt g file) = Ok resp ->
  SAVE_UPLOADS g = true ->
  supabase g = Some sb ->
  exists name ct a,
    filename resp = Some name
    /\ scheduled (trace (predict_from_audio rt g file)) = [a]
    /\ uploads (trace (background_task rt g a)) = [StorageUpload name ct]
    /\ forall store r,
         stream_audio rt (Some store) name = Ok r -> media_type r = ct.
Proof.
  intros Hfmt H Hsave Hsb.
  destruct (audio_success_schedules_one rt g file resp sb H Hsave Hsb)
    as (a & name & Hone & Hname & Hne & Horig & _ & Hresp).
  destruct (audio_success_storage_name rt g file resp H)
    as (Hext & p & t & name' & Hstore & Hsame).
  assert (name' = name).
  { rewrite Hresp in Hsame. specialize (Hsame ltac:(discriminate)).
    now injection Hsame. }
  subst name'.
  exists name, (_guess_content_type_from_ext (arg_filename a)), a.
  split; [assumption|]. split; [assumption|]. split.
  - rewrite (background_task_runs rt g sb a name Hsb Hname Hne).
    destruct (storage_upload sb _ _ _ _); [|reflexivity].
    destruct (table_insert sb _ _); reflexivity.
  - intros store r Hr. unfold stream_audio in Hr.
    destruct (storage_download store _ _); [|discriminate Hr].
    cbn in Hr. injection Hr as <-. cbn [media_type]. rewrite Horig.
    exact (stored_name_content_type rt p t _ name Hfmt Hext Hstore).
Qed.

Lemma stream_matches_upload_witness :
  exists name ct a,
    filename pond_response = Some name
    /\ scheduled (trace (predict_from_audio Scenario.runtime
                           (Scenario.saving_globals Scenario.store_without_table)
                           (Scenario.upload "pond.wav")))
       = [a]
    /\ uploads (trace (background_task Scenario.runtime
                         (Scenario.saving_globals Scenario.store_without_table) a))
       = [StorageUpload name ct].
Proof.
  destruct (stream_matches_upload (numpy := InsertionSort.stable) Scenario.runtime
              (Scenario.saving_globals Scenario.store_without_table)
              (Scenario.upload "pond.wav") pond_response
              Scenario.store_without_table
              (fun _ => eq_refl) eq_refl eq_refl eq_refl)
    as (name & ct & a & Hn & Hs & Hu & _).
  exists name, ct, a. repeat split; assumption.
Defined.

(** The stream endpoint, case by case. *)
Example stream_audio_unconfigured :
  stream_audio Scenario.runtime None "x.wav"
  = Raise (HTTPException 503 "Storage not configured").
Proof. reflexivity. Qed.

Example stream_audio_missing :
  stream_audio Scenario.runtime
    (Some {| storage_download := fun _ _ => Raise (OtherError "Object not found");
             storage_create_signed_url := fun _ _ _ => Raise (OtherError "no") |})
    "x.wav"
  = Raise (HTTPException 404 "File not found: Object not found").
Proof. reflexivity. Qed.

End StoredNames.

(** ** Responses and records *)

Section Records.
Import Audio Path Service.
Local Open Scope string_scope.

(** X25. What an answered feature-vector request carries: a label that is
    a Python [str] or [int], never a storage name or a URL, and the
    probabilities exactly when the top-3 block went through - they are
    dropped with the top-3 list when building it fails. *)
Theorem predict_response_shape {numpy : TopK.NumPy}
    (g : Globals) (features : list Q) (resp : PredictionResponse) :
  outcome (predict g features) = Ok resp ->
  python_label (prediction resp)
  /\ filename resp = None /\ signed_url resp = None
  /\ signed_url_expires_in resp = None
  /\ (forall proba, probabilities resp = Some proba ->
        top_3_of (model g) proba = Ok (top_3 resp))
  /\ (probabilities resp = None -> top_3 resp = None).
Proof.
  intro H. unfold predict in H.
  destruct (dimension_differs _ _); [discriminate|].
  apply ok_bind in H as (X & _ & H).
  apply ok_try_raising in H; [| intros ?; cbn; discriminate].
  apply ok_bind in H as (pred & _ & H).
  apply ok_bind in H as ([pl t3] & Hblock & H).
  apply ok_bind in H as (p0 & _ & H). injection H as <-.
  cbn [prediction top_3 probabilities filename signed_url signed_url_expires_in].
  split; [apply prediction_value_of_python|]. do 3 (split; [reflexivity|]).
  rewrite outcome_try_except in Hblock.
  destruct (outcome (probas <~ call_predict_proba (model g) X ;; _))
    as [[pl' t3']|e] eqn:E.
  - injection Hblock as <- <-. ok_inside E. injection E as <- <-.
    split; [|discriminate].
    intros proba Hp. injection Hp as <-.
    match goal with Ht : outcome (lift (top_3_of _ _)) = Ok _ |- _ => exact Ht end.
  - cbn in Hblock. injection Hblock as <- <-.
    split; [discriminate | reflexivity].
Qed.

Lemma predict_response_shape_witness :
  python_label (LStr "bullfrog").
Proof.
  apply (predict_response_shape (Scenario.globals_of Scenario.plain_model)
           (repeat 0%Q 26)
           {| prediction := LStr "bullfrog";
              top_3 := None; probabilities := None;
              filename := None; signed_url := None;
              signed_url_expires_in := None |}).
  reflexivity.
Defined.

(** A model with fewer class names than probabilities: the probabilities
    go with the top-3 list. *)
Example predict_short_classes :
  outcome (predict {| model := {| n_features_in_ := None;
                                  classes_ := Some [LStr "bullfrog"];
                                  model_predict := fun _ => Ok [LInt 0];
                                  predict_proba :=
                                    Some (fun _ => Ok [[1 # 4; 3 # 4]%Q]) |};
                      scaler := None; feature_names := None;
                      supabase := None; SAVE_UPLOADS := false |} [])
  = Ok {| prediction := LInt 0; top_3 := None; probabilities := None;
          filename := None; signed_url := None; signed_url_expires_in := None |}.
Proof. reflexivity. Qed.

Ltac trace_along :=
  repeat match goal with
    | Hx : outcome ?m = Ok ?a |- context [trace (bind ?m ?k)] =>
        rewrite (trace_bind_ok m k a Hx); cbv beta iota
    | Hx : outcome (try_except ?m ?h) = Ok ?a
      |- context [trace (try_except ?m ?h)] =>
        rewrite (trace_try_raising_ok m h a);
        [ | first [ intros ?; cbn; discriminate
                  | intros ?; apply reraise_http_raises ]
          | exact Hx ]
    | Hx : ?c = false |- context [if ?c then _ else _] => rewrite Hx
    end.

(** The arguments of the save an answered request schedules. *)
Lemma audio_success_save_args {numpy : TopK.NumPy} rt g file resp sb :
  outcome (predict_from_audio rt g file) = Ok resp ->
  SAVE_UPLOADS g = true ->
  supabase g = Some sb ->
  forall a, In a (scheduled (trace (predict_from_audio rt g file))) ->
    arg_prediction a = prediction resp
    /\ arg_top_3 a = top_3 resp
    /\ arg_probabilities a = probabilities resp
    /\ arg_storage_filename a = filename resp
    /\ arg_filename a = upload_filename file.
Proof.
  intros H Hsave Hsb a Ha.
  unfold predict_from_audio in *. cbv zeta in *. rewrite Hsb, Hsave in *.
  destruct (negb _) eqn:Eext; [discriminate|].
  assert (Hbody := H). apply ok_try_raising in Hbody;
    [| intros ?; apply reraise_http_raises ].
  ok_inside Hbody.
  destruct (feature_names g) as [names|] eqn:En; [|discriminate].
  ok_inside Hbody.
  destruct (dimension_differs _ _) eqn:Ed; [discriminate|].
  assert (Hblock := Hbody). apply ok_bind in Hblock.
  destruct Hblock as (X & HX & Hblock). cbv beta in Hblock.
  assert (Hpred := Hblock).
  apply ok_try_raising in Hpred; [| intros ?; cbn; discriminate].
  ok_inside Hpred. injection Hpred as <-.
  revert Ha. trace_along.
  rewrite !scheduled_app, scheduled_apply_scaler, scheduled_call_predict_proba,
    scheduled_schedule_save.
  destruct (features_dict_to_array _ _); cbn; intros [<-|[]]; repeat split.
Qed.


(** X26. The record of a prediction matches the response and the
    stored object: when the upload of a scheduled save succeeds, the one
    row inserted into [predictions] carries the storage name of the
    response - the name the object was uploaded under -, the name of the
    upload, and the label, top-3 list and probabilities of the response. *)
Theorem record_matches_response {numpy : TopK.NumPy}
    (rt : Runtime) (g : Globals) (file : UploadFile)
    (resp : PredictionResponse) (sb : Supabase) (a : task_args) :
  outcome (predict_from_audio rt g file) = Ok resp ->
  SAVE_UPLOADS g = true ->
  supabase g = Some sb ->
  In a (scheduled (trace (predict_from_audio rt g file))) ->
  forall path ct r,
    In (StorageUpload path ct) (trace (background_task rt g a)) ->
    storage_upload sb (SUPABASE_BUCKET rt) path (arg_audio_bytes a) ct = Ok r ->
    exists row,
      inserts (trace (background_task rt g a)) = [TableInsert "predictions" row]
      /\ Some (md_filename row) = filename resp
      /\ md_filename row = path
      /\ md_original_filename row = upload_filename file
      /\ md_prediction row = prediction resp
      /\ md_top_3_predictions row = top_3 resp
      /\ md_all_probabilities row = probabilities resp
      /\ md_timestamp row = utcnow_iso rt.
Proof.
  intros H Hsave Hsb Ha path ct r Hup Hok.
  destruct (audio_success_save_args rt g file resp sb H Hsave Hsb a Ha)
    as (Hp & Ht & Hpr & Hname & Horig).
  destruct (audio_success_schedules_one rt g file resp sb H Hsave Hsb)
    as (a' & name & Hone & Hname' & Hne & _ & _ & Hresp).
  rewrite Hone in Ha. destruct Ha as [->|[]].
  rewrite (background_task_runs rt g sb a name Hsb Hname' Hne) in *.
  assert (Hpath : path = name
                  /\ ct = _guess_content_type_from_ext (arg_filename a)).
  { destruct (storage_upload sb _ name _ _); [destruct (table_insert sb _ _)|];
      cbn in Hup;
      repeat (destruct Hup as [Hup|Hup]; [try discriminate Hup|]);
      try contradiction; injection Hup as <- <-; now split. }
  destruct Hpath as [-> ->]. rewrite Hok.
  exists (row_of rt a name).
  split; [now destruct (table_insert sb _ _)|].
  cbn [row_of md_filename md_original_filename md_prediction
       md_top_3_predictions md_all_probabilities md_timestamp].
  rewrite <- Hname, Hname'. repeat split; assumption.
Qed.

Lemma record_matches_response_witness :
  exists row,
    inserts (trace (background_task Scenario.runtime
                      (Scenario.saving_globals Scenario.store_without_table)
                      pond_save))
    = [TableInsert "predictions" row]
    /\ Some (md_filename row) = filename pond_response.
Proof.
  destruct (record_matches_response (numpy := InsertionSort.stable) Scenario.runtime
              (Scenario.saving_globals Scenario.store_without_table)
              (Scenario.upload "pond.wav") pond_response
              Scenario.store_without_table pond_save
              eq_refl eq_refl eq_refl (or_introl eq_refl)
              "20250101_000000_bullfrog_0.40.wav" "audio/wav" "uploaded"
              (or_introl eq_refl) eq_refl)
    as (row & Hins & Hname & _).
  exists row. split; assumption.
Defined.

End Records.

(** ** From the upload to the model *)

Section Pipeline.
Import Audio Path Service FeatureExtractor.
Local Open Scope string_scope.

Lemma trace_bind_left {A B} (m : Eff A) (k : A -> Eff B) ev :
  In ev (trace m) -> In ev (trace (x <~ m ;; k x)).
Proof.
  destruct m as [t [a|e]]; cbn; [|tauto].
  destruct (k a) as [t' r]. cbn. intro H. apply in_or_app. now left.
Qed.

Lemma trace_bind_right {A B} (m : Eff A) (k : A -> Eff B) a ev :
  outcome m = Ok a -> In ev (trace (k a)) -> In ev (trace (x <~ m ;; k x)).
Proof.
  destruct m as [t [a'|e]]; cbn; [|discriminate].
  intro H. injection H as ->. destruct (k a) as [t' r]. cbn.
  intro H. apply in_or_app. now right.
Qed.

Lemma trace_try_left {A} (m : Eff A) (h : exn -> Eff A) ev :
  In ev (trace m) -> In ev (trace (try_except m h)).
Proof.
  destruct m as [t [a|e]]; cbn; [tauto|].
  destruct (h e) as [t' r]. cbn. intro H. apply in_or_app. now left.
Qed.

(** X27. The extractor and the documented feature order fit a model of
    26 inputs: when the upload decodes, normalizes and has its features
    extracted by [extract_audio_features], and the service runs with the
    documented order, the 26 values of the map in that order are what
    reaches the scaler - or, without one, the model. *)
Theorem audio_request_reaches_model {numpy : TopK.NumPy}
    (rt : Runtime) (g : Globals) (file : UploadFile) (lib : FeatureLibrary)
    (audio : bytes) (y : ndarray) (sr : Z) (yn : buffer) (srn : Z)
    (features : dict) :
  librosa_features rt = extract_audio_features lib ->
  feature_names g = Some documented_feature_order ->
  n_features_in_ (model g) = Some 26%Z ->
  mem (lower (snd (splitext (upload_filename file)))) allowed_extensions = true ->
  upload_read file = Ok audio ->
  librosa_load rt audio = Ok (y, sr) ->
  @normalize_audio (librosa rt) y sr true = Ok (yn, srn) ->
  extract_audio_features lib yn srn = Ok features ->
  exists arr,
    features_dict_to_array features documented_feature_order = Ok arr
    /\ List.length arr = 26%nat
    /\ In (match scaler g with
           | Some _ => ScalerTransform [arr]
           | None => ModelPredict [arr]
           end)
          (trace (predict_from_audio rt g file)).
Proof.
  intros Hlib Hnames Hdim Hext Hread Hload Hnorm Hfeat.
  destruct (features_dict_to_array_total features documented_feature_order)
    as (arr & Harr & Hlen).
  { intros name Hin. fold (keys features).
    now rewrite (extract_audio_features_keys lib yn srn features Hfeat). }
  exists arr. split; [exact Harr|]. split; [exact Hlen|].
  unfold predict_from_audio. cbv zeta.
  rewrite Hext, Hnames, Hdim. cbn [negb]. apply trace_try_left.
  apply (trace_bind_right _ _ audio); [now rewrite Hread|].
  apply (trace_bind_right _ _ (y, sr)); [now rewrite Hload|].
  apply (trace_bind_right _ _ (yn, srn)); [now rewrite Hnorm|].
  apply (trace_bind_right _ _ features); [now rewrite Hlib, Hfeat|].
  apply (trace_bind_right _ _ [arr]); [now rewrite Harr|].
  assert (Hd : dimension_differs (Some 26%Z) [arr] = false).
  { unfold dimension_differs, shape1, len. cbn [hd]. rewrite Hlen. reflexivity. }
  rewrite Hd. unfold apply_scaler. destruct (scaler g) as [sc|].
  - apply trace_bind_left. now left.
  - apply (trace_bind_right _ _ [arr]); [reflexivity|].
    apply trace_try_left, trace_bind_left. now left.
Qed.

Lemma audio_request_reaches_model_witness :
  exists arr,
    features_dict_to_array Fixtures.flat_features documented_feature_order = Ok arr
    /\ List.length arr = 26%nat
    /\ In (ModelPredict [arr])
          (trace (predict_from_audio Fixtures.extracting_runtime Fixtures.documented_globals
                    (Scenario.upload "pond.wav"))).
Proof.
  eapply (audio_request_reaches_model Fixtures.extracting_runtime Fixtures.documented_globals
            (Scenario.upload "pond.wav") Fixtures.flat_library);
    reflexivity.
Defined.

End Pipeline.
